(** * Angebot Pro: extraction and matching pipeline of [app.py]

    A shallow embedding of the line-item extractors, the catalog matcher and
    the Excel price-list import of [src/app.py], and the properties the
    specification states about them.
    The PDF price-list import of [src/app.py] and the price lines of
    [src/ingest_prices.py] are embedded as well, and further properties of
    all of these are proved at the end.

    Modelling conventions.
    - A Python [str] is a Rocq [string]: the UTF-8 bytes of the text; its
      length [len] is the number of its characters, not of its bytes.  The
      character tests the program relies on ([str.strip], [\s], [\d],
      [str.lower]) are modelled on the ASCII range; Python also accepts the
      non-ASCII Unicode spaces and digits, which are outside the model.
    - A Python [float] is modelled by the rational it denotes ([Fin q], with
      [q] in lowest terms) or one of [inf], [-inf], [nan]; rounding to
      binary64 and overflow are outside the model.
    - Library code ([re], [thefuzz], [json], [pandas], the Azure client) is
      not part of the repository: [re] is modelled by a backtracking
      matcher for the pattern constructs the program uses, the similarity
      scorer and the AI service are parameters. *)

From Stdlib Require Import String Ascii List ZArith QArith Bool Arith Lia.
Import ListNotations.

Local Open Scope string_scope.
Local Open Scope Z_scope.

(* ------------------------------------------------------------------ *)
(** ** Python strings *)

Module PyStr.

Definition code (a : ascii) : nat := nat_of_ascii a.

(** [str.isspace] on the ASCII range: TAB, LF, VT, FF, CR, FS, GS, RS, US
    and the space. *)
Definition is_space (a : ascii) : bool :=
  let n := code a in
  (((9 <=? n) && (n <=? 13)) || ((28 <=? n) && (n <=? 32)))%nat.

Definition is_digit (a : ascii) : bool :=
  let n := code a in ((48 <=? n) && (n <=? 57))%nat.

Definition is_upper (a : ascii) : bool :=
  let n := code a in ((65 <=? n) && (n <=? 90))%nat.

Definition is_lower (a : ascii) : bool :=
  let n := code a in ((97 <=? n) && (n <=? 122))%nat.

Definition is_alpha (a : ascii) : bool := is_upper a || is_lower a.

Definition lower_char (a : ascii) : ascii :=
  if is_upper a then ascii_of_nat (code a + 32) else a.

Fixpoint lower (s : string) : string :=
  match s with
  | EmptyString => EmptyString
  | String a s' => String (lower_char a) (lower s')
  end.

Fixpoint rev_onto (s acc : string) : string :=
  match s with
  | EmptyString => acc
  | String a s' => rev_onto s' (String a acc)
  end.

Definition rev (s : string) : string := rev_onto s EmptyString.

(** Drop the leading characters of class [p]; the same at both ends. *)
Fixpoint lstrip_with (p : ascii -> bool) (s : string) : string :=
  match s with
  | EmptyString => EmptyString
  | String a s' => if p a then lstrip_with p s' else s
  end.

Definition strip_with (p : ascii -> bool) (s : string) : string :=
  rev (lstrip_with p (rev (lstrip_with p s))).

(** [s.strip()] *)
Definition strip (s : string) : string := strip_with is_space s.

Definition is_empty (s : string) : bool :=
  match s with EmptyString => true | _ => false end.

(** [s.startswith(p)], returning the rest of [s] after [p]. *)
Fixpoint strip_prefix (p s : string) : option string :=
  match p with
  | EmptyString => Some s
  | String a p' =>
      match s with
      | EmptyString => None
      | String b s' => if Ascii.eqb a b then strip_prefix p' s' else None
      end
  end.

Definition starts_with (p s : string) : bool :=
  match strip_prefix p s with Some _ => true | None => false end.

(** [sub in s] *)
Fixpoint contains (sub s : string) : bool :=
  starts_with sub s ||
  match s with
  | EmptyString => false
  | String _ s' => contains sub s'
  end.

(** [s.replace(old, new)] for a non-empty [old]: occurrences are replaced
    from left to right and do not overlap.  [skip] counts the characters of
    an occurrence that are still to be dropped. *)
Fixpoint replace_from (old new : string) (skip : nat) (s : string) : string :=
  match s with
  | EmptyString => EmptyString
  | String a s' =>
      match skip with
      | S k => replace_from old new k s'
      | O =>
          if starts_with old s
          then new ++ replace_from old new (String.length old - 1) s'
          else String a (replace_from old new O s')
      end
  end.

Definition replace (old new s : string) : string := replace_from old new O s.

(** [s.split(sep)] for a one-character separator. *)
Fixpoint split_on (sep : ascii) (s : string) : list string :=
  match s with
  | EmptyString => [EmptyString]
  | String a s' =>
      if Ascii.eqb a sep then EmptyString :: split_on sep s'
      else match split_on sep s' with
           | [] => [String a EmptyString]
           | w :: ws => String a w :: ws
           end
  end.

(** [sep.join(l)] *)
Fixpoint join (sep : string) (l : list string) : string :=
  match l with
  | [] => EmptyString
  | [w] => w
  | w :: ws => w ++ sep ++ join sep ws
  end.

Definition LF : ascii := ascii_of_nat 10.
Definition newline : string := String LF EmptyString.

(** The first [n] characters of [s]. *)
Fixpoint take (n : nat) (s : string) : string :=
  match n, s with
  | S k, String a s' => String a (take k s')
  | _, _ => EmptyString
  end.

Fixpoint forallb (p : ascii -> bool) (s : string) : bool :=
  match s with
  | EmptyString => true
  | String a s' => p a && forallb p s'
  end.

(** The class of the digits and one more character. *)
Definition digit_or (x : ascii) (a : ascii) : bool := is_digit a || Ascii.eqb a x.

(** [len(s)]: the number of characters of a text, which is the number of
    the bytes of its UTF-8 form that are not continuation bytes. *)
Definition is_continuation (a : ascii) : bool :=
  let n := code a in ((128 <=? n) && (n <=? 191))%nat.

Fixpoint len (s : string) : nat :=
  match s with
  | EmptyString => O
  | String a s' => if is_continuation a then len s' else S (len s')
  end.

End PyStr.

(* ------------------------------------------------------------------ *)
(** ** Python floats and [float(str)] *)

Module PyFloat.
Import PyStr.

Inductive pyfloat : Type :=
| Fin (q : Q)
| PosInf
| NegInf
| NaN.

Definition of_Z (z : Z) : pyfloat := Fin (inject_Z z).

Definition zero : pyfloat := of_Z 0.

(** [x > 0] *)
Definition gt0 (x : pyfloat) : bool :=
  match x with
  | Fin q => 0 <? Qnum q
  | PosInf => true
  | NegInf | NaN => false
  end.

(** [0 <= x], used in statements only. *)
Definition ge0 (x : pyfloat) : bool :=
  match x with
  | Fin q => 0 <=? Qnum q
  | PosInf => true
  | NegInf | NaN => false
  end.

Definition neg (x : pyfloat) : pyfloat :=
  match x with
  | Fin q => Fin (Qopp q)
  | PosInf => NegInf
  | NegInf => PosInf
  | NaN => NaN
  end.

(** The white space [float] skips around an ASCII numeral: that of C's
    [isspace]. *)
Definition is_c_space (a : ascii) : bool :=
  let n := code a in (((9 <=? n) && (n <=? 13)) || (n =? 32))%nat.

Definition digit_val (a : ascii) : Z := Z.of_nat (code a - 48).

Fixpoint digits_val (acc : Z) (s : string) : Z :=
  match s with
  | EmptyString => acc
  | String a s' => digits_val (10 * acc + digit_val a) s'
  end.

(** The longest prefix of digits, and what follows it. *)
Fixpoint span_digits (s : string) : string * string :=
  match s with
  | EmptyString => (EmptyString, EmptyString)
  | String a s' =>
      if is_digit a
      then let (d, r) := span_digits s' in (String a d, r)
      else (EmptyString, s)
  end.

(** Underscores in a numeric literal: each one must stand between two
    digits; they are removed before the number is read. *)
Fixpoint drop_underscores (prev : ascii) (s : string) : option string :=
  match s with
  | EmptyString => if Ascii.eqb prev "_" then None else Some EmptyString
  | String a s' =>
      if Ascii.eqb a "_"
      then if is_digit prev then drop_underscores a s' else None
      else if Ascii.eqb prev "_" && negb (is_digit a) then None
           else option_map (String a) (drop_underscores a s')
  end.

Definition scale (m e : Z) : Q :=
  if 0 <=? e then Qred (inject_Z (m * 10 ^ e))
  else Qred (Qmake m (Z.to_pos (10 ^ (- e)))).

(** The exponent part: empty, or [e]/[E], an optional sign and digits. *)
Definition parse_exponent (s : string) : option Z :=
  match s with
  | EmptyString => Some 0
  | String a s' =>
      if Ascii.eqb a "e" || Ascii.eqb a "E" then
        let '(sgn, body) :=
          match s' with
          | String "-" r => (-1, r)
          | String "+" r => (1, r)
          | _ => (1, s')
          end in
        let (d, r) := span_digits body in
        if is_empty d || negb (is_empty r) then None
        else Some (sgn * digits_val 0 d)
      else None
  end.

(** An unsigned decimal numeral: digits with an optional point and an
    optional exponent; at least one digit before the exponent. *)
Definition parse_decimal (s : string) : option Q :=
  let (ip, r1) := span_digits s in
  let (fp, r2) :=
    match r1 with
    | String "." r => span_digits r
    | _ => (EmptyString, r1)
    end in
  if is_empty ip && is_empty fp then None
  else match parse_exponent r2 with
       | Some e =>
           Some (scale (digits_val 0 (ip ++ fp))
                       (e - Z.of_nat (String.length fp)))
       | None => None
       end.

Definition parse_unsigned (s : string) : option pyfloat :=
  let l := lower s in
  if String.eqb l "inf" || String.eqb l "infinity" then Some PosInf
  else if String.eqb l "nan" then Some NaN
  else option_map Fin (parse_decimal s).

(** [float(s)] for a string [s]; [None] stands for [ValueError]. *)
Definition of_string (s : string) : option pyfloat :=
  match drop_underscores "000"%char s with
  | None => None
  | Some s1 =>
      match strip_with is_c_space s1 with
      | String "-" r => option_map neg (parse_unsigned r)
      | String "+" r => parse_unsigned r
      | r => parse_unsigned r
      end
  end.

(** [x < y] *)
Definition ltb (x y : pyfloat) : bool :=
  match x, y with
  | NaN, _ | _, NaN => false
  | Fin a, Fin b => match Qcompare a b with Lt => true | _ => false end
  | Fin _, PosInf | NegInf, Fin _ | NegInf, PosInf => true
  | Fin _, NegInf | PosInf, _ | NegInf, NegInf => false
  end.

(** [x * y] *)
Definition mul (x y : pyfloat) : pyfloat :=
  match x, y with
  | NaN, _ | _, NaN => NaN
  | Fin a, Fin b => Fin (Qred (a * b))
  | Fin a, PosInf | PosInf, Fin a =>
      match Qnum a ?= 0 with Gt => PosInf | Lt => NegInf | Eq => NaN end
  | Fin a, NegInf | NegInf, Fin a =>
      match Qnum a ?= 0 with Gt => NegInf | Lt => PosInf | Eq => NaN end
  | PosInf, PosInf | NegInf, NegInf => PosInf
  | PosInf, NegInf | NegInf, PosInf => NegInf
  end.

End PyFloat.

(* ------------------------------------------------------------------ *)
(** ** Regular expressions: the part of [re] the program uses

    A backtracking matcher with Python's priorities: a repetition is
    greedy and gives characters back one iteration at a time, an
    alternation tries its branches from left to right, an optional part is
    tried before it is skipped.  The first complete match found in that
    order is the match [re.match] and [re.search] return. *)

Module PyRe.
Import PyStr.

Inductive regex : Type :=
| Eps                               (* the empty pattern *)
| Bol                               (* ^ (without re.MULTILINE) *)
| Cls (p : ascii -> bool)           (* one character of a class *)
| Lit (s : string)                  (* a literal text *)
| Cat (r1 r2 : regex)               (* r1 r2 *)
| Alt (r1 r2 : regex)               (* r1|r2 *)
| Rep (min : nat) (r : regex)       (* r{min,}, greedy: r* is r{0,}, r+ is r{1,} *)
| Opt (r : regex)                   (* r?, greedy *)
| Grp (n : nat) (r : regex).        (* capturing group number n *)

(** Captured groups, the latest capture first. *)
Definition captures : Type := list (nat * string).

Fixpoint lookup (n : nat) (c : captures) : option string :=
  match c with
  | [] => None
  | (k, w) :: c' => if Nat.eqb k n then Some w else lookup n c'
  end.

Section Engine.
Variable A : Type.

(** What is left of a pattern: the offset reached, the text still to be
    read and the groups captured so far. *)
Definition cont : Type := nat -> string -> captures -> option A.

(** The greedy repetition [r{min,}] of a pattern run by [body]: one more
    iteration is tried first, and when the rest fails after it the
    repetition stops here, provided [cnt], the number of iterations done,
    has reached [min].  An iteration has to consume at least one
    character, so the length of the text bounds their number: [fuel]. *)
Fixpoint iter (body : nat -> string -> captures -> cont -> option A)
    (min : nat) (k : cont) (fuel cnt pos : nat) (s : string)
    (c : captures) {struct fuel} : option A :=
  let stop := if (min <=? cnt)%nat then k pos s c else None in
  match fuel with
  | O => stop
  | S fuel' =>
      match body pos s c
              (fun pos' s' c' =>
                 if (pos <? pos')%nat
                 then iter body min k fuel' (S cnt) pos' s' c'
                 else None) with
      | Some x => Some x
      | None => stop
      end
  end.

(** [run r pos s c k]: match [r] at offset [pos], where the text still to
    be read is [s] and the groups captured so far are [c]; [k] is the rest
    of the pattern. *)
Fixpoint run (r : regex) (pos : nat) (s : string) (c : captures)
    (k : cont) {struct r} : option A :=
  match r with
  | Eps => k pos s c
  | Bol => if Nat.eqb pos 0 then k pos s c else None
  | Cls p =>
      match s with
      | String a s' => if p a then k (S pos) s' c else None
      | EmptyString => None
      end
  | Lit l =>
      match strip_prefix l s with
      | Some s' => k (pos + String.length l)%nat s' c
      | None => None
      end
  | Cat r1 r2 =>
      run r1 pos s c (fun pos' s' c' => run r2 pos' s' c' k)
  | Alt r1 r2 =>
      match run r1 pos s c k with
      | Some x => Some x
      | None => run r2 pos s c k
      end
  | Opt r1 =>
      match run r1 pos s c k with
      | Some x => Some x
      | None => k pos s c
      end
  | Grp n r1 =>
      run r1 pos s c
        (fun pos' s' c' => k pos' s' ((n, take (pos' - pos) s) :: c'))
  | Rep min r1 =>
      iter (run r1) min k (String.length s) O pos s c
  end.
End Engine.

(** A match object: where the match ends and what the groups captured. *)
Record match_obj : Type := MatchObj { m_end : nat; m_groups : captures }.

Definition accept (pos : nat) (_ : string) (c : captures) : option match_obj :=
  Some (MatchObj pos c).

(** [m.group(n)] *)
Definition group (m : match_obj) (n : nat) : option string :=
  lookup n (m_groups m).

(** [m.group(n)] for a group that took part in the match. *)
Definition group_str (m : match_obj) (n : nat) : string :=
  match group m n with Some w => w | None => EmptyString end.

(** [re.match(r, s)]: a match that starts at the beginning of [s]. *)
Definition re_match (r : regex) (s : string) : option match_obj :=
  run match_obj r 0 s [] accept.

(** [re.search(r, s)]: the first offset, from the left, at which [r]
    matches. *)
Fixpoint search_from (r : regex) (pos : nat) (s : string) : option match_obj :=
  match run match_obj r pos s [] accept with
  | Some m => Some m
  | None =>
      match s with
      | EmptyString => None
      | String _ s' => search_from r (S pos) s'
      end
  end.

Definition re_search (r : regex) (s : string) : option match_obj :=
  search_from r 0 s.

(** Pattern notations. *)
Definition digit : regex := Cls is_digit.                     (* \d *)
Definition space : regex := Cls is_space.                     (* \s *)
Definition dot : regex := Lit ".".                            (* \. *)
Definition any : regex := Cls (fun a => negb (Ascii.eqb a LF)). (* . *)
Definition star (r : regex) : regex := Rep 0 r.
Definition plus (r : regex) : regex := Rep 1 r.

Fixpoint seq (l : list regex) : regex :=
  match l with
  | [] => Eps
  | [r] => r
  | r :: l' => Cat r (seq l')
  end.

Fixpoint alts (l : list regex) : regex :=
  match l with
  | [] => Cls (fun _ => false)
  | [r] => r
  | r :: l' => Alt r (alts l')
  end.

(** The declarative reading of a pattern, used to reason about [run]:
    [sem r pos w c c'] says that [r] can match the text [w] at offset [pos],
    turning the captures [c] into [c'].  The lower bound of a repetition is
    left out: every match [run] finds is one of these, not conversely. *)
Inductive sem : regex -> nat -> string -> captures -> captures -> Prop :=
| sem_eps pos c :
    sem Eps pos EmptyString c c
| sem_bol c :
    sem Bol 0 EmptyString c c
| sem_cls p pos a c :
    p a = true -> sem (Cls p) pos (String a EmptyString) c c
| sem_lit l pos c :
    sem (Lit l) pos l c c
| sem_cat r1 r2 pos w1 w2 c c1 c2 :
    sem r1 pos w1 c c1 ->
    sem r2 (pos + String.length w1) w2 c1 c2 ->
    sem (Cat r1 r2) pos (w1 ++ w2) c c2
| sem_alt_l r1 r2 pos w c c1 :
    sem r1 pos w c c1 -> sem (Alt r1 r2) pos w c c1
| sem_alt_r r1 r2 pos w c c1 :
    sem r2 pos w c c1 -> sem (Alt r1 r2) pos w c c1
| sem_opt_some r pos w c c1 :
    sem r pos w c c1 -> sem (Opt r) pos w c c1
| sem_opt_none r pos c :
    sem (Opt r) pos EmptyString c c
| sem_grp n r pos w c c1 :
    sem r pos w c c1 -> sem (Grp n r) pos w c ((n, w) :: c1)
| sem_rep_stop min r pos c :
    sem (Rep min r) pos EmptyString c c
| sem_rep_more min r pos w1 w2 c c1 c2 :
    sem r pos w1 c c1 ->
    sem (Rep min r) (pos + String.length w1) w2 c1 c2 ->
    sem (Rep min r) pos (w1 ++ w2) c c2.

(** A way [body] of running [r] is sound when each result it yields comes
    from a declarative match of a prefix of the text, followed by the rest
    of the pattern. *)
Definition sound_at (A : Type) (r : regex)
    (body : nat -> string -> captures -> cont A -> option A) : Prop :=
  forall pos s c k x,
    body pos s c k = Some x ->
    exists w s' c',
      s = w ++ s' /\ sem r pos w c c' /\
      k (pos + String.length w)%nat s' c' = Some x.

(** The patterns without a capturing group. *)
Fixpoint groups_free (r : regex) : bool :=
  match r with
  | Grp _ _ => false
  | Cat r1 r2 | Alt r1 r2 => groups_free r1 && groups_free r2
  | Rep _ r1 | Opt r1 => groups_free r1
  | Eps | Bol | Cls _ | Lit _ => true
  end.

(** A rest of the pattern that cannot fail. *)
Definition total (A : Type) (k : cont A) : Prop :=
  forall pos s c, k pos s c <> None.

(** [only P r]: the classes and the literal texts of [r] hold characters of
    the class [P] only. *)
Fixpoint only (P : ascii -> bool) (r : regex) : Prop :=
  match r with
  | Eps | Bol => True
  | Cls p => forall a, p a = true -> P a = true
  | Lit l => forallb P l = true
  | Cat r1 r2 | Alt r1 r2 => only P r1 /\ only P r2
  | Rep _ r1 | Opt r1 | Grp _ r1 => only P r1
  end.

End PyRe.

(* ------------------------------------------------------------------ *)
(** ** Patterns with a lazy repetition or an end anchor

    The patterns of the price-list import use two constructs more: the
    lazy repetition, which tries the rest of the pattern before one more
    iteration, and the dollar sign.  They are run by [xrun], which hands the
    patterns of the first kind to [run]. *)

Module PyReX.
Import PyStr PyRe.

Inductive xregex : Type :=
| Base (r : regex)                  (* a pattern without the two constructs *)
| LazyStar (r : regex)              (* r*? *)
| Eol                               (* $ (without re.MULTILINE) *)
| XCat (r1 r2 : xregex)             (* r1 r2 *)
| XOpt (r : xregex)                 (* r?, greedy *)
| XGrp (n : nat) (r : xregex).      (* capturing group number n *)

Section EngineX.
Variable A : Type.

(** The lazy repetition [r*?] of a pattern run by [body]: the rest of the
    pattern is tried first, one more iteration only when it fails. *)
Fixpoint lazy_iter (body : nat -> string -> captures -> cont A -> option A)
    (k : cont A) (fuel pos : nat) (s : string) (c : captures)
    {struct fuel} : option A :=
  match k pos s c with
  | Some x => Some x
  | None =>
      match fuel with
      | O => None
      | S fuel' =>
          body pos s c
            (fun pos' s' c' =>
               if (pos <? pos')%nat
               then lazy_iter body k fuel' pos' s' c'
               else None)
      end
  end.

(** The dollar sign matches at the end of the text, and before a line feed
    that ends the text. *)
Definition at_end (s : string) : bool :=
  is_empty s || String.eqb s newline.

Fixpoint xrun (r : xregex) (pos : nat) (s : string) (c : captures)
    (k : cont A) {struct r} : option A :=
  match r with
  | Base r0 => run A r0 pos s c k
  | LazyStar r0 => lazy_iter (run A r0) k (String.length s) pos s c
  | Eol => if at_end s then k pos s c else None
  | XCat r1 r2 =>
      xrun r1 pos s c (fun pos' s' c' => xrun r2 pos' s' c' k)
  | XOpt r1 =>
      match xrun r1 pos s c k with
      | Some x => Some x
      | None => k pos s c
      end
  | XGrp n r1 =>
      xrun r1 pos s c
        (fun pos' s' c' => k pos' s' ((n, take (pos' - pos) s) :: c'))
  end.
End EngineX.

Fixpoint xseq (l : list xregex) : xregex :=
  match l with
  | [] => Base Eps
  | [r] => r
  | r :: l' => XCat r (xseq l')
  end.

(** [re.search(r, s)] *)
Fixpoint xsearch_from (r : xregex) (pos : nat) (s : string) : option match_obj :=
  match xrun match_obj r pos s [] accept with
  | Some m => Some m
  | None =>
      match s with
      | EmptyString => None
      | String _ s' => xsearch_from r (S pos) s'
      end
  end.

Definition xre_search (r : xregex) (s : string) : option match_obj :=
  xsearch_from r 0 s.

End PyReX.

(* ------------------------------------------------------------------ *)
(** ** The regex extractor: [extract_lv_items] *)

Module Regex.
Import PyStr PyRe.
Import PyFloat.

(** One extracted position: the dictionary with the keys ['oz'],
    ['description'], ['quantity'] and ['unit'].  [V] is the type of the text
    fields: [string] here, any JSON value on the AI path. *)
Record lv_item (V : Type) : Type := mk_item {
  oz : V;
  description : V;
  quantity : pyfloat;
  unit : V
}.
Arguments mk_item {V} _ _ _ _.
Arguments oz {V} _.
Arguments description {V} _.
Arguments quantity {V} _.
Arguments unit {V} _.

(** [oz_pattern]: a caret, group 1 [\d{2,}\.\d{2,}\.\d{2,}(?:\.\d{2,})?\.?],
    then [\s+], then group 2, which is [.*] . *)
Definition oz_pattern : regex :=
  seq [ Bol;
        Grp 1 (seq [ Rep 2 digit; dot; Rep 2 digit; dot; Rep 2 digit;
                     Opt (Cat dot (Rep 2 digit));
                     Opt dot ]);
        plus space;
        Grp 2 (star any) ].

(** [[\d\.,]] *)
Definition number_char (a : ascii) : bool :=
  is_digit a || Ascii.eqb a "." || Ascii.eqb a ",".

(** [[a-zA-Z²³]]: an ASCII letter, or the two bytes of a superscript two or
    three. *)
Definition unit_char : regex :=
  alts [ Cls is_alpha; Lit "²"; Lit "³" ].

(** [qty_line_pattern]: a caret, [\s*], group 1 [[\d\.,]+], [\s*],
    group 2 [[a-zA-Z²³]+|m2|m3|Stk|psch|lfm|h|t], [\s*] and the optional
    group 3 [\.{2,}|Nur Einh\.|Einh\.-Pr\.]. *)
Definition qty_line_pattern : regex :=
  seq [ Bol;
        star space;
        Grp 1 (plus (Cls number_char));
        star space;
        Grp 2 (alts [ plus unit_char; Lit "m2"; Lit "m3"; Lit "Stk";
                      Lit "psch"; Lit "lfm"; Lit "h"; Lit "t" ]);
        star space;
        Opt (Grp 3 (alts [ Rep 2 dot; Lit "Nur Einh."; Lit "Einh.-Pr." ])) ].

(** [float(match_qty.group(1).replace('.', '').replace(',', '.'))] *)
Definition parse_quantity (g : string) : option pyfloat :=
  of_string (replace "," "." (replace "." "" g)).

(** The state of the loop: the list [items] and [current_item]. *)
Record state : Type := mk_state {
  items : list (lv_item string);
  current_item : option (lv_item string)
}.

(** [if current_item and current_item['quantity'] > 0: items.append(current_item)] *)
Definition flush (st : state) : list (lv_item string) :=
  match current_item st with
  | Some it => if gt0 (quantity it) then items st ++ [it] else items st
  | None => items st
  end.

(** The lines that are neither a position line nor a quantity line:
    appended to the description unless they hold "Datum:" or "Projekt:". *)
Definition append_text (st : state) (it : lv_item string) (line : string) : state :=
  if negb (contains "Datum:" line) && negb (contains "Projekt:" line)
  then mk_state (items st)
         (Some (mk_item (oz it) (description it ++ " " ++ line)
                        (quantity it) (unit it)))
  else st.

(** The body of [for line in lines]. *)
Definition step (st : state) (raw : string) : state :=
  let line := strip raw in
  if is_empty line then st
  else
    match re_match oz_pattern line with
    | Some match_oz =>
        mk_state (flush st)
          (Some (mk_item (group_str match_oz 1) (group_str match_oz 2)
                         zero ""))
    | None =>
        match current_item st with
        | None => st
        | Some it =>
            match re_search qty_line_pattern line with
            | Some match_qty =>
                if negb (contains "von" line) then
                  match parse_quantity (group_str match_qty 1) with
                  | Some q =>
                      mk_state
                        (items st ++
                           [mk_item (oz it) (description it) q
                                    (group_str match_qty 2)])
                        None
                  | None => st                      (* except: pass *)
                  end
                else append_text st it line
            | None => append_text st it line
            end
        end
    end.

(** The argument [text]: a string, or a list of strings that is joined
    with newlines first. *)
Inductive text_arg : Type :=
| Text (s : string)
| Lines (l : list string).

Definition text_of (t : text_arg) : string :=
  match t with
  | Text s => s
  | Lines l => join newline l
  end.

Definition run_lines (lines : list string) : state :=
  fold_left step lines (mk_state [] None).

Definition extract_lv_items (text : text_arg) : list (lv_item string) :=
  flush (run_lines (split_on LF (text_of text))).

(** An item that a quantity line among [lines] closed: the line matches
    [qty_line_pattern], does not hold "von", and gives the item its quantity
    and its unit. *)
Definition closed_by (lines : list string) (it : lv_item string) : Prop :=
  exists raw match_qty,
    In raw lines /\
    re_search qty_line_pattern (strip raw) = Some match_qty /\
    contains "von" (strip raw) = false /\
    parse_quantity (group_str match_qty 1) = Some (quantity it) /\
    unit it = group_str match_qty 2.

(** What holds of the loop state once the lines [seen] are read: the items
    collected were closed by a quantity line, and an item still open has the
    quantity 0.0 it was created with. *)
Definition loop_inv (seen : list string) (st : state) : Prop :=
  Forall (closed_by seen) (items st) /\
  (forall it, current_item st = Some it -> quantity it = zero).

(** The bytes a unit can be made of: the ASCII letters and the bytes of the
    superscripts two and three (C2 B2, C2 B3). *)
Definition unit_byte (a : ascii) : bool :=
  is_alpha a || (code a =? 194)%nat || (code a =? 178)%nat || (code a =? 179)%nat.

(** The alternatives of group 2 of [qty_line_pattern]. *)
Definition unit_alts : regex :=
  alts [ plus unit_char; Lit "m2"; Lit "m3"; Lit "Stk";
         Lit "psch"; Lit "lfm"; Lit "h"; Lit "t" ].

(** An item that a position line among [lines] opened, which gave it its
    position code. *)
Definition opened_by (lines : list string) (it : lv_item string) : Prop :=
  exists raw match_oz,
    In raw lines /\
    re_match oz_pattern (strip raw) = Some match_oz /\
    oz it = group_str match_oz 1.

(** What holds of the loop state beside [loop_inv]: every item, collected
    or open, was opened by a position line. *)
Definition opened_inv (seen : list string) (st : state) : Prop :=
  Forall (opened_by seen) (items st) /\
  (forall it, current_item st = Some it -> opened_by seen it).

(** The lines that open an item, and the lines that can close one. *)
Definition is_position_line (raw : string) : bool :=
  match re_match oz_pattern (strip raw) with Some _ => true | None => false end.

Definition is_quantity_line (raw : string) : bool :=
  match re_search qty_line_pattern (strip raw) with
  | Some match_qty =>
      negb (contains "von" (strip raw)) &&
      match parse_quantity (group_str match_qty 1) with
      | Some _ => true
      | None => false
      end
  | None => false
  end.

(** 1 for an open item, 0 for none. *)
Definition open_items (st : state) : nat :=
  match current_item st with Some _ => 1 | None => 0 end.

(** The lines as the loop reads them: stripped, the blank ones left out. *)
Definition cleaned (lines : list string) : list string :=
  filter (fun line => negb (is_empty line)) (map strip lines).

End Regex.

(* ------------------------------------------------------------------ *)
(** ** Python values

    The values a decoded JSON document, a spreadsheet cell or a database
    cell can hold.  A dictionary is the list of its entries in insertion
    order; its keys are distinct, as in Python. *)

Module Py.
Import PyStr PyFloat.

#[local] Set Warnings "-register-all".

Inductive pyval : Type :=
| VNone
| VBool (b : bool)
| VInt (z : Z)
| VFloat (f : pyfloat)
| VStr (s : string)
| VList (l : list pyval)
| VDict (d : list (string * pyval)).

(** [bool(v)] *)
Definition truthy (v : pyval) : bool :=
  match v with
  | VNone => false
  | VBool b => b
  | VInt z => negb (z =? 0)
  | VFloat (Fin q) => negb (Qnum q =? 0)
  | VFloat _ => true
  | VStr s => negb (is_empty s)
  | VList l => match l with [] => false | _ => true end
  | VDict d => match d with [] => false | _ => true end
  end.

(** [a or b] *)
Definition py_or (a b : pyval) : pyval := if truthy a then a else b.

Fixpoint assoc (key : string) (d : list (string * pyval)) : option pyval :=
  match d with
  | [] => None
  | (k, v) :: d' => if String.eqb k key then Some v else assoc key d'
  end.

(** [d.get(key, default)] *)
Definition dict_get (d : list (string * pyval)) (key : string)
    (default : pyval) : pyval :=
  match assoc key d with Some v => v | None => default end.

(** [key in d] *)
Definition dict_has (d : list (string * pyval)) (key : string) : bool :=
  match assoc key d with Some _ => true | None => false end.

(** [isinstance(v, list)] *)
Definition is_list (v : pyval) : bool :=
  match v with VList _ => true | _ => false end.

(** [float(v)]; [None] stands for [TypeError] or [ValueError]. *)
Definition py_float (v : pyval) : option pyfloat :=
  match v with
  | VNone => None
  | VBool b => Some (of_Z (if b then 1 else 0))
  | VInt z => Some (of_Z z)
  | VFloat f => Some f
  | VStr s => of_string s
  | VList _ | VDict _ => None
  end.

(** [pd.notna(v)] for a scalar. *)
Definition notna (v : pyval) : bool :=
  match v with
  | VNone => false
  | VFloat NaN => false
  | _ => true
  end.

End Py.

(* ------------------------------------------------------------------ *)
(** ** The AI extractor: [analyze_with_azure_ai] *)

Module AI.
Import PyStr PyFloat Py Regex.

(** What one chat-completion request yields.  [Content (Some v)] is a reply
    whose text [json.loads] decodes to [v]; [Content None] is a reply that
    is not JSON ([json.JSONDecodeError]); [ApiStatusError] is the exception
    of that name with its status code, [OtherError] any other exception of
    the request or of the reading of its reply. *)
Inductive ai_reply : Type :=
| ApiStatusError (status_code : Z)
| OtherError
| Content (decoded : option pyval).

(** The service: the reply to the request for page number [i] with text
    [page_text]. *)
Definition ai_client : Type := nat -> string -> ai_reply.

Inductive level : Type := warning | error.

(** The messages of the processing log; the page number is [i + 1]. *)
Inductive message : Type :=
| NotConfigured
| InvalidJson (page : nat)
| ApiError (page : nat)
| Unexpected (page : nat)
| FallbackToRegex.

Record log_entry : Type := mk_log { log_level : level; log_message : message }.

(** The shapes of a reply:
    a list is the list of items; of a dictionary, the first value that is a
    list, or else the dictionary itself when it has the key ['oz']. *)
Definition items_list_of (json_content : pyval) : list pyval :=
  match json_content with
  | VList l => l
  | VDict d =>
      match filter is_list (map snd d) with
      | VList l :: _ => l
      | _ :: _ => []
      | [] => if dict_has d "oz" then [json_content] else []
      end
  | _ => []
  end.

(** The dictionary [normalized_item], after the coercion of its quantity. *)
Definition normalize (item : list (string * pyval)) : lv_item pyval :=
  let quantity := py_or (dict_get item "menge" (VInt 0))
                        (dict_get item "quantity" (VInt 0)) in
  mk_item
    (dict_get item "oz" (VStr ""))
    (py_or (dict_get item "text" (VStr "")) (dict_get item "description" (VStr "")))
    (match py_float quantity with Some q => q | None => zero end)
    (py_or (dict_get item "einheit" (VStr "")) (dict_get item "unit" (VStr ""))).

(** [for item in items_list]: the items appended to [all_items], and
    whether the loop ended with an exception ([item.get] on a value that is
    not a dictionary). *)
Fixpoint normalize_all (items_list : list pyval)
    (all_items : list (lv_item pyval)) : list (lv_item pyval) * bool :=
  match items_list with
  | [] => (all_items, false)
  | VDict item :: rest =>
      let normalized_item := normalize item in
      normalize_all rest
        (if truthy (oz normalized_item)
         then all_items ++ [normalized_item] else all_items)
  | _ :: _ => (all_items, true)
  end.

(** The state of the loop over the pages.  [requests] is not a variable of
    the program: it records the pages for which a request was sent. *)
Record run_state : Type := mk_run {
  all_items : list (lv_item pyval);
  processing_log : list log_entry;
  requests : list (nat * string)
}.

(** [if not page_text.strip() or len(page_text) < 50: continue] *)
Definition skipped (page_text : string) : bool :=
  is_empty (strip page_text) || (len page_text <? 50)%nat.

(** The body of [for i, page_text in enumerate(pages)]. *)
Definition page_step (client : ai_client) (st : run_state)
    (ip : nat * string) : run_state :=
  let (i, page_text) := ip in
  if skipped page_text then st
  else
    let sent := (requests st ++ [(i, page_text)])%list in
    match client i page_text with
    | Content (Some json_content) =>
        let (its, raised) :=
          normalize_all (items_list_of json_content) (all_items st) in
        mk_run its
          (if raised
           then processing_log st ++ [mk_log error (Unexpected (i + 1))]
           else processing_log st)
          sent
    | Content None =>
        mk_run (all_items st)
          (processing_log st ++ [mk_log warning (InvalidJson (i + 1))]) sent
    | ApiStatusError status_code =>
        mk_run (all_items st)
          (processing_log st ++
             [mk_log (if status_code =? 403 then warning else error)
                     (ApiError (i + 1))])
          sent
    | OtherError =>
        mk_run (all_items st)
          (processing_log st ++ [mk_log error (Unexpected (i + 1))]) sent
    end.

Fixpoint enumerate_from {X : Type} (i : nat) (l : list X) : list (nat * X) :=
  match l with
  | [] => []
  | x :: l' => (i, x) :: enumerate_from (S i) l'
  end.

Definition enumerate {X : Type} (l : list X) : list (nat * X) :=
  enumerate_from 0 l.

Definition FF : ascii := ascii_of_nat 12.

(** [pages]: the list itself, or the text split at form feeds. *)
Definition pages_of (full_text : text_arg) : list string :=
  match full_text with
  | Lines l => l
  | Text s => split_on FF s
  end.

(** The loop of [analyze_with_azure_ai] when the AI is enabled. *)
Definition analyze_pages (client : ai_client) (pages : list string) : run_state :=
  fold_left (page_step client) (enumerate pages) (mk_run [] [] []).

(** [analyze_with_azure_ai(full_text)]: the pair [(all_items,
    processing_log)]. *)
Definition analyze_with_azure_ai (ai_enabled : bool) (client : ai_client)
    (full_text : text_arg) : list (lv_item pyval) * list log_entry :=
  if negb ai_enabled then ([], [mk_log warning NotConfigured])
  else
    let st := analyze_pages client (pages_of full_text) in
    (all_items st, processing_log st).

(** An item of the regex extractor as a dictionary of Python values. *)
Definition as_dict (it : lv_item string) : lv_item pyval :=
  mk_item (VStr (oz it)) (VStr (description it)) (quantity it) (VStr (unit it)).

(** The extraction step of [tab_angebot_erstellen]: [extracted_items] and
    [processing_log] for the pages of the uploaded document. *)
Definition extract_positions (use_ai ai_enabled : bool) (client : ai_client)
    (pages_content : list string) : list (lv_item pyval) * list log_entry :=
  if use_ai && ai_enabled then
    let (extracted_items, processing_log) :=
      analyze_with_azure_ai ai_enabled client (Lines pages_content) in
    match extracted_items with
    | [] =>
        (map as_dict (extract_lv_items (Lines pages_content)),
         (processing_log ++ [mk_log warning FallbackToRegex])%list)
    | _ :: _ => (extracted_items, processing_log)
    end
  else (map as_dict (extract_lv_items (Lines pages_content)), []).

(** The page number a log message is about. *)
Definition page_of (m : message) : option nat :=
  match m with
  | InvalidJson page | ApiError page | Unexpected page => Some page
  | NotConfigured | FallbackToRegex => None
  end.

(** A blank page: all its characters are white space. *)
Definition blank (page_text : string) : bool := forallb is_space page_text.

(** The pages a request is due for, with their indices: those that are not
    blank and are at least 50 characters long, white space included.  Used
    in statements only. *)
Definition requested (pages : list string) : list (nat * string) :=
  filter (fun ip => negb (blank (snd ip)) && (50 <=? len (snd ip))%nat)
         (enumerate pages).

(** The number of non-blank characters of a page, the measure the
    specification words the threshold of 50 with: the bytes that are
    neither white space nor continuation bytes. *)
Definition nonblank_count (page_text : string) : nat :=
  List.length (filter (fun a => negb (is_space a) && negb (is_continuation a))
                      (list_ascii_of_string page_text)).

Fixpoint spaces (n : nat) : string :=
  match n with
  | O => EmptyString
  | S k => String " " (spaces k)
  end.

(** Worked examples: a page of 50 characters of which two are not blank,
    a page of 47 characters that takes 53 bytes, a page of a tender, and
    replies of the service. *)
Definition sparse_page : string := "a" ++ spaces 48 ++ "b".

Definition umlaut_page : string :=
  "01.01.0010 Wärmedämmung für Außenwände 12,50 m²".

Definition beton_page : string :=
  "01.01.0010 Beton C25/30 liefern und einbauen" ++ newline ++ "3,0 m3".

Definition reply_items : pyval :=
  VDict [ ("items",
           VList [ VDict [ ("oz", VStr "01.01.0010"); ("text", VStr "Beton");
                           ("menge", VStr "3,0"); ("einheit", VStr "m3") ] ]) ].

Definition reply_without_oz : pyval :=
  VList [ VDict [ ("oz", VStr ""); ("text", VStr "x") ] ].

Definition client_of (reply : pyval) : ai_client :=
  fun _ _ => Content (Some reply).

(** The items one request adds to [all_items]: those of its reply up to the
    first value that is not a dictionary, none when the request fails. *)
Definition page_items (reply : ai_reply) : list (lv_item pyval) :=
  match reply with
  | Content (Some json_content) =>
      fst (normalize_all (items_list_of json_content) [])
  | _ => []
  end.

End AI.

(* ------------------------------------------------------------------ *)
(** ** The catalog matcher: [find_best_match] *)

Module Matcher.
Import PyStr PyFloat Py.

(** [int(s)] for a string: white space, an optional sign and decimal digits,
    with single underscores between digits. *)
Definition int_of_string (s : string) : option Z :=
  let '(sgn, body) :=
    match strip_with is_c_space s with
    | String "-" r => (-1, r)
    | String "+" r => (1, r)
    | r => (1, r)
    end in
  match drop_underscores "000"%char body with
  | Some d =>
      if negb (is_empty d) && forallb is_digit d
      then Some (sgn * digits_val 0 d) else None
  | None => None
  end.

(** [int(v)]; [None] stands for an exception. *)
Definition py_int (v : pyval) : option Z :=
  match v with
  | VNone => None
  | VBool b => Some (if b then 1 else 0)
  | VInt z => Some z
  | VFloat (Fin q) => Some (Z.quot (Qnum q) (Zpos (Qden q)))
  | VFloat _ => None
  | VStr s => int_of_string s
  | VList _ | VDict _ => None
  end.

(** One row of the table [prices] as [load_price_list] reads it.  The
    description is a text or NULL.  [row_id] and [row_price_min] are [None]
    when the table has no such column (the table that an import creates
    has no [id]); the lookups [row['id']] and [row['price_min']] then raise
    inside their [try]. *)
Record price_row : Type := mk_row {
  row_id : option pyval;              (* id *)
  row_description : option string;    (* description *)
  row_unit : pyval;                   (* unit *)
  row_price_min : option pyval;       (* price_min *)
  row_price_max : option pyval;       (* price_max *)
  row_category : pyval                (* category *)
}.

Definition price_db : Type := list price_row.

(** The dictionary [find_best_match] returns. *)
Record match_result : Type := mk_match {
  price : pyfloat;
  description : string;
  unit : pyval;
  score : Z;
  price_id : Z
}.

Definition KEIN_TREFFER : string := "--- KEIN TREFFER ---".

Definition no_match (score : Z) : match_result :=
  mk_match zero KEIN_TREFFER (VStr "") score (-1).

(** [int(row['id']) if pd.notna(row['id']) else -1], and [-1] on any
    exception. *)
Definition safe_id (cell : option pyval) : Z :=
  match cell with
  | Some v =>
      if notna v then match py_int v with Some z => z | None => -1 end
      else -1
  | None => -1
  end.

(** [float(row['price_min']) if pd.notna(row['price_min']) else 0.0], and
    [0.0] on any exception. *)
Definition safe_price (cell : option pyval) : pyfloat :=
  match cell with
  | Some v =>
      if notna v then match py_float v with Some f => f | None => zero end
      else zero
  | None => zero
  end.

(** [price_db[price_db['description'] == match_text].iloc[0]] *)
Definition first_row (match_text : string) (db : price_db) : option price_row :=
  find (fun r => match row_description r with
                 | Some d => String.eqb d match_text
                 | None => false
                 end) db.

(** The status of a row of the review table: the red, yellow and green
    circles, which are the tiers NONE, LOW and HIGH. *)
Inductive tier : Type := NONE | LOW | HIGH.

Section WithScorer.
(** The score [process.extractOne] computes for a query and a choice with
    [fuzz.partial_token_sort_ratio], preprocessing included. *)
Variable scorer : string -> string -> Z.

(** [process.extractOne(query, choices, scorer=...)] with its default
    [score_cutoff=0]: choices that are [None] are skipped, a later choice
    replaces the best one only with a strictly greater score. *)
Fixpoint extract_from (query : string) (choices : list (option string))
    (best : option (string * Z)) : option (string * Z) :=
  match choices with
  | [] => best
  | None :: rest => extract_from query rest best
  | Some c :: rest =>
      let s := scorer query c in
      match best with
      | None => extract_from query rest (if 0 <=? s then Some (c, s) else None)
      | Some (_, bs) =>
          extract_from query rest (if bs <? s then Some (c, s) else best)
      end
  end.

Definition extractOne (query : string) (choices : list (option string))
    : option (string * Z) :=
  extract_from query choices None.

Definition find_best_match (item_text : string) (db : price_db) : match_result :=
  match db with
  | [] => no_match 0                                   (* price_db.empty *)
  | _ :: _ =>
      let choices := map row_description db in
      match extractOne item_text choices with
      | Some (match_text, score) =>
          if score <? 50 then no_match score
          else
            match first_row match_text db with
            | Some row =>
                mk_match (safe_price (row_price_min row))
                         match_text (row_unit row) score
                         (safe_id (row_id row))
            | None => no_match 0      (* not reached: match_text is a choice *)
            end
      | None => no_match 0
      end
  end.

(** [status_icon] in [prepare_dataframe_for_display] *)
Definition status_icon (m : match_result) : tier :=
  if gt0 (price m) then (if 90 <? score m then HIGH else LOW) else NONE.

Definition confidence_tier (desc : string) (db : price_db) : tier :=
  status_icon (find_best_match desc db).

End WithScorer.

(** The tier as the specification words it, from the score alone: NONE
    below 50, LOW from 50 to 90, HIGH above 90. *)
Definition spec_tier (s : Z) : tier :=
  if s <? 50 then NONE else if s <=? 90 then LOW else HIGH.

(** A scorer for worked examples: 100 for identical texts, as
    [partial_token_sort_ratio] gives, and 0 otherwise. *)
Definition exact_scorer (query choice : string) : Z :=
  if String.eqb query choice then 100 else 0.

(** A row without its cell [price_max]. *)
Definition without_price_max (r : price_row) : price_row :=
  mk_row (row_id r) (row_description r) (row_unit r) (row_price_min r)
         None (row_category r).

(** Catalogs for worked examples.  A row priced 0.0 is what the header-alias
    import stores for a price it cannot read. *)
Definition catalog_zero_price : price_db :=
  [ mk_row (Some (VInt 1)) (Some "Beton") (VStr "m3")
           (Some (VFloat zero)) (Some (VFloat zero)) (VStr "Import") ].

(** A row added in the table editor: its cell [id] is empty. *)
Definition catalog_without_id : price_db :=
  [ mk_row (Some (VFloat NaN)) (Some "Beton") (VStr "m3")
           (Some (VFloat (of_Z 145))) (Some (VFloat (of_Z 145)))
           (VStr "Import") ].

Definition catalog_two_prices : price_db :=
  [ mk_row (Some (VInt 1)) (Some "Estrich") (VStr "m2")
           (Some (VFloat (of_Z 20))) (Some (VFloat (of_Z 25))) (VStr "General");
    mk_row (Some (VInt 2)) (Some "Beton") (VStr "m3")
           (Some (VFloat (of_Z 145))) (Some (VFloat (of_Z 160))) (VStr "General");
    mk_row (Some (VInt 3)) (Some "Beton") (VStr "m3")
           (Some (VFloat (of_Z 150))) (Some (VFloat (of_Z 155))) (VStr "General") ].

End Matcher.

(* ------------------------------------------------------------------ *)
(** ** The review table: [prepare_dataframe_for_display] *)

Module Display.
Import PyStr PyFloat Py.

(** A row of the table, with its columns 'Status', 'OZ',
    'Beschreibung (LV)', 'Menge', 'Einheit (LV)', 'Zugeordneter Artikel',
    'Preis (€)' and 'Gesamt (€)'. *)
Record display_row : Type := mk_display {
  Status : Matcher.tier;
  OZ : pyval;
  Beschreibung_LV : pyval;
  Menge : pyfloat;
  Einheit_LV : pyval;
  Zugeordneter_Artikel : string;
  Preis : pyfloat;
  Gesamt : pyfloat
}.

(** A row of the catalog that has a description. *)
Definition has_description (r : Matcher.price_row) : bool :=
  match Matcher.row_description r with Some _ => true | None => false end.

(** [find_best_match(desc, price_df)] for a value [desc]: with an empty
    catalog the function returns before it reads [desc]; otherwise
    [process.extractOne] needs a text and raises for any other value
    ([None]). *)
Definition match_value (scorer : string -> string -> Z) (desc : pyval)
    (price_df : Matcher.price_db) : option Matcher.match_result :=
  match price_df, desc with
  | [], _ => Some (Matcher.no_match 0)
  | _ :: _, VStr s => Some (Matcher.find_best_match scorer s price_df)
  | _ :: _, _ => None
  end.

(** The body of [for item in extracted_items].  The items of both
    extractors have the key 'description' and no key 'text'. *)
Definition display_row_of (scorer : string -> string -> Z)
    (price_df : Matcher.price_db) (item : Regex.lv_item pyval)
    : option display_row :=
  let desc := py_or (Regex.description item) (VStr "") in
  match match_value scorer desc price_df with
  | Some m =>
      Some (mk_display (Matcher.status_icon m) (Regex.oz item) desc
              (Regex.quantity item) (Regex.unit item)
              (Matcher.description m) (Matcher.price m)
              (mul (Regex.quantity item) (Matcher.price m)))
  | None => None
  end.

(** All the values of a list of results, or [None] when one of them is an
    exception. *)
Fixpoint sequence {X : Type} (l : list (option X)) : option (list X) :=
  match l with
  | [] => Some []
  | None :: _ => None
  | Some x :: l' =>
      match sequence l' with
      | Some xs => Some (x :: xs)
      | None => None
      end
  end.

(** [prepare_dataframe_for_display(extracted_items, price_df)]: the rows of
    the data frame, [None] when the function raises. *)
Definition prepare_dataframe_for_display (scorer : string -> string -> Z)
    (extracted_items : list (Regex.lv_item pyval))
    (price_df : Matcher.price_db) : option (list display_row) :=
  sequence (map (display_row_of scorer price_df) extracted_items).

End Display.

(* ------------------------------------------------------------------ *)
(** ** The Excel price-list import of [tab_datenbank_verwalten] *)

Module ExcelImport.
Import PyStr PyFloat Py.

(** A row of the sheet: the column labels with their cells, in column
    order.  The labels of a sheet are distinct, also once they are lowered
    and stripped.  An empty cell is [VFloat NaN]. *)
Definition sheet_row : Type := list (string * pyval).

(** A dictionary appended to [mapped_data]. *)
Record mapped_row : Type := mk_mapped {
  description : string;
  unit : string;
  price_min : pyfloat;
  price_max : pyfloat;
  category : string
}.

(** The texts [pd.read_excel] reads as a missing value: its default
    [na_values] (library behaviour, taken from the documentation of
    pandas). *)
Definition na_values : list string :=
  [ ""; "#N/A"; "#N/A N/A"; "#NA"; "-1.#IND"; "-1.#QNAN"; "-NaN"; "-nan";
    "1.#IND"; "1.#QNAN"; "<NA>"; "N/A"; "NA"; "NULL"; "NaN"; "None"; "n/a";
    "nan"; "null" ].

(** A cell of the file as the data frame holds it: an empty cell and a text
    among [na_values] arrive as [NaN]. *)
Definition read_cell (v : pyval) : pyval :=
  match v with
  | VNone => VFloat NaN
  | VStr s => if existsb (String.eqb s) na_values then VFloat NaN else v
  | _ => v
  end.

(** [pd.read_excel(uploaded_file)], for the rows of the sheet as the file
    holds them.  A cell is a number or a text as the file has it: the
    conversion of a column that holds numeric texts only is not
    modelled. *)
Definition read_excel (sheet : list sheet_row) : list sheet_row :=
  map (map (fun cv => (fst cv, read_cell (snd cv)))) sheet.

(** [row[col]] for a column name taken from the AI mapping; [None] stands
    for [KeyError].  The mapping names columns by their label; a value that
    is not a text names no column. *)
Definition row_at (row : sheet_row) (col : pyval) : option pyval :=
  match col with
  | VStr label => assoc label row
  | _ => None
  end.

(** [row.get(label)] *)
Definition row_get (row : sheet_row) (label : string) : pyval :=
  dict_get row label VNone.

(** The price of the AI-mapped path: for a text,
    [float(price_val.replace('€', '').replace('.', '').replace(',', '.').strip())],
    else [float(price_val)]. *)
Definition ai_price (price_val : pyval) : option pyfloat :=
  match price_val with
  | VStr s => of_string (strip (replace "," "." (replace "." "" (replace "€" "" s))))
  | _ => py_float price_val
  end.

Section WithStr.
(** [str(v)] for a value that is not a text: the rendering of numbers and
    of [None] is library code. *)
Variable repr : pyval -> string.

Definition py_str (v : pyval) : string :=
  match v with
  | VStr s => s
  | _ => repr v
  end.

(** The body of the loop of the AI-mapped path; [None] stands for an
    exception, which [except: pass] turns into a skipped row. *)
Definition ai_row (col_desc col_price col_unit : pyval) (row : sheet_row)
    : option mapped_row :=
  match row_at row col_price with
  | None => None
  | Some price_val =>
      match ai_price price_val with
      | None => None
      | Some price =>
          match row_at row col_desc with
          | None => None
          | Some d =>
              if truthy col_unit then
                match row_at row col_unit with
                | None => None
                | Some u =>
                    Some (mk_mapped (py_str d)
                            (if notna u then py_str u else "")
                            price price "AI Excel Import")
                end
              else Some (mk_mapped (py_str d) "" price price "AI Excel Import")
          end
      end
  end.

Fixpoint keep_some {X : Type} (l : list (option X)) : list X :=
  match l with
  | [] => []
  | Some x :: l' => x :: keep_some l'
  | None :: l' => keep_some l'
  end.

(** The rows the AI-mapped path appends, for the mapping the AI returned
    ([None]: no mapping). *)
Definition ai_rows (mapping : option (list (string * pyval)))
    (df_import : list sheet_row) : list mapped_row :=
  match mapping with
  | Some ((_ :: _) as m) =>
      let col_desc := dict_get m "description" VNone in
      let col_price := dict_get m "price" VNone in
      let col_unit := dict_get m "unit" VNone in
      if truthy col_desc && truthy col_price
      then keep_some (map (ai_row col_desc col_price col_unit) df_import)
      else []
  | _ => []
  end.

(** [df_import.columns = [str(c).lower().strip() for c in df_import.columns]] *)
Definition normalize_columns (row : sheet_row) : sheet_row :=
  map (fun cv => (strip (lower (fst cv)), snd cv)) row.

(** [float(str(price).replace(',', '.').replace('€', '').strip())], and
    [0.0] when that raises. *)
Definition fallback_price (price : pyval) : pyfloat :=
  match of_string (strip (replace "€" "" (replace "," "." (py_str price)))) with
  | Some f => f
  | None => zero
  end.

(** The body of the loop of the header-alias path, on a row whose labels
    are normalised. *)
Definition fallback_row (row : sheet_row) : option mapped_row :=
  let desc := py_or (row_get row "beschreibung") (py_or (row_get row "description")
                (py_or (row_get row "text") (row_get row "artikel"))) in
  let price := py_or (row_get row "preis") (py_or (row_get row "price")
                 (py_or (row_get row "betrag") (row_get row "ep"))) in
  let unit := py_or (row_get row "einheit") (py_or (row_get row "unit")
                (py_or (row_get row "mengeneinheit") (row_get row "me"))) in
  if truthy desc && notna price then
    let price_val := fallback_price price in
    Some (mk_mapped (py_str desc) (if truthy unit then py_str unit else "")
                    price_val price_val "Import")
  else None.

Definition fallback_rows (df_import : list sheet_row) : list mapped_row :=
  keep_some (map (fun row => fallback_row (normalize_columns row)) df_import).

(** [mapped_data] at the end of the Excel branch. *)
Definition excel_import (use_ai_import ai_enabled : bool)
    (mapping : option (list (string * pyval)))
    (df_import : list sheet_row) : list mapped_row :=
  let mapped_data :=
    if use_ai_import && ai_enabled then ai_rows mapping df_import else [] in
  match mapped_data with
  | [] => fallback_rows df_import
  | _ :: _ => mapped_data
  end.

End WithStr.

(** A rendering for sheets that hold texts only. *)
Definition no_repr (_ : pyval) : string := "".

(** The headers the header-alias path looks the price up under, in the
    order of its [or] chain. *)
Definition price_aliases : list string := [ "preis"; "price"; "betrag"; "ep" ].



Definition file_alias : list sheet_row :=
  [ [ ("Beschreibung", VStr "Estrich"); ("Preis", VStr "auf Anfrage");
      ("Einheit", VStr "m2") ];
    [ ("Beschreibung", VStr "Kies"); ("Preis", VStr "12,50 €");
      ("Einheit", VStr "t") ];
    [ ("Beschreibung", VStr "Sand"); ("Preis", VStr "N/A");
      ("Einheit", VStr "t") ] ].

Definition sheet_alias : list sheet_row := read_excel file_alias.

End ExcelImport.

(* ------------------------------------------------------------------ *)
(** ** The PDF price-list import of [tab_datenbank_verwalten] *)

Module PdfImport.
Import PyStr PyFloat Py PyRe PyReX.

(** A dictionary appended to [mapped_data]: on the AI path description and
    unit are the values of the reply, on the regex path they are texts. *)
Record pdf_row : Type := mk_pdf_row {
  description : pyval;
  unit : pyval;
  price_min : pyfloat;
  price_max : pyfloat;
  category : string
}.

(** [extract_pricelist_from_text_ai(page_text)], for the reply of the
    service to the page: a list as it is; of a dictionary the list under
    'items', or else its first value that is a list; nothing otherwise, and
    nothing when the AI is disabled or the request fails. *)
Definition extract_pricelist_from_text_ai (ai_enabled : bool)
    (reply : AI.ai_reply) : list pyval :=
  if negb ai_enabled then []
  else
    match reply with
    | AI.Content (Some (VList l)) => l
    | AI.Content (Some (VDict d)) =>
        match assoc "items" d with
        | Some (VList l) => l
        | _ =>
            match filter is_list (map snd d) with
            | VList l :: _ => l
            | _ => []
            end
        end
    | _ => []
    end.

(** The body of [for item in items]; [None] stands for an exception, which
    [except: pass] turns into a skipped item. *)
Definition ai_item_row (item : pyval) : option pdf_row :=
  match item with
  | VDict d =>
      match py_float (dict_get d "price" (VInt 0)) with
      | Some p =>
          Some (mk_pdf_row (dict_get d "description" (VStr ""))
                           (dict_get d "unit" (VStr "")) p p "AI PDF Import")
      | None => None
      end
  | _ => None
  end.

(** The rows a page adds on the AI path: [if len(page_text) > 50]. *)
Definition ai_page_rows (ai_enabled : bool) (client : AI.ai_client)
    (ip : nat * string) : list pdf_row :=
  if (50 <? len (snd ip))%nat
  then ExcelImport.keep_some
         (map ai_item_row
            (extract_pricelist_from_text_ai ai_enabled (client (fst ip) (snd ip))))
  else [].

(** [[a-zA-Z€/]] *)
Definition unit_start : regex :=
  alts [ Cls (fun a => is_alpha a || Ascii.eqb a "/"); Lit "€" ].

(** The pattern of a price line: a caret, the lazy group 1 [.*?], [\s+],
    group 2 [\d+[\.,]\d{2}], [\s*], the optional group 3 [[a-zA-Z€/].*]
    and a dollar sign. *)
Definition price_line_pattern : xregex :=
  xseq [ Base Bol;
         XGrp 1 (LazyStar any);
         Base (plus space);
         XGrp 2 (Base (seq [ plus digit;
                             Cls (fun a => Ascii.eqb a "." || Ascii.eqb a ",");
                             digit; digit ]));
         Base (star space);
         XOpt (XGrp 3 (Base (Cat unit_start (star any))));
         Eol ].

(** [match.group(2).replace('.', '').replace(',', '.')] *)
Definition price_text (g : string) : string :=
  replace "," "." (replace "." "" g).

(** The body of [for line in lines] of the regex fallback. *)
Definition regex_line_row (raw : string) : option pdf_row :=
  let line := strip raw in
  if is_empty line || (len line <? 5)%nat then None
  else
    match xre_search price_line_pattern line with
    | Some m =>
        let desc := strip (group_str m 1) in
        let price_str := price_text (group_str m 2) in
        let unit_raw := group_str m 3 in
        let unit := strip (replace "/" "" (replace "€" "" unit_raw)) in
        match of_string price_str with
        | Some price_val =>
            if (3 <? len desc)%nat &&
               ltb (Fin (1 # 10)) price_val && ltb price_val (of_Z 100000)
            then Some (mk_pdf_row (VStr desc) (VStr unit) price_val price_val
                                  "PDF Standard Import")
            else None
        | None => None
        end
    | None => None
    end.

Definition is_nil {X : Type} (l : list X) : bool :=
  match l with [] => true | _ => false end.

(** [mapped_data] at the end of the PDF branch, for the texts of the
    pages. *)
Definition pdf_import (use_ai_import ai_enabled : bool)
    (client : AI.ai_client) (pages_text : list string) : list pdf_row :=
  let full_text := join newline pages_text in
  let mapped_ai :=
    if use_ai_import && ai_enabled
    then flat_map (ai_page_rows ai_enabled client) (AI.enumerate pages_text)
    else [] in
  let ai_failed := use_ai_import && ai_enabled && is_nil mapped_ai in
  if is_nil mapped_ai || ai_failed || negb use_ai_import
  then (mapped_ai ++ ExcelImport.keep_some
                       (map regex_line_row (split_on LF full_text)))%list
  else mapped_ai.

End PdfImport.

(* ------------------------------------------------------------------ *)
(** ** The price lines of [ingest_prices.py] *)

Module Ingest.
Import PyStr PyFloat PyRe PyReX.

(** The dictionary [parse_price_line] returns. *)
Record price_entry : Type := mk_entry {
  description : string;
  price_min : pyfloat;
  price_max : pyfloat;
  unit : string;
  raw_text : string
}.

(** [\d+(?:,\d+)?] *)
Definition amount : regex :=
  Cat (plus digit) (Opt (Cat (Lit ",") (plus digit))).

(** [pattern]: a caret, the lazy group 1 [.*?], a colon or [\s+], group 2
    (an amount), optionally [\s*-\s*] and group 3 (an amount), then
    [\s*€\s*/\s*] and group 4 [[a-zA-Z²³]+]. *)
Definition pattern : xregex :=
  xseq [ Base Bol;
         XGrp 1 (LazyStar any);
         Base (seq [ Alt (Lit ":") (plus space);
                     Grp 2 amount;
                     Opt (seq [ star space; Lit "-"; star space; Grp 3 amount ]);
                     star space; Lit "€"; star space; Lit "/"; star space;
                     Grp 4 (plus Regex.unit_char) ]) ].

(** What a call gives: what it returns, or the [ValueError] of a [float]
    that cannot read its text. *)
Inductive outcome (X : Type) : Type :=
| Returns (x : X)
| Raises.
Arguments Returns {X} x.
Arguments Raises {X}.

(** [float(g.replace(',', '.'))] *)
Definition parse_amount (g : string) : option pyfloat :=
  of_string (replace "," "." g).

(** [parse_price_line(text)] *)
Definition parse_price_line (text : string) : outcome (option price_entry) :=
  match xre_search pattern text with
  | Some m =>
      let desc := strip (group_str m 1) in
      match parse_amount (group_str m 2) with
      | Some p1 =>
          let p2 :=
            match group m 3 with
            | Some g => if is_empty g then Some p1 else parse_amount g
            | None => Some p1
            end in
          match p2 with
          | Some p2 =>
              Returns (Some (mk_entry desc p1 p2 (strip (group_str m 4)) text))
          | None => Raises
          end
      | None => Raises
      end
  | None => Returns None
  end.

(** A row inserted into the table [prices]. *)
Record price_row : Type := mk_row {
  source_file : string;
  category : string;
  entry : price_entry
}.

(** The loop of [extract_from_docx] over the texts of the paragraphs, for
    the base name of the file: the rows inserted, or [Raises] when a
    paragraph raises, which leaves the loop before [conn.commit()]. *)
Fixpoint insert_rows (basename : string) (paragraphs : list string)
    : outcome (list price_row) :=
  match paragraphs with
  | [] => Returns []
  | para :: rest =>
      let text := strip para in
      if is_empty text then insert_rows basename rest
      else
        match parse_price_line text with
        | Raises => Raises
        | Returns None => insert_rows basename rest
        | Returns (Some parsed) =>
            match insert_rows basename rest with
            | Returns rows => Returns (mk_row basename "General" parsed :: rows)
            | Raises => Raises
            end
        end
  end.

(** The rows [extract_from_docx] commits: those inserted when the loop
    ends, none when it is left by an exception. *)
Definition extract_from_docx (basename : string) (paragraphs : list string)
    : list price_row :=
  match insert_rows basename paragraphs with
  | Returns rows => rows
  | Raises => []
  end.

(** The amounts and the numbers they stand for: digits are a whole number,
    digits, a comma and digits a decimal fraction.  Used in statements
    only. *)
Inductive reads_as : string -> pyfloat -> Prop :=
| reads_whole (d : string) :
    forallb is_digit d = true -> is_empty d = false ->
    reads_as d (of_Z (digits_val 0 d))
| reads_fraction (ip fp : string) :
    forallb is_digit ip = true -> is_empty ip = false ->
    forallb is_digit fp = true -> is_empty fp = false ->
    reads_as (ip ++ "," ++ fp)
             (Fin (Qred (digits_val 0 (ip ++ fp) #
                         Z.to_pos (10 ^ Z.of_nat (String.length fp))))).

End Ingest.

(* ================================================================== *)
(** * Properties *)

Import PyStr PyFloat Py PyRe.

(* ------------------------------------------------------------------ *)
(** ** The catalog matcher *)

Section MatcherFacts.
Import Matcher.
Variable scorer : string -> string -> Z.

(** What [extract_from] returns is the best it was given or a choice with
    its score; it is not below the cut-off 0, and no choice scores
    higher. *)
Lemma extract_from_best (query : string) (choices : list (option string)) :
  forall best t s,
    (forall bt bs, best = Some (bt, bs) -> 0 <= bs) ->
    extract_from scorer query choices best = Some (t, s) ->
    0 <= s /\
    (best = Some (t, s) \/ (In (Some t) choices /\ s = scorer query t)) /\
    (forall c, In (Some c) choices -> scorer query c <= s) /\
    (forall bt bs, best = Some (bt, bs) -> bs <= s).
Proof.
  induction choices as [|[c|] rest IH]; simpl; intros best t s Hb0 H.
  - subst best. repeat split.
    + eapply Hb0; reflexivity.
    + now left.
    + intros c [].
    + intros bt bs E; inversion E; lia.
  - destruct best as [[bt bs]|].
    + pose proof (Hb0 _ _ eq_refl) as Hbs.
      destruct (Z.ltb_spec bs (scorer query c)) as [Hlt|Hge];
        apply IH in H;
        try (intros ? ? E; inversion E; subst; lia);
        destruct H as (Hs & Hsel & Hmax & Hb);
        pose proof (Hb _ _ eq_refl) as Hb'.
      * repeat split; [exact Hs| |intros c' [E|Hin]|intros ? ? E].
        -- right. destruct Hsel as [E|[Hin E]];
             [inversion E; subst; split; [now left|reflexivity]
             |split; [now right|exact E]].
        -- inversion E; subst; exact Hb'.
        -- now apply Hmax.
        -- inversion E; subst; lia.
      * repeat split; [exact Hs| |intros c' [E|Hin]|exact Hb].
        -- destruct Hsel as [E|[Hin E]];
             [now left|right; split; [now right|exact E]].
        -- inversion E; subst; lia.
        -- now apply Hmax.
    + destruct (Z.leb_spec 0 (scorer query c)) as [Hle|Hneg];
        apply IH in H;
        try (intros ? ? E; inversion E; subst; lia);
        destruct H as (Hs & Hsel & Hmax & Hb).
      * pose proof (Hb _ _ eq_refl) as Hb'.
        repeat split; [exact Hs| |intros c' [E|Hin]|intros ? ? E; discriminate E].
        -- right. destruct Hsel as [E|[Hin E]];
             [inversion E; subst; split; [now left|reflexivity]
             |split; [now right|exact E]].
        -- inversion E; subst; exact Hb'.
        -- now apply Hmax.
      * repeat split; [exact Hs| |intros c' [E|Hin]|intros ? ? E; discriminate E].
        -- right. destruct Hsel as [E|[Hin E]];
             [discriminate E|split; [now right|exact E]].
        -- inversion E; subst; lia.
        -- now apply Hmax.
  - destruct (IH _ _ _ Hb0 H) as (Hs & Hsel & Hmax & Hb).
    repeat split; auto.
    + destruct Hsel as [E|[Hin E]]; [now left|right; split; [now right|exact E]].
    + intros c [E|Hin]; [discriminate E|now apply Hmax].
Qed.

(** [extractOne] returns a choice, with its score, that no other choice
    beats. *)
Lemma extractOne_best (query : string) (choices : list (option string)) t s :
  extractOne scorer query choices = Some (t, s) ->
  In (Some t) choices /\ s = scorer query t /\ 0 <= s /\
  (forall c, In (Some c) choices -> scorer query c <= s).
Proof.
  intros H. apply extract_from_best in H; [|discriminate].
  destruct H as (Hs & [E|[Hin E]] & Hmax & _); [discriminate E|auto].
Qed.

Lemma first_row_found (t : string) (db : price_db) :
  In (Some t) (map row_description db) ->
  exists row, first_row t db = Some row.
Proof.
  unfold first_row. induction db as [|r db IH]; simpl; [intros []|].
  intros [E|Hin].
  - rewrite E, String.eqb_refl. eauto.
  - destruct (row_description r) as [d|]; [destruct (String.eqb d t)|]; eauto.
Qed.

(** The row [first_row] selects: the first one, in catalog order, with
    the description looked for. *)
Lemma first_row_first (t : string) (db : price_db) row :
  first_row t db = Some row ->
  row_description row = Some t /\
  exists pre post,
    db = (pre ++ row :: post)%list /\
    Forall (fun r => row_description r <> Some t) pre.
Proof.
  unfold first_row. induction db as [|r db IH]; simpl; [discriminate|].
  destruct (row_description r) as [d|] eqn:Ed.
  - destruct (String.eqb_spec d t) as [E|N].
    + intros H; inversion H; subst. split; [exact Ed|].
      exists [], db. split; [reflexivity|constructor].
    + intros H. destruct (IH H) as (Hd & pre & post & E & Hpre).
      split; [exact Hd|]. exists (r :: pre), post. split; [simpl; now rewrite E|].
      constructor; [rewrite Ed; congruence|exact Hpre].
  - intros H. destruct (IH H) as (Hd & pre & post & E & Hpre).
    split; [exact Hd|]. exists (r :: pre), post. split; [simpl; now rewrite E|].
    constructor; [rewrite Ed; discriminate|exact Hpre].
Qed.

End MatcherFacts.

Section MatcherClaims.
Import Matcher.
Variable scorer : string -> string -> Z.

(** The two ways [find_best_match] ends: with the no-match dictionary, for
    a best score below 50 or no candidate at all, or with the fields of
    the first row that carries the best-scoring description. *)
Lemma find_best_match_cases (desc : string) (db : price_db) :
  let m := find_best_match scorer desc db in
  (m = no_match (score m) /\ score m < 50) \/
  (exists t row,
      extractOne scorer desc (map row_description db) = Some (t, score m) /\
      50 <= score m /\
      first_row t db = Some row /\
      m = mk_match (safe_price (row_price_min row)) t (row_unit row)
                   (score m) (safe_id (row_id row))).
Proof.
  unfold find_best_match. destruct db as [|r0 db0]; [left; simpl; split; [reflexivity|lia]|].
  set (db := r0 :: db0).
  destruct (extractOne scorer desc (map row_description db)) as [[t s]|] eqn:E.
  - destruct (Z.ltb_spec s 50) as [Hlt|Hge].
    + left. simpl. split; [reflexivity|exact Hlt].
    + destruct (extractOne_best scorer _ _ _ _ E) as (Hin & _).
      destruct (first_row_found t db Hin) as [row Hrow].
      rewrite Hrow. right. exists t, row. simpl. auto.
  - left. simpl. split; [reflexivity|lia].
Qed.

(** [find_best_match] on a catalog that has rows. *)
Lemma find_best_match_rows (desc : string) (db : price_db) :
  db <> [] ->
  find_best_match scorer desc db =
    match extractOne scorer desc (map row_description db) with
    | Some (match_text, score) =>
        if score <? 50 then no_match score
        else match first_row match_text db with
             | Some row =>
                 mk_match (safe_price (row_price_min row)) match_text
                          (row_unit row) score (safe_id (row_id row))
             | None => no_match 0
             end
    | None => no_match 0
    end.
Proof. destruct db; [intros N; now elim N|reflexivity]. Qed.

(** C9: matching against an empty catalog returns the no-match
    dictionary, with price 0.0, identifier -1 and score 0, and its status
    is the tier NONE; no case of the function raises. *)
Theorem C9_empty_catalog (desc : string) :
  let m := find_best_match scorer desc [] in
  price m = zero /\ price_id m = -1 /\ score m = 0 /\
  description m = KEIN_TREFFER /\
  confidence_tier scorer desc [] = NONE.
Proof. simpl. repeat split. Qed.

(** C1, as amended: the tier is NONE when the best score is below 50 or
    when the price taken from the matched row is not positive; otherwise it
    is LOW for a score from 50 to 90 and HIGH for a score above 90.  The
    best score [s] is the highest score of a description of the catalog,
    the matched row the first row that carries the best-scoring
    description, and the price its coerced [price_min]; when the catalog
    offers no candidate the tier is NONE. *)
Theorem C1_tier_from_score_and_price (desc : string) (db : price_db) :
  match extractOne scorer desc (map row_description db) with
  | Some (t, s) =>
      In (Some t) (map row_description db) /\
      s = scorer desc t /\
      (forall c, In (Some c) (map row_description db) -> scorer desc c <= s) /\
      score (find_best_match scorer desc db) = s /\
      exists row,
        first_row t db = Some row /\
        confidence_tier scorer desc db =
          if (s <? 50) || negb (gt0 (safe_price (row_price_min row)))
          then NONE
          else if s <=? 90 then LOW else HIGH
  | None => confidence_tier scorer desc db = NONE
  end.
Proof.
  destruct (extractOne scorer desc (map row_description db)) as [[t s]|] eqn:E.
  - destruct (extractOne_best scorer _ _ _ _ E) as (Hin & Hs & _ & Hmax).
    destruct (first_row_found t db Hin) as [row Hrow].
    assert (Hne : db <> []) by (destruct db; [destruct Hin|discriminate]).
    split; [exact Hin|]. split; [exact Hs|]. split; [exact Hmax|].
    unfold confidence_tier. rewrite (find_best_match_rows desc db Hne), E, Hrow.
    destruct (Z.ltb_spec s 50) as [Hlt|Hge].
    + split; [reflexivity|]. exists row. split; reflexivity.
    + split; [reflexivity|]. exists row. split; [reflexivity|].
      unfold status_icon. cbn [price score orb].
      destruct (gt0 (safe_price (row_price_min row))); [|reflexivity].
      cbn [negb]. destruct (Z.ltb_spec 90 s), (Z.leb_spec s 90);
        try reflexivity; lia.
  - unfold confidence_tier, find_best_match.
    destruct db as [|r0 db0]; [reflexivity|]. now rewrite E.
Qed.

(** C2, as amended: either the result is the no-match dictionary, whose
    price is 0.0 and whose identifier is -1, or the score is at least 50
    and price and identifier are the coerced [price_min] and [id] of a
    catalog row with the returned description, each coerced on its own.
    A positive price is therefore always that of a catalog row. *)
Theorem C2_price_and_id_of_row (desc : string) (db : price_db) :
  let m := find_best_match scorer desc db in
  (m = no_match (score m) \/
   exists row,
     In row db /\ row_description row = Some (description m) /\
     50 <= score m /\
     price m = safe_price (row_price_min row) /\
     price_id m = safe_id (row_id row)) /\
  (gt0 (price m) = false \/ m <> no_match (score m)).
Proof.
  intros m.
  destruct (find_best_match_cases desc db) as [[E Hlt]|(t & row & _ & Hge & Hrow & E)];
    fold m in E, Hlt || fold m in E, Hge.
  - split; [now left|]. left. now rewrite E.
  - destruct (first_row_first _ _ _ Hrow) as (Hd & pre & post & Hdb & _).
    split.
    + right. exists row. rewrite E; simpl.
      repeat split; auto. rewrite Hdb. apply in_elt.
    + destruct (gt0 (price m)) eqn:G; [right|now left].
      intros N. rewrite N in G. discriminate G.
Qed.

Lemma find_best_match_ignores_price_max (desc : string) (db : price_db) :
  find_best_match scorer desc (map without_price_max db) =
  find_best_match scorer desc db.
Proof.
  destruct db as [|r0 db0]; [reflexivity|].
  set (db := r0 :: db0).
  rewrite !find_best_match_rows by discriminate.
  assert (Hrow : forall t, first_row t (map without_price_max db) =
                           option_map without_price_max (first_row t db)).
  { intros t. unfold first_row. generalize db. clear.
    induction db as [|r db IH]; simpl; [reflexivity|].
    destruct (row_description r) as [d|]; [destruct (String.eqb d t)|]; auto. }
  rewrite map_map. simpl row_description.
  destruct (extractOne scorer desc (map _ db)) as [[t s]|]; [|reflexivity].
  destruct (s <? 50); [reflexivity|].
  rewrite Hrow. destruct (first_row t db); reflexivity.
Qed.

(** C10: when the best score is at least 50, price and identifier come
    from the first catalog row, in catalog order, whose description is the
    best-scoring one; the price is that row's [price_min] (coerced: the
    value itself when it is a float), and the column [price_max] has no
    influence on the result. *)
Theorem C10_first_row_price_min (desc : string) (db : price_db)
    (t : string) (s : Z) :
  extractOne scorer desc (map row_description db) = Some (t, s) ->
  50 <= s ->
  (forall c, In (Some c) (map row_description db) -> scorer desc c <= s) /\
  (exists row pre post,
      db = (pre ++ row :: post)%list /\
      Forall (fun r => row_description r <> Some t) pre /\
      row_description row = Some t /\
      find_best_match scorer desc db =
        mk_match (safe_price (row_price_min row)) t (row_unit row) s
                 (safe_id (row_id row)) /\
      (forall f, row_price_min row = Some (VFloat f) -> f <> NaN ->
                 price (find_best_match scorer desc db) = f)) /\
  (forall db',
      map without_price_max db' = map without_price_max db ->
      find_best_match scorer desc db' = find_best_match scorer desc db).
Proof.
  intros E Hge.
  destruct (extractOne_best scorer _ _ _ _ E) as (Hin & _ & _ & Hmax).
  split; [exact Hmax|]. split.
  - destruct (first_row_found t db Hin) as [row Hrow].
    destruct (first_row_first _ _ _ Hrow) as (Hd & pre & post & Hdb & Hpre).
    assert (Hres : find_best_match scorer desc db =
                   mk_match (safe_price (row_price_min row)) t (row_unit row) s
                            (safe_id (row_id row))).
    { unfold find_best_match. destruct db as [|r0 db0]; [destruct pre; discriminate Hdb|].
      rewrite E. destruct (Z.ltb_spec s 50); [lia|]. now rewrite Hrow. }
    exists row, pre, post. repeat split; auto.
    intros f Hf Hnan. rewrite Hres. simpl. rewrite Hf. simpl.
    destruct f; try reflexivity. now elim Hnan.
  - intros db' Hdb'.
    rewrite <- (find_best_match_ignores_price_max desc db'),
            <- (find_best_match_ignores_price_max desc db).
    now rewrite Hdb'.
Qed.

End MatcherClaims.

(** C1 fails as stated: a catalog row priced 0.0 that matches with score
    100 has the tier NONE, where the score alone would give HIGH. *)
Lemma C1_counterexample :
  Matcher.score
    (Matcher.find_best_match Matcher.exact_scorer "Beton"
       Matcher.catalog_zero_price) = 100 /\
  Matcher.confidence_tier Matcher.exact_scorer "Beton"
    Matcher.catalog_zero_price = Matcher.NONE /\
  Matcher.spec_tier 100 = Matcher.HIGH.
Proof. vm_compute. repeat split. Qed.

(** C2 fails as stated, in both directions: a matched row priced 0.0 keeps
    its identifier 1, and a positive price comes with the identifier -1
    for a row whose cell [id] is empty. *)
Lemma C2_counterexample :
  (let m := Matcher.find_best_match Matcher.exact_scorer "Beton"
              Matcher.catalog_zero_price in
   gt0 (Matcher.price m) = false /\ Matcher.price_id m = 1) /\
  (let m := Matcher.find_best_match Matcher.exact_scorer "Beton"
              Matcher.catalog_without_id in
   gt0 (Matcher.price m) = true /\ Matcher.price_id m = -1).
Proof. vm_compute. repeat split. Qed.

(** C10 at a catalog with two rows "Beton": the first one gives price and
    identifier. *)
Lemma C10_witness :
  Matcher.find_best_match Matcher.exact_scorer "Beton"
    Matcher.catalog_two_prices =
    Matcher.mk_match (of_Z 145) "Beton" (VStr "m3") 100 2 /\
  exists row pre post,
    Matcher.catalog_two_prices = (pre ++ row :: post)%list /\
    Forall (fun r => Matcher.row_description r <> Some "Beton") pre /\
    Matcher.row_description row = Some "Beton" /\
    Matcher.find_best_match Matcher.exact_scorer "Beton"
      Matcher.catalog_two_prices =
      Matcher.mk_match (Matcher.safe_price (Matcher.row_price_min row))
        "Beton" (Matcher.row_unit row) 100
        (Matcher.safe_id (Matcher.row_id row)).
Proof.
  split; [reflexivity|].
  assert (E : Matcher.extractOne Matcher.exact_scorer "Beton"
                (map Matcher.row_description Matcher.catalog_two_prices) =
              Some ("Beton", 100)) by reflexivity.
  assert (H : 50 <= 100) by lia.
  destruct (C10_first_row_price_min Matcher.exact_scorer "Beton"
              Matcher.catalog_two_prices "Beton" 100 E H)
    as (_ & (row & pre & post & Hdb & Hpre & Hd & Hres & _) & _).
  exists row, pre, post. auto.
Defined.

(* ------------------------------------------------------------------ *)
(** ** The matcher finds declarative matches only *)

Section StringFacts.

Lemma string_app_nil_r (s : string) : s ++ "" = s.
Proof. induction s; simpl; congruence. Qed.

Lemma string_app_assoc (s1 s2 s3 : string) : (s1 ++ s2) ++ s3 = s1 ++ (s2 ++ s3).
Proof. induction s1; simpl; congruence. Qed.

Lemma length_string_app (s1 s2 : string) :
  String.length (s1 ++ s2) = (String.length s1 + String.length s2)%nat.
Proof. induction s1; simpl; congruence. Qed.

Lemma take_string_app (w s : string) : take (String.length w) (w ++ s) = w.
Proof. induction w; simpl; [destruct s; reflexivity|congruence]. Qed.

Lemma strip_prefix_split (p s s' : string) :
  strip_prefix p s = Some s' -> s = p ++ s'.
Proof.
  revert s; induction p as [|a p IH]; simpl; intros s H.
  - congruence.
  - destruct s as [|b s]; [discriminate|].
    destruct (Ascii.eqb_spec a b); [|discriminate].
    subst. f_equal. auto.
Qed.

Lemma forallb_string_app (p : ascii -> bool) (s1 s2 : string) :
  forallb p (s1 ++ s2) = forallb p s1 && forallb p s2.
Proof. induction s1; simpl; [reflexivity|]. now rewrite IHs1, andb_assoc. Qed.

End StringFacts.

Section RunSound.
Variable A : Type.

Lemma iter_sound (r : regex) (min : nat) body (k : cont A) :
  sound_at A r body ->
  forall fuel cnt pos s c x,
    iter A body min k fuel cnt pos s c = Some x ->
    exists w s' c',
      s = w ++ s' /\ sem (Rep min r) pos w c c' /\
      k (pos + String.length w)%nat s' c' = Some x.
Proof.
  intros Hbody.
  assert (Hstop : forall cnt pos s c x,
             (if (min <=? cnt)%nat then k pos s c else None) = Some x ->
             exists w s' c',
               s = w ++ s' /\ sem (Rep min r) pos w c c' /\
               k (pos + String.length w)%nat s' c' = Some x).
  { intros cnt pos s c x H. destruct (min <=? cnt)%nat; [|discriminate].
    exists "", s, c. simpl. rewrite Nat.add_0_r. repeat split; auto.
    constructor. }
  induction fuel as [|fuel IH]; simpl; intros cnt pos s c x H.
  - eapply Hstop; eauto.
  - match type of H with
    | match ?b with _ => _ end = _ => destruct b as [y|] eqn:E
    end.
    + inversion H; subst y. clear H.
      apply Hbody in E. destruct E as (w1 & s1 & c1 & Hs & Hsem & Hk).
      destruct (pos <? pos + String.length w1)%nat; [|discriminate].
      apply IH in Hk. destruct Hk as (w2 & s2 & c2 & Hs2 & Hsem2 & Hk2).
      exists (w1 ++ w2), s2, c2. repeat split.
      * rewrite string_app_assoc. congruence.
      * econstructor; eauto.
      * rewrite length_string_app, Nat.add_assoc. exact Hk2.
    + eapply Hstop; eauto.
Qed.

Lemma run_sound (r : regex) : sound_at A r (run A r).
Proof.
  induction r as [| |p|l|r1 IH1 r2 IH2|r1 IH1 r2 IH2|min r1 IH1|r1 IH1|n r1 IH1];
    intros pos s c k x H; simpl in H.
  - exists "", s, c. simpl. rewrite Nat.add_0_r. repeat split; auto. constructor.
  - destruct (Nat.eqb_spec pos 0); [|discriminate]. subst.
    exists "", s, c. simpl. repeat split; auto. constructor.
  - destruct s as [|a s]; [discriminate|].
    destruct (p a) eqn:Ep; [|discriminate].
    exists (String a ""), s, c. simpl. rewrite Nat.add_1_r.
    repeat split; auto. now constructor.
  - destruct (strip_prefix l s) as [s'|] eqn:E; [|discriminate].
    exists l, s', c.
    split; [now apply strip_prefix_split|]. split; [constructor|exact H].
  - apply IH1 in H. destruct H as (w1 & s1 & c1 & Hs & Hsem & Hk).
    apply IH2 in Hk. destruct Hk as (w2 & s2 & c2 & Hs2 & Hsem2 & Hk2).
    exists (w1 ++ w2), s2, c2. repeat split.
    + rewrite string_app_assoc. congruence.
    + econstructor; eauto.
    + rewrite length_string_app, Nat.add_assoc. exact Hk2.
  - destruct (run A r1 pos s c k) as [y|] eqn:E.
    + inversion H; subst y. apply IH1 in E.
      destruct E as (w & s' & c' & Hs & Hsem & Hk).
      exists w, s', c'. repeat split; auto. now apply sem_alt_l.
    + apply IH2 in H. destruct H as (w & s' & c' & Hs & Hsem & Hk).
      exists w, s', c'. repeat split; auto. now apply sem_alt_r.
  - eapply iter_sound; eauto.
  - destruct (run A r1 pos s c k) as [y|] eqn:E.
    + inversion H; subst y. apply IH1 in E.
      destruct E as (w & s' & c' & Hs & Hsem & Hk).
      exists w, s', c'. repeat split; auto. now apply sem_opt_some.
    + exists "", s, c. simpl. rewrite Nat.add_0_r. repeat split; auto.
      apply sem_opt_none.
  - apply IH1 in H. destruct H as (w & s' & c' & Hs & Hsem & Hk).
    exists w, s', ((n, w) :: c'). repeat split; auto.
    + now constructor.
    + rewrite Hs in Hk.
      replace (pos + String.length w - pos)%nat with (String.length w) in Hk by lia.
      now rewrite take_string_app in Hk.
Qed.

End RunSound.

Section SemFacts.

Lemma sem_groups_free r pos w c c' :
  sem r pos w c c' -> groups_free r = true -> c' = c.
Proof.
  induction 1; simpl; intros G; try reflexivity;
    try (apply andb_prop in G; destruct G as [G1 G2]); auto.
  - rewrite IHsem2, IHsem1; auto.
  - discriminate G.
  - rewrite IHsem2, IHsem1; auto.
Qed.

Lemma sem_rep_cls min p pos w c c' :
  sem (Rep min (Cls p)) pos w c c' -> forallb p w = true.
Proof.
  remember (Rep min (Cls p)) as r eqn:Er. intros H. revert Er.
  induction H; intros Er; try discriminate Er.
  - reflexivity.
  - inversion Er; subst. rewrite forallb_string_app, IHsem2 by reflexivity.
    inversion H as [| |p' pos' a c0 Hp| | | | | | | | |]; subst.
    simpl. now rewrite Hp.
Qed.

(** A pattern that starts with a caret matches at the start or nowhere,
    so that [re.search] behaves as [re.match]. *)
Lemma search_from_bol r s pos :
  search_from (Cat Bol r) (S pos) s = None.
Proof.
  revert pos; induction s as [|a s IH]; intros pos; simpl; auto.
Qed.

Lemma re_search_bol r s : re_search (Cat Bol r) s = re_match (Cat Bol r) s.
Proof.
  unfold re_search, re_match.
  destruct s as [|a s]; unfold search_from; fold search_from.
  - destruct (run match_obj (Cat Bol r) 0 "" [] accept); reflexivity.
  - rewrite search_from_bol.
    destruct (run match_obj (Cat Bol r) 0 (String a s) [] accept); reflexivity.
Qed.

End SemFacts.

(* ------------------------------------------------------------------ *)
(** ** Numerals made of digits and points *)

Section FloatFacts.
Import Regex.

Lemma forallb_impl (p q : ascii -> bool) s :
  (forall a, p a = true -> q a = true) ->
  forallb p s = true -> forallb q s = true.
Proof.
  intros Hpq. induction s as [|a s IH]; simpl; [reflexivity|].
  intros H. apply andb_prop in H. destruct H as [Ha Hs].
  now rewrite (Hpq _ Ha), IH.
Qed.

Lemma forallb_rev_onto p s acc :
  forallb p (rev_onto s acc) = forallb p s && forallb p acc.
Proof.
  revert acc; induction s as [|a s IH]; intros acc; simpl; [reflexivity|].
  rewrite IH. simpl. destruct (p a), (forallb p s); reflexivity.
Qed.

Lemma forallb_lstrip_with p sp s :
  forallb p s = true -> forallb p (lstrip_with sp s) = true.
Proof.
  induction s as [|a s IH]; simpl; [reflexivity|].
  intros H. destruct (sp a); [|exact H].
  apply andb_prop in H. now apply IH.
Qed.

Lemma forallb_strip_with p sp s :
  forallb p s = true -> forallb p (strip_with sp s) = true.
Proof.
  intros H. unfold strip_with, rev.
  rewrite forallb_rev_onto, andb_true_r.
  apply forallb_lstrip_with.
  rewrite forallb_rev_onto, andb_true_r.
  now apply forallb_lstrip_with.
Qed.

Lemma forallb_drop_underscores p s : forall prev s1,
  forallb p s = true -> drop_underscores prev s = Some s1 ->
  forallb p s1 = true.
Proof.
  induction s as [|a s IH]; simpl; intros prev s1 H E.
  - destruct (Ascii.eqb prev "_"); inversion E; reflexivity.
  - apply andb_prop in H. destruct H as [Ha Hs].
    destruct (Ascii.eqb a "_").
    + destruct (is_digit prev); [eauto|discriminate].
    + destruct (Ascii.eqb prev "_" && negb (is_digit a)); [discriminate|].
      destruct (drop_underscores a s) as [s2|] eqn:E2; [|discriminate].
      inversion E; subst. simpl. rewrite Ha. eauto.
Qed.

(** Replacing a character: what is left is the other characters and the
    replacement. *)
Lemma forallb_replace_char (p q : ascii -> bool) (o : ascii) (new s : string) :
  (forall a, p a = true -> Ascii.eqb o a = false -> q a = true) ->
  forallb q new = true ->
  forallb p s = true ->
  forallb q (replace (String o "") new s) = true.
Proof.
  intros Hpq Hnew. unfold replace.
  induction s as [|a s IH]; simpl; [reflexivity|].
  intros H. apply andb_prop in H. destruct H as [Ha Hs].
  unfold starts_with; simpl.
  destruct (Ascii.eqb o a) eqn:E.
  - rewrite forallb_string_app, Hnew. simpl. now apply IH.
  - simpl. rewrite (Hpq _ Ha E). now apply IH.
Qed.

Lemma digits_val_nonneg s : forall acc, 0 <= acc -> 0 <= digits_val acc s.
Proof.
  induction s as [|a s IH]; cbn [digits_val]; intros acc H; [exact H|].
  apply IH. unfold digit_val. lia.
Qed.

Lemma Qred_nonneg (x : Q) : 0 <= Qnum x -> 0 <= Qnum (Qred x).
Proof.
  intros H. pose proof (Qred_correct x) as E. unfold Qeq in E.
  destruct (Qred x) as [n d]. simpl in *.
  apply (Z.mul_nonneg_cancel_r _ (Zpos (Qden x))); [lia|].
  rewrite E. apply Z.mul_nonneg_nonneg; lia.
Qed.

Lemma scale_nonneg m e : 0 <= m -> 0 <= Qnum (scale m e).
Proof.
  intros H. unfold scale.
  destruct (0 <=? e) eqn:E; apply Qred_nonneg; cbn [Qnum inject_Z].
  - apply Z.mul_nonneg_nonneg; [exact H|]. apply Z.pow_nonneg. lia.
  - exact H.
Qed.

Lemma parse_decimal_nonneg s q : parse_decimal s = Some q -> 0 <= Qnum q.
Proof.
  unfold parse_decimal.
  destruct (span_digits s) as [ip r1].
  destruct (match r1 with String "." r => span_digits r | _ => ("", r1) end)
    as [fp r2].
  destruct (is_empty ip && is_empty fp); [discriminate|].
  destruct (parse_exponent r2); [|discriminate].
  intros E; inversion E. apply scale_nonneg, digits_val_nonneg. lia.
Qed.

Lemma lower_digit_or x s :
  is_upper x = false ->
  forallb (digit_or x) s = true -> lower s = s.
Proof.
  intros Hx. induction s as [|a s IH]; simpl; [reflexivity|].
  intros H. apply andb_prop in H. destruct H as [Ha Hs].
  rewrite (IH Hs). f_equal. unfold lower_char.
  assert (U : is_upper a = false); [|now rewrite U].
  unfold digit_or in Ha. apply orb_prop in Ha. destruct Ha as [D|E].
  - unfold is_digit, is_upper in *.
    apply andb_prop in D. destruct D as [D1 D2].
    apply Nat.leb_le in D1, D2.
    destruct (Nat.leb_spec 65 (code a)); [lia|reflexivity].
  - apply Ascii.eqb_eq in E. now subst.
Qed.

(** A numeral made of digits and points only is read as a number that is
    not negative. *)
Lemma of_string_digits_points s f :
  forallb (digit_or ".") s = true -> of_string s = Some f -> ge0 f = true.
Proof.
  intros Hs. unfold of_string.
  destruct (drop_underscores "000" s) as [s1|] eqn:E1; [|discriminate].
  pose proof (forallb_drop_underscores _ _ _ _ Hs E1) as H1.
  pose proof (forallb_strip_with _ is_c_space _ H1) as H2.
  assert (Hu : forall r, forallb (digit_or ".") r = true ->
                         parse_unsigned r = Some f -> ge0 f = true).
  { intros r Hr. unfold parse_unsigned.
    rewrite (lower_digit_or "." r eq_refl Hr).
    destruct (String.eqb_spec r "inf") as [->|_]; [discriminate Hr|].
    destruct (String.eqb_spec r "infinity") as [->|_]; [discriminate Hr|].
    destruct (String.eqb_spec r "nan") as [->|_]; [discriminate Hr|].
    simpl. destruct (parse_decimal r) as [q|] eqn:Eq; [|discriminate].
    intros E; inversion E; subst. simpl.
    apply Z.leb_le. eapply parse_decimal_nonneg; eauto. }
  destruct (strip_with is_c_space s1) as [|a r]; [now apply Hu|].
  assert (Ha : digit_or "." a = true) by (simpl in H2; now apply andb_prop in H2).
  destruct (Ascii.eqb_spec a "-") as [->|N1]; [discriminate Ha|].
  destruct (Ascii.eqb_spec a "+") as [->|N2]; [discriminate Ha|].
  intros E. apply (Hu (String a r) H2).
  destruct a as [[] [] [] [] [] [] [] []]; try exact E;
    solve [now elim N1 | now elim N2].
Qed.

Lemma parse_quantity_nonneg g f :
  forallb number_char g = true -> parse_quantity g = Some f -> ge0 f = true.
Proof.
  intros Hg. unfold parse_quantity. apply of_string_digits_points.
  apply (forallb_replace_char (digit_or ",") (digit_or ".") "," ".");
    [| reflexivity |].
  - intros a Ha E. unfold digit_or in *.
    apply orb_prop in Ha. destruct Ha as [D|C]; [now rewrite D|].
    rewrite Ascii.eqb_sym in C. congruence.
  - apply (forallb_replace_char number_char (digit_or ",") "." "");
      [| reflexivity | exact Hg].
    intros a Ha E. unfold number_char, digit_or in *.
    apply orb_prop in Ha. destruct Ha as [Ha|C]; [|now rewrite C, orb_true_r].
    apply orb_prop in Ha. destruct Ha as [D|P]; [now rewrite D|].
    rewrite Ascii.eqb_sym in P. congruence.
Qed.

End FloatFacts.

(* ------------------------------------------------------------------ *)
(** ** The regex extractor *)

Section RegexFacts.
Import Regex.

Ltac sem_inv :=
  repeat match goal with
  | H : sem (Cat _ _) _ _ _ _ |- _ => inversion H; subst; clear H
  | H : sem (Grp _ _) _ _ _ _ |- _ => inversion H; subst; clear H
  | H : sem (Opt _) _ _ _ _ |- _ => inversion H; subst; clear H
  | H : sem Bol _ _ _ _ |- _ => inversion H; subst; clear H
  end.

Lemma qty_match_groups line m :
  re_search qty_line_pattern line = Some m ->
  exists w1 w2,
    group m 1 = Some w1 /\ group m 2 = Some w2 /\
    forallb number_char w1 = true.
Proof.
  cbv [qty_line_pattern seq plus star]. rewrite re_search_bol.
  unfold re_match. intros H. apply run_sound in H.
  destruct H as (w & s' & c' & _ & Hsem & Hacc).
  inversion Hacc; subst m; clear Hacc. unfold group; simpl m_groups.
  sem_inv.
  all: repeat match goal with
  | H : sem (Rep _ (Cls ?p)) _ ?w _ _ |- _ =>
      pose proof (sem_rep_cls _ _ _ _ _ _ H);
      apply sem_groups_free in H; [subst|reflexivity]
  | H : sem ?r _ _ _ _ |- _ =>
      apply sem_groups_free in H; [subst|reflexivity]
  end.
  all: simpl; eauto.
Qed.

Lemma closed_by_more seen more it :
  closed_by seen it -> closed_by (seen ++ more) it.
Proof.
  intros (raw & m & Hin & H). exists raw, m. split; [|exact H].
  apply in_or_app. now left.
Qed.

Lemma flush_inv seen st : loop_inv seen st -> flush st = items st.
Proof.
  intros [_ Hq]. unfold flush.
  destruct (current_item st) as [it|]; [|reflexivity].
  now rewrite (Hq it eq_refl).
Qed.

Lemma step_inv seen st raw :
  loop_inv seen st -> loop_inv (seen ++ [raw]) (step st raw).
Proof.
  intros Hinv. pose proof Hinv as [Hitems Hq].
  assert (Hkeep : loop_inv (seen ++ [raw]) st).
  { split; [|exact Hq].
    eapply Forall_impl; [|exact Hitems]. intros it. apply closed_by_more. }
  assert (Happ : forall it line, current_item st = Some it ->
                   loop_inv (seen ++ [raw]) (append_text st it line)).
  { intros it line Hc. unfold append_text.
    destruct (negb (contains "Datum:" line) && negb (contains "Projekt:" line));
      [|exact Hkeep].
    split; [exact (proj1 Hkeep)|]. simpl. intros it' E. inversion E; subst. simpl.
    now apply Hq. }
  unfold step.
  destruct (is_empty (strip raw)); [exact Hkeep|].
  destruct (re_match oz_pattern (strip raw)) as [match_oz|].
  - split; simpl.
    + rewrite (flush_inv _ _ Hinv). exact (proj1 Hkeep).
    + intros it E. inversion E; reflexivity.
  - destruct (current_item st) as [it|] eqn:Hc; [|exact Hkeep].
    destruct (re_search qty_line_pattern (strip raw)) as [match_qty|] eqn:Hm;
      [|now apply Happ].
    destruct (contains "von" (strip raw)) eqn:Hvon; simpl; [now apply Happ|].
    destruct (parse_quantity (group_str match_qty 1)) as [q|] eqn:Hp;
      [|exact Hkeep].
    split; simpl; [|discriminate].
    apply Forall_app. split; [exact (proj1 Hkeep)|].
    constructor; [|constructor].
    exists raw, match_qty. simpl. repeat split; auto.
    apply in_or_app. right. now left.
Qed.

Lemma run_inv lines : forall seen st,
  loop_inv seen st -> loop_inv (seen ++ lines) (fold_left step lines st).
Proof.
  induction lines as [|raw lines IH]; intros seen st H; simpl.
  - now rewrite List.app_nil_r.
  - replace (seen ++ raw :: lines)%list with ((seen ++ [raw]) ++ lines)%list
      by (rewrite <- List.app_assoc; reflexivity).
    apply IH. now apply step_inv.
Qed.

Lemma closed_by_nonneg lines it : closed_by lines it -> ge0 (quantity it) = true.
Proof.
  intros (raw & m & _ & Hm & _ & Hp & _).
  destruct (qty_match_groups _ _ Hm) as (w1 & w2 & H1 & _ & Hw).
  unfold group_str in Hp. rewrite H1 in Hp.
  eapply parse_quantity_nonneg; eauto.
Qed.

(** C5, as amended: every item of the output was closed by a quantity
    line of the text, which gave it its quantity and its unit, and that
    quantity is not negative (it is 0 for a line such as "0 m3"); an item
    that no quantity line closes is never output, the two flushes that test
    [quantity > 0] adding nothing; the single line "01.01.0010 Beton" yields
    the empty list. *)
Theorem C5_output_items_closed (text : text_arg) :
  let lines := split_on LF (text_of text) in
  Forall (fun it => closed_by lines it /\ ge0 (quantity it) = true)
         (extract_lv_items text) /\
  extract_lv_items text = items (run_lines lines) /\
  extract_lv_items (Lines ["01.01.0010 Beton"]) = [].
Proof.
  intros lines.
  assert (Hinv : loop_inv lines (run_lines lines)).
  { apply (run_inv lines [] (mk_state [] None)). split; [constructor|discriminate]. }
  assert (E : extract_lv_items text = items (run_lines lines))
    by (apply flush_inv with (seen := lines); exact Hinv).
  split; [|split; [exact E|reflexivity]].
  rewrite E. eapply Forall_impl; [|exact (proj1 Hinv)].
  intros it H. split; [exact H|]. eapply closed_by_nonneg; eauto.
Qed.

(** C5 fails as stated: the quantity line "0 m3" closes the item, which is
    output with the quantity 0.0. *)
Lemma C5_counterexample :
  extract_lv_items (Lines ["01.01.0010 Beton"; "0 m3"]) =
    [mk_item "01.01.0010" "Beton" zero "m"] /\
  existsb (fun it => negb (gt0 (quantity it)))
    (extract_lv_items (Lines ["01.01.0010 Beton"; "0 m3"])) = true.
Proof. split; reflexivity. Qed.

(** C4: on the lines "01.01.0010 Beton" and "3,50 m3" the extractor yields
    one item with that position code, the description "Beton" and the
    quantity 3.5, but with the unit "m": the first alternative of the unit
    group, a run of letters, matches before "m3" is tried. *)
Theorem C4_unit_is_cut_short :
  extract_lv_items (Lines ["01.01.0010 Beton"; "3,50 m3"]) =
    [mk_item "01.01.0010" "Beton" (Fin (7 # 2)) "m"].
Proof. reflexivity. Qed.

End RegexFacts.

(* ------------------------------------------------------------------ *)
(** ** The AI extractor and the fallback *)

Section AIFacts.
Import Regex AI.
Variable client : ai_client.

(** A page sends a request exactly when it is not skipped, and only then
    can it add to the log. *)
Lemma page_step_requests (st : run_state) (ip : nat * string) :
  requests (page_step client st ip) =
    (requests st ++ if skipped (snd ip) then [] else [ip])%list /\
  exists new,
    processing_log (page_step client st ip) = (processing_log st ++ new)%list /\
    Forall (fun e => skipped (snd ip) = false /\
                     page_of (log_message e) = Some (fst ip + 1)%nat) new.
Proof.
  destruct ip as [i page_text]. unfold page_step. simpl.
  destruct (skipped page_text).
  - split; [now rewrite List.app_nil_r|].
    exists []. split; [now rewrite List.app_nil_r|constructor].
  - destruct (client i page_text) as [status_code| |[json_content|]].
    + split; [reflexivity|]. eexists. split; [reflexivity|].
      constructor; [|constructor]. split; reflexivity.
    + split; [reflexivity|]. eexists. split; [reflexivity|].
      constructor; [|constructor]. split; reflexivity.
    + destruct (normalize_all (items_list_of json_content) (all_items st))
        as [its raised].
      split; [reflexivity|]. simpl. destruct raised.
      * eexists. split; [reflexivity|].
        constructor; [|constructor]. split; reflexivity.
      * exists []. split; [now rewrite List.app_nil_r|constructor].
    + split; [reflexivity|]. eexists. split; [reflexivity|].
      constructor; [|constructor]. split; reflexivity.
Qed.

Lemma fold_page_step (l : list (nat * string)) : forall st,
  let st' := fold_left (page_step client) l st in
  requests st' =
    (requests st ++ filter (fun ip => negb (skipped (snd ip))) l)%list /\
  exists new,
    processing_log st' = (processing_log st ++ new)%list /\
    Forall (fun e => exists ip,
                In ip l /\ skipped (snd ip) = false /\
                page_of (log_message e) = Some (fst ip + 1)%nat) new.
Proof.
  induction l as [|ip l IH]; intros st; simpl.
  - split; [now rewrite List.app_nil_r|].
    exists []. split; [now rewrite List.app_nil_r|constructor].
  - destruct (IH (page_step client st ip)) as (Hr & new2 & Hl & Hnew2).
    destruct (page_step_requests st ip) as (Hr1 & new1 & Hl1 & Hnew1).
    split.
    + rewrite Hr, Hr1, <- List.app_assoc. f_equal.
      destruct (skipped (snd ip)); reflexivity.
    + exists (new1 ++ new2)%list. split.
      * rewrite Hl, Hl1. now rewrite List.app_assoc.
      * apply Forall_app. split.
        -- eapply Forall_impl; [|exact Hnew1].
           intros e [Hs Hp]. exists ip. auto.
        -- eapply Forall_impl; [|exact Hnew2].
           intros e (ip' & Hin & Hs & Hp). exists ip'. auto.
Qed.

Lemma lstrip_with_empty (sp : ascii -> bool) (s : string) :
  lstrip_with sp s = "" -> forallb sp s = true.
Proof.
  induction s as [|a s IH]; simpl; [reflexivity|].
  destruct (sp a); [exact IH|discriminate].
Qed.

Lemma lstrip_with_head (sp : ascii -> bool) (s : string) a r :
  lstrip_with sp s = String a r -> sp a = false.
Proof.
  induction s as [|b s IH]; simpl; [discriminate|].
  destruct (sp b) eqn:E; [exact IH|]. intros H; inversion H; subst. exact E.
Qed.

Lemma rev_onto_empty (s acc : string) :
  rev_onto s acc = "" -> s = "" /\ acc = "".
Proof.
  revert acc; induction s as [|a s IH]; simpl; intros acc H; [now split|].
  apply IH in H. destruct H as [_ H]. discriminate H.
Qed.

(** A text that strips to nothing is made of white space. *)
Lemma strip_empty_blank (s : string) :
  strip s = "" -> forallb is_space s = true.
Proof.
  unfold strip, strip_with, rev. intros H.
  apply rev_onto_empty in H. destruct H as [H _].
  apply lstrip_with_empty in H.
  rewrite forallb_rev_onto, andb_true_r in H.
  apply lstrip_with_empty.
  destruct (lstrip_with is_space s) as [|a r] eqn:E; [reflexivity|].
  apply lstrip_with_head in E. simpl in H. rewrite E in H. discriminate H.
Qed.

Lemma lstrip_with_all (sp : ascii -> bool) (s : string) :
  forallb sp s = true -> lstrip_with sp s = "".
Proof.
  induction s as [|a s IH]; simpl; [reflexivity|].
  destruct (sp a); [exact IH|discriminate].
Qed.

(** A text strips to nothing exactly when it is blank. *)
Lemma strip_empty_iff_blank (s : string) : is_empty (strip s) = blank s.
Proof.
  unfold blank. destruct (forallb is_space s) eqn:E.
  - unfold strip, strip_with. now rewrite (lstrip_with_all _ _ E).
  - destruct (strip s) eqn:Es; [|reflexivity].
    apply strip_empty_blank in Es. congruence.
Qed.

(** The test of the loop, in the words of the claim: a page is not skipped
    exactly when it is not blank and has at least 50 characters. *)
Lemma skipped_spec (page_text : string) :
  negb (skipped page_text) =
  negb (blank page_text) && (50 <=? len page_text)%nat.
Proof.
  unfold skipped. rewrite strip_empty_iff_blank, negb_orb. f_equal.
  destruct (Nat.ltb_spec (len page_text) 50), (Nat.leb_spec 50 (len page_text));
    try reflexivity; lia.
Qed.

Lemma filter_skipped (l : list (nat * string)) :
  filter (fun ip => negb (skipped (snd ip))) l =
  filter (fun ip => negb (blank (snd ip)) && (50 <=? len (snd ip))%nat) l.
Proof. apply filter_ext. intros ip. apply skipped_spec. Qed.

Lemma nonblank_count_le (s : string) : (nonblank_count s <= len s)%nat.
Proof.
  unfold nonblank_count. induction s as [|a s IH]; simpl; [lia|].
  destruct (is_space a), (is_continuation a); simpl; lia.
Qed.

Lemma nonblank_count_blank (s : string) :
  blank s = true -> nonblank_count s = 0%nat.
Proof.
  unfold nonblank_count, blank. induction s as [|a s IH]; simpl; [reflexivity|].
  destruct (is_space a); simpl; [exact IH|discriminate].
Qed.

(** C8, as amended: a request is sent for a page exactly when the page is
    not blank (it has a character that is not white space) and its length,
    white space included, is at least 50 characters; the other pages are
    skipped without a log entry, every entry of the log being about a page a
    request was sent for.  A page with at least 50 non-blank characters
    always gets a request.  The length is counted in characters: a page of
    47 characters is skipped although its text takes 53 bytes. *)
Theorem C8_requests_for_unskipped_pages (pages : list string) :
  let st := analyze_pages client pages in
  requests st = requested pages /\
  Forall (fun e => exists ip,
              In ip (requested pages) /\
              page_of (log_message e) = Some (fst ip + 1)%nat)
         (processing_log st) /\
  (forall i page_text,
      In (i, page_text) (enumerate pages) ->
      (50 <= nonblank_count page_text)%nat ->
      In (i, page_text) (requests st)) /\
  (len umlaut_page = 47%nat /\ String.length umlaut_page = 53%nat /\
   requests (analyze_pages client [umlaut_page]) = []).
Proof.
  intros st.
  destruct (fold_page_step (enumerate pages) (mk_run [] [] []))
    as (Hr & new & Hl & Hnew).
  fold (analyze_pages client pages) in Hr, Hl. fold st in Hr, Hl.
  simpl in Hr, Hl. rewrite filter_skipped in Hr.
  split; [exact Hr|]. split; [|split].
  - rewrite Hl. eapply Forall_impl; [|exact Hnew].
    intros e (ip & Hin & Hs & Hp). exists ip. split; [|exact Hp].
    unfold requested. apply filter_In. split; [exact Hin|].
    rewrite <- skipped_spec. now rewrite Hs.
  - intros i page_text Hin Hge. rewrite Hr. unfold requested.
    apply filter_In. split; [exact Hin|]. cbn [snd].
    pose proof (nonblank_count_le page_text) as Hle.
    destruct (blank page_text) eqn:Eb.
    + apply nonblank_count_blank in Eb. lia.
    + cbn [negb andb]. apply Nat.leb_le. lia.
  - split; [reflexivity|]. split; [reflexivity|].
    destruct (fold_page_step (enumerate [umlaut_page]) (mk_run [] [] []))
      as (Hr' & _).
    fold (analyze_pages client [umlaut_page]) in Hr'. rewrite Hr'. reflexivity.
Qed.

(** C7: when the AI path is taken and returns no item over all the pages,
    the regex extractor is run on the same pages and the extracted items
    are exactly its result; the log gets a warning more. *)
Theorem C7_fallback_is_regex_extractor (use_ai ai_enabled : bool)
    (pages : list string) :
  use_ai && ai_enabled = true ->
  fst (analyze_with_azure_ai ai_enabled client (Lines pages)) = [] ->
  extract_positions use_ai ai_enabled client pages =
    (map as_dict (extract_lv_items (Lines pages)),
     (snd (analyze_with_azure_ai ai_enabled client (Lines pages)) ++
        [mk_log warning FallbackToRegex])%list).
Proof.
  intros Hai Hnone. unfold extract_positions. rewrite Hai.
  destruct (analyze_with_azure_ai ai_enabled client (Lines pages))
    as [extracted_items log].
  simpl in Hnone. subst extracted_items. reflexivity.
Qed.

End AIFacts.

(** C8 fails as stated: a page of 50 characters of which only two are not
    blank gets a request. *)
Lemma C8_counterexample :
  AI.nonblank_count AI.sparse_page = 2%nat /\
  len AI.sparse_page = 50%nat /\
  AI.requests (AI.analyze_pages (AI.client_of (VList [])) [AI.sparse_page]) =
    [(0%nat, AI.sparse_page)].
Proof. repeat split. Qed.

(** C7 at a page of a tender for which the service finds nothing. *)
Lemma C7_witness :
  true && true = true /\
  fst (AI.analyze_with_azure_ai true (AI.client_of (VList []))
         (Regex.Lines [AI.beton_page])) = [] /\
  AI.extract_positions true true (AI.client_of (VList [])) [AI.beton_page] =
    ([Regex.mk_item (VStr "01.01.0010")
        (VStr "Beton C25/30 liefern und einbauen") (of_Z 3) (VStr "m")],
     [AI.mk_log AI.warning AI.FallbackToRegex]).
Proof.
  split; [reflexivity|]. split; [reflexivity|].
  exact (C7_fallback_is_regex_extractor (AI.client_of (VList [])) true true
           [AI.beton_page] eq_refl eq_refl).
Defined.

(** C3 fails as stated: the quantity "3,0" of the reply is not coerced to
    3.0, the item is kept with the quantity 0.0. *)
Lemma C3_counterexample :
  map Regex.quantity
    (fst (AI.analyze_with_azure_ai true (AI.client_of AI.reply_items)
            (Regex.Lines [AI.beton_page]))) = [zero] /\
  zero <> of_Z 3.
Proof. split; [reflexivity|discriminate]. Qed.

(** C3, as amended: for the reply with the item "01.01.0010", "Beton",
    "3,0", "m3" the item is kept, its position code not being empty, with
    the quantity 0.0: [float] does not read a decimal comma and the default
    of the failed coercion applies, whereas the text "3.0" and the number 3.0
    are coerced to 3.0.  An item whose "oz" is empty is dropped; any item
    whose "oz" is not empty is kept. *)
Theorem C3_item_kept_with_default_quantity :
  AI.analyze_with_azure_ai true (AI.client_of AI.reply_items)
    (Regex.Lines [AI.beton_page]) =
    ([Regex.mk_item (VStr "01.01.0010") (VStr "Beton") zero (VStr "m3")], []) /\
  of_string "3,0" = None /\
  (forall item,
      Regex.quantity (AI.normalize (("menge", VStr "3.0") :: item)) = of_Z 3 /\
      Regex.quantity (AI.normalize (("menge", VFloat (of_Z 3)) :: item)) = of_Z 3) /\
  AI.analyze_with_azure_ai true (AI.client_of AI.reply_without_oz)
    (Regex.Lines [AI.beton_page]) = ([], []) /\
  (forall item all_items,
      AI.normalize_all [VDict item] all_items =
        (if truthy (dict_get item "oz" (VStr ""))
         then (all_items ++ [AI.normalize item])%list else all_items,
         false)).
Proof.
  split; [reflexivity|]. split; [reflexivity|]. split; [|split].
  - intros item. split; reflexivity.
  - reflexivity.
  - intros item all_items. reflexivity.
Qed.

(* ------------------------------------------------------------------ *)
(** ** The Excel import *)

Section ImportFacts.
Import ExcelImport.
Variable repr : pyval -> string.


(** A row whose price cell is empty is left out by the header-alias path,
    under whichever of its headers the price stands, when the headers
    looked up before it give nothing (no such column, or a value that
    counts as false). *)
Lemma fallback_row_empty_price (row : sheet_row) (before after : list string)
    (label : string) :
  price_aliases = (before ++ label :: after)%list ->
  Forall (fun other => truthy (row_get row other) = false) before ->
  row_get row label = VFloat NaN ->
  fallback_row repr row = None.
Proof.
  intros Hsplit Hbefore Hnan. unfold fallback_row.
  assert (Hp : py_or (row_get row "preis") (py_or (row_get row "price")
                 (py_or (row_get row "betrag") (row_get row "ep"))) =
               VFloat NaN).
  { unfold price_aliases in Hsplit.
    destruct before as [|b1 [|b2 [|b3 [|b4 before]]]];
      inversion Hsplit; subst; clear Hsplit;
      repeat match goal with
             | H : Forall _ (_ :: _) |- _ => inversion H; subst; clear H
             end;
      unfold py_or;
      repeat match goal with
             | H : truthy _ = false |- _ => rewrite H; clear H
             end;
      try (rewrite Hnan; reflexivity).
    destruct before; discriminate. }
  rewrite Hp. simpl notna. now rewrite andb_false_r.
Qed.

(** A row whose price cell is empty is kept by the AI-mapped path, its
    price not a number, unless one of the columns the mapping names is
    missing. *)
Lemma ai_row_empty_price col_desc col_price col_unit (row : sheet_row) d :
  row_at row col_price = Some (VFloat NaN) ->
  row_at row col_desc = Some d ->
  (truthy col_unit = true -> exists u, row_at row col_unit = Some u) ->
  exists unit_text,
    ai_row repr col_desc col_price col_unit row =
      Some (mk_mapped (py_str repr d) unit_text NaN NaN "AI Excel Import").
Proof.
  intros Hp Hd Hu. unfold ai_row. rewrite Hp, Hd. cbn [ai_price py_float].
  destruct (truthy col_unit); [|eauto].
  destruct (Hu eq_refl) as [u ->]. eauto.
Qed.


End ImportFacts.


(* ================================================================== *)
(** * Further properties *)

(* ------------------------------------------------------------------ *)
(** ** The regex extractor: units, position codes, counts *)

Section PriorityFacts.
Variable A : Type.

(** A repetition that has reached its lower bound hands over to the rest
    of the pattern at the latest when no further iteration works. *)
Lemma iter_total body min (k : cont A) fuel cnt pos s c :
  total A k -> (min <= cnt)%nat ->
  iter A body min k fuel cnt pos s c <> None.
Proof.
  intros Hk Hle. apply Nat.leb_le in Hle.
  destruct fuel as [|fuel]; simpl.
  - rewrite Hle. apply Hk.
  - destruct (body pos s c _); [discriminate|]. rewrite Hle. apply Hk.
Qed.

Lemma run_plus_unit_char (k : cont A) pos a s c :
  total A k -> is_alpha a = true ->
  run A (plus Regex.unit_char) pos (String a s) c k <> None.
Proof.
  intros Hk Ha. cbn [plus run String.length iter Regex.unit_char alts].
  rewrite Ha. rewrite (proj2 (Nat.ltb_lt pos (S pos))) by lia.
  destruct (iter A _ 1 k (String.length s) 1 (S pos) s c) eqn:E; [discriminate|].
  exfalso. revert E. apply iter_total; [exact Hk|lia].
Qed.

Lemma run_lit_head (k : cont A) l pos s c x a l' :
  l = String a l' ->
  run A (Lit l) pos s c k = Some x -> exists s0, s = String a s0.
Proof.
  intros -> H. simpl in H. destruct s as [|b s0]; [discriminate|].
  destruct (Ascii.eqb_spec a b); [subst; eauto|discriminate].
Qed.

(** With a rest of the pattern that cannot fail, the unit group takes its
    first alternative whenever any of its alternatives matches: each of the
    literal units starts with a letter, and a letter starts a run of unit
    characters. *)
Lemma run_unit_alts (k : cont A) pos s c x :
  total A k ->
  run A Regex.unit_alts pos s c k = Some x ->
  run A (plus Regex.unit_char) pos s c k = Some x.
Proof.
  intros Hk H. unfold Regex.unit_alts in H. cbn [alts] in H.
  cbn [run] in H. fold (run A (plus Regex.unit_char) pos s c k) in H.
  destruct (run A (plus Regex.unit_char) pos s c k) as [y|] eqn:E; [exact H|].
  exfalso.
  assert (Hhead : exists a s0, s = String a s0 /\ is_alpha a = true).
  { repeat match type of H with
    | match ?b with _ => _ end = _ =>
        let E' := fresh "E" in destruct b eqn:E';
        [ apply (run_lit_head k _ pos s c _ _ _ eq_refl) in E';
          destruct E' as [s0 ->]; eexists _, s0; split; reflexivity | ]
    end.
    apply (run_lit_head k _ pos s c _ _ _ eq_refl) in H.
    destruct H as [s0 ->]; eexists _, s0; split; reflexivity. }
  destruct Hhead as (a & s0 & -> & Ha).
  revert E. now apply run_plus_unit_char.
Qed.

Lemma run_cat_split r1 r2 pos s c (k : cont A) x :
  run A (Cat r1 r2) pos s c k = Some x ->
  exists w s' c',
    s = w ++ s' /\ sem r1 pos w c c' /\
    run A r2 (pos + String.length w)%nat s' c' k = Some x.
Proof. intros H. cbn [run] in H. now apply run_sound in H. Qed.

End PriorityFacts.

Section MoreRegexFacts.
Import Regex.

(** A text matched by a pattern over the class [P] is made of characters of
    [P]. *)
Lemma sem_only (P : ascii -> bool) r pos w c c' :
  sem r pos w c c' -> only P r -> forallb P w = true.
Proof.
  induction 1; simpl; intros Hr; try reflexivity; auto.
  - now rewrite (Hr a H).
  - destruct Hr as [H1 H2]. rewrite forallb_string_app, IHsem1, IHsem2; auto.
  - destruct Hr; auto.
  - destruct Hr; auto.
  - rewrite forallb_string_app, IHsem1, IHsem2; auto.
Qed.

Lemma only_unit_char : only unit_byte (plus unit_char).
Proof.
  simpl. repeat split. intros a Ha. unfold unit_byte. now rewrite Ha.
Qed.

Lemma unit_byte_no_digit u :
  forallb unit_byte u = true -> forallb (fun a => negb (is_digit a)) u = true.
Proof.
  apply forallb_impl. intros a H.
  destruct (is_digit a) eqn:D; [exfalso|reflexivity].
  unfold is_digit in D. apply andb_prop in D. destruct D as [D1 D2].
  apply Nat.leb_le in D1, D2.
  unfold unit_byte, is_alpha, is_upper, is_lower in H.
  repeat (apply orb_prop in H; destruct H as [H|H]);
    try (apply andb_prop in H; destruct H as [H1 H2];
         apply Nat.leb_le in H1, H2; lia);
    apply Nat.eqb_eq in H; lia.
Qed.

(** The unit a quantity line gives is a run of unit characters. *)
Lemma qty_unit_letters line m :
  re_search qty_line_pattern line = Some m ->
  exists u, group m 2 = Some u /\ forallb unit_byte u = true.
Proof.
  change qty_line_pattern with
    (Cat Bol (Cat (star space) (Cat (Grp 1 (plus (Cls number_char)))
       (Cat (star space) (Cat (Grp 2 unit_alts)
          (Cat (star space)
             (Opt (Grp 3 (alts [ Rep 2 dot; Lit "Nur Einh."; Lit "Einh.-Pr." ]))))))))).
  rewrite re_search_bol. unfold re_match. intros H.
  do 4 (apply run_cat_split in H;
        destruct H as (? & ? & ? & _ & _ & H)).
  cbn [run] in H.
  match type of H with
  | run _ unit_alts ?p ?s ?c ?k = _ =>
      assert (Hk : total match_obj k)
  end.
  { intros p t d. cbn [star]. apply iter_total; [|lia].
    intros p' t' d'. destruct (run _ _ p' t' d' _); discriminate. }
  apply run_unit_alts in H; [|exact Hk]. clear Hk.
  apply run_sound in H. destruct H as (u & s' & c' & Hs & Hsem & H).
  exists u. split.
  - rewrite Hs in H.
    match type of H with
    | context [take ?n (u ++ s')] =>
        replace n with (String.length u) in H by lia
    end.
    rewrite take_string_app in H.
    apply run_sound in H. destruct H as (w1 & s1 & c1 & _ & Hs1 & H).
    apply sem_groups_free in Hs1; [subst c1|reflexivity].
    match type of H with
    | match ?b with _ => _ end = _ => destruct b as [y|] eqn:E3
    end.
    + inversion H; subst y; clear H.
      apply run_sound in E3. destruct E3 as (w3 & s3 & c3 & _ & Hs3 & H).
      apply sem_groups_free in Hs3; [subst c3|reflexivity].
      inversion H; subst m. reflexivity.
    + inversion H; subst m. reflexivity.
  - eapply sem_only; [exact Hsem|exact only_unit_char].
Qed.

(** The two groups of a position line; the position code is made of digits
    and points. *)
Lemma oz_match_groups line m :
  re_match oz_pattern line = Some m ->
  exists w g,
    group m 1 = Some w /\ group m 2 = Some g /\
    forallb (digit_or ".") w = true.
Proof.
  cbv [oz_pattern seq plus star]. unfold re_match. intros H.
  apply run_sound in H. destruct H as (w & s' & c' & _ & Hsem & Hacc).
  inversion Hacc; subst m; clear Hacc. unfold group; simpl m_groups.
  inversion Hsem as [| | | |? ? ? ? ? ? ? ? H1 H2| | | | | | |]; subst; clear Hsem.
  inversion H1; subst; clear H1.
  inversion H2 as [| | | |? ? ? ? ? ? ? ? H3 H4| | | | | | |]; subst; clear H2.
  inversion H4 as [| | | |? ? ? ? ? ? ? ? H5 H6| | | | | | |]; subst; clear H4.
  inversion H3 as [| | | | | | | | |? ? ? ? ? ? H7| |]; subst; clear H3.
  inversion H6 as [| | | | | | | | |? ? ? ? ? ? H8| |]; subst; clear H6.
  apply sem_groups_free in H5; [subst|reflexivity].
  pose proof (sem_groups_free _ _ _ _ _ H8 eq_refl) as E8.
  pose proof (sem_groups_free _ _ _ _ _ H7 eq_refl) as E7. subst.
  do 2 eexists. simpl. split; [reflexivity|]. split; [reflexivity|].
  eapply sem_only; [exact H7|].
  simpl. repeat split; try reflexivity;
    intros a Ha; unfold digit_or, digit in *; now rewrite Ha.
Qed.

(** Every item, collected or open, was opened by a position line. *)
Lemma step_opened seen st raw :
  opened_inv seen st -> opened_inv (seen ++ [raw]) (step st raw).
Proof.
  intros Hinv. pose proof Hinv as [Hitems Hcur].
  assert (Hmore : forall it, opened_by seen it -> opened_by (seen ++ [raw]) it).
  { intros it (r0 & m & Hin & H). exists r0, m. split; [|exact H].
    apply in_or_app. now left. }
  assert (Hkeep : opened_inv (seen ++ [raw]) st).
  { split; [eapply Forall_impl; [|exact Hitems]; exact Hmore|].
    intros it E. apply Hmore, Hcur, E. }
  assert (Happ : forall it line, current_item st = Some it ->
            opened_inv (seen ++ [raw]) (append_text st it line)).
  { intros it line Hc. unfold append_text.
    destruct (negb (contains "Datum:" line) && negb (contains "Projekt:" line));
      [|exact Hkeep].
    split; [exact (proj1 Hkeep)|]. simpl. intros it' E. inversion E; subst.
    destruct (proj2 Hkeep it Hc) as (r0 & m & Hin & Hm & Ho).
    exists r0, m. auto. }
  unfold step.
  destruct (is_empty (strip raw)); [exact Hkeep|].
  destruct (re_match oz_pattern (strip raw)) as [match_oz|] eqn:Hm.
  - split; simpl.
    + unfold flush. destruct (current_item st) as [it|] eqn:Hc;
        [|exact (proj1 Hkeep)].
      destruct (gt0 (quantity it)); [|exact (proj1 Hkeep)].
      apply Forall_app. split; [exact (proj1 Hkeep)|].
      constructor; [|constructor]. now apply (proj2 Hkeep).
    + intros it E. inversion E; subst. exists raw, match_oz. simpl.
      repeat split; auto. apply in_or_app. right. now left.
  - destruct (current_item st) as [it|] eqn:Hc; [|exact Hkeep].
    destruct (re_search qty_line_pattern (strip raw)) as [match_qty|];
      [|now apply Happ].
    destruct (contains "von" (strip raw)); simpl; [now apply Happ|].
    destruct (parse_quantity (group_str match_qty 1)) as [q|]; [|exact Hkeep].
    split; simpl; [|discriminate].
    apply Forall_app. split; [exact (proj1 Hkeep)|].
    constructor; [|constructor].
    destruct (proj2 Hkeep it Hc) as (r0 & m & Hin & Hm0 & Ho).
    exists r0, m. auto.
Qed.

Lemma run_opened lines : forall seen st,
  opened_inv seen st -> opened_inv (seen ++ lines) (fold_left step lines st).
Proof.
  induction lines as [|raw lines IH]; intros seen st H; simpl.
  - now rewrite List.app_nil_r.
  - replace (seen ++ raw :: lines)%list with ((seen ++ [raw]) ++ lines)%list
      by (rewrite <- List.app_assoc; reflexivity).
    apply IH. now apply step_opened.
Qed.

(** X1.  The unit of every item of the output is a run of letters and
    superscripts: it holds no digit.  The units "m2" and "m3", which
    [qty_line_pattern] lists, are therefore never extracted, whatever the
    text. *)
Theorem X1_unit_never_holds_a_digit (text : text_arg) :
  Forall (fun it =>
            forallb unit_byte (unit it) = true /\
            forallb (fun a => negb (is_digit a)) (unit it) = true /\
            unit it <> "m2" /\ unit it <> "m3")
         (extract_lv_items text).
Proof.
  set (lines := split_on LF (text_of text)).
  assert (Hinv : loop_inv lines (run_lines lines)).
  { apply (run_inv lines [] (mk_state [] None)). split; [constructor|discriminate]. }
  unfold extract_lv_items. fold lines. rewrite (flush_inv _ _ Hinv).
  eapply Forall_impl; [|exact (proj1 Hinv)].
  intros it (raw & m & _ & Hm & _ & _ & Hu).
  destruct (qty_unit_letters _ _ Hm) as (u & Hg & Hb).
  unfold group_str in Hu. rewrite Hg in Hu. rewrite Hu.
  pose proof (unit_byte_no_digit _ Hb) as Hd.
  repeat split; auto; intros E; rewrite E in Hd; discriminate Hd.
Qed.

(** X2.  The position code of every item of the output is the first group
    of a position line of the text, and is made of digits and points
    only. *)
Theorem X2_position_code_of_a_position_line (text : text_arg) :
  Forall (fun it =>
            opened_by (split_on LF (text_of text)) it /\
            forallb (digit_or ".") (oz it) = true)
         (extract_lv_items text).
Proof.
  set (lines := split_on LF (text_of text)).
  assert (Hinv : loop_inv lines (run_lines lines)).
  { apply (run_inv lines [] (mk_state [] None)). split; [constructor|discriminate]. }
  unfold extract_lv_items. fold lines. rewrite (flush_inv _ _ Hinv).
  assert (Ho : opened_inv lines (run_lines lines)).
  { apply (run_opened lines [] (mk_state [] None)). split; [constructor|discriminate]. }
  eapply Forall_impl; [|exact (proj1 Ho)].
  intros it Hit. split; [exact Hit|].
  destruct Hit as (raw & m & _ & Hm & Hoz).
  destruct (oz_match_groups _ _ Hm) as (w & g & Hg1 & _ & Hw).
  unfold group_str in Hoz. now rewrite Hg1 in Hoz; rewrite Hoz.
Qed.

End MoreRegexFacts.

Section CountFacts.
Import Regex.

Lemma flush_length (st : state) :
  (List.length (flush st) <= List.length (items st) + open_items st)%nat.
Proof.
  unfold flush, open_items. destruct (current_item st) as [it|]; [|lia].
  destruct (gt0 (quantity it)); [rewrite List.length_app; simpl|]; lia.
Qed.

Lemma append_text_count st it line :
  current_item st = Some it ->
  items (append_text st it line) = items st /\
  open_items (append_text st it line) = open_items st.
Proof.
  intros Hc. unfold append_text, open_items.
  destruct (negb (contains "Datum:" line) && negb (contains "Projekt:" line));
    simpl; [|auto]. now rewrite Hc.
Qed.

(** A line adds an item, collected or open, only if it is a position
    line. *)
Lemma step_position_count st raw :
  (List.length (items (step st raw)) + open_items (step st raw) <=
   List.length (items st) + open_items st +
   (if is_position_line raw then 1 else 0))%nat.
Proof.
  unfold step, is_position_line.
  destruct (is_empty (strip raw)); [lia|].
  destruct (re_match oz_pattern (strip raw)) as [match_oz|].
  - simpl. pose proof (flush_length st). unfold open_items at 1. simpl. lia.
  - destruct (current_item st) as [it|] eqn:Hc; [|lia].
    assert (Ho : open_items st = 1%nat) by (unfold open_items; now rewrite Hc).
    destruct (re_search qty_line_pattern (strip raw)) as [match_qty|].
    + destruct (contains "von" (strip raw)); simpl.
      * destruct (append_text_count st it (strip raw) Hc) as [-> ->]. lia.
      * destruct (parse_quantity (group_str match_qty 1)); [|lia].
        simpl. rewrite List.length_app. unfold open_items at 1. simpl. lia.
    + destruct (append_text_count st it (strip raw) Hc) as [-> ->]. lia.
Qed.

Lemma run_position_count lines : forall st,
  (List.length (items (fold_left step lines st)) +
   open_items (fold_left step lines st) <=
   List.length (items st) + open_items st +
   List.length (filter is_position_line lines))%nat.
Proof.
  induction lines as [|raw lines IH]; intros st; simpl; [lia|].
  specialize (IH (step st raw)). pose proof (step_position_count st raw).
  destruct (is_position_line raw); simpl; lia.
Qed.

(** An item is collected only at a quantity line. *)
Lemma step_quantity_count seen st raw :
  loop_inv seen st ->
  (List.length (items (step st raw)) <=
   List.length (items st) + (if is_quantity_line raw then 1 else 0))%nat.
Proof.
  intros Hinv. unfold step, is_quantity_line.
  destruct (is_empty (strip raw)); [lia|].
  destruct (re_match oz_pattern (strip raw)) as [match_oz|].
  - simpl. rewrite (flush_inv _ _ Hinv). lia.
  - destruct (current_item st) as [it|] eqn:Hc; [|lia].
    destruct (re_search qty_line_pattern (strip raw)) as [match_qty|].
    + destruct (contains "von" (strip raw)); simpl.
      * destruct (append_text_count st it (strip raw) Hc) as [-> _]. lia.
      * destruct (parse_quantity (group_str match_qty 1)); [|lia].
        simpl. rewrite List.length_app. simpl. lia.
    + destruct (append_text_count st it (strip raw) Hc) as [-> _]. lia.
Qed.

Lemma run_quantity_count lines : forall seen st,
  loop_inv seen st ->
  (List.length (items (fold_left step lines st)) <=
   List.length (items st) + List.length (filter is_quantity_line lines))%nat.
Proof.
  induction lines as [|raw lines IH]; intros seen st Hinv; simpl; [lia|].
  specialize (IH (seen ++ [raw])%list (step st raw) (step_inv _ _ _ Hinv)).
  pose proof (step_quantity_count seen st raw Hinv).
  destruct (is_quantity_line raw); simpl; lia.
Qed.

(** X3.  The output holds at most one item for each position line of the
    text, and at most one for each quantity line. *)
Theorem X3_at_most_one_item_per_line (text : text_arg) :
  let lines := split_on LF (text_of text) in
  (List.length (extract_lv_items text) <=
   List.length (filter is_position_line lines))%nat /\
  (List.length (extract_lv_items text) <=
   List.length (filter is_quantity_line lines))%nat.
Proof.
  intros lines.
  assert (Hinv : loop_inv lines (run_lines lines)).
  { apply (run_inv lines [] (mk_state [] None)). split; [constructor|discriminate]. }
  assert (Hinit : loop_inv [] (mk_state [] None))
    by (split; [constructor|discriminate]).
  unfold extract_lv_items. fold lines. rewrite (flush_inv _ _ Hinv).
  split.
  - pose proof (run_position_count lines (mk_state [] None)) as H.
    unfold run_lines. simpl in H. lia.
  - pose proof (run_quantity_count lines [] (mk_state [] None) Hinit) as H.
    unfold run_lines. simpl in H. lia.
Qed.

End CountFacts.

(* ------------------------------------------------------------------ *)
(** ** White space around the lines *)

Section StripFacts.
Variable sp : ascii -> bool.

Lemma rev_onto_app (s acc : string) : rev_onto s acc = rev s ++ acc.
Proof.
  unfold rev. revert acc. induction s as [|a s IH]; intros acc; simpl.
  - reflexivity.
  - rewrite (IH (String a acc)), (IH (String a "")), string_app_assoc.
    reflexivity.
Qed.

Lemma rev_string_app (s1 s2 : string) : rev (s1 ++ s2) = rev s2 ++ rev s1.
Proof.
  induction s1 as [|a s1 IH]; simpl.
  - now rewrite string_app_nil_r.
  - unfold rev in *. simpl.
    rewrite (rev_onto_app (s1 ++ s2)), (rev_onto_app s1). unfold rev.
    rewrite IH, string_app_assoc. reflexivity.
Qed.

Lemma rev_involutive (s : string) : rev (rev s) = s.
Proof.
  induction s as [|a s IH]; [reflexivity|].
  unfold rev at 2. simpl. rewrite rev_onto_app, rev_string_app, IH.
  reflexivity.
Qed.

Lemma lstrip_with_suffix (s : string) :
  exists pre, s = pre ++ lstrip_with sp s.
Proof.
  induction s as [|a s [pre IH]]; simpl; [now exists ""|].
  destruct (sp a).
  - exists (String a pre). simpl. now f_equal.
  - now exists "".
Qed.

Lemma lstrip_with_fixed (s : string) :
  match s with EmptyString => True | String a _ => sp a = false end ->
  lstrip_with sp s = s.
Proof. destruct s as [|a s]; simpl; [reflexivity|]. now intros ->. Qed.

Lemma lstrip_with_idem (s : string) :
  lstrip_with sp (lstrip_with sp s) = lstrip_with sp s.
Proof.
  apply lstrip_with_fixed.
  destruct (lstrip_with sp s) as [|a r] eqn:E; [exact I|].
  eapply lstrip_with_head; eauto.
Qed.

(** Stripping a stripped text changes nothing. *)
Lemma strip_with_idem (s : string) :
  strip_with sp (strip_with sp s) = strip_with sp s.
Proof.
  unfold strip_with.
  set (u := lstrip_with sp s). set (v := lstrip_with sp (rev u)).
  assert (Ht : lstrip_with sp (rev v) = rev v).
  { apply lstrip_with_fixed.
    destruct (rev v) as [|a t'] eqn:Et; [exact I|].
    destruct (lstrip_with_suffix (rev u)) as [pre Hpre]. fold v in Hpre.
    assert (Hu : u = rev v ++ rev pre).
    { rewrite <- (rev_involutive u), Hpre. apply rev_string_app. }
    rewrite Et in Hu. simpl in Hu.
    unfold u in Hu. eapply lstrip_with_head; eauto. }
  rewrite Ht, rev_involutive. unfold v. now rewrite lstrip_with_idem.
Qed.

End StripFacts.

Section CleanedFacts.
Import Regex.

Lemma step_strip st raw : step st (strip raw) = step st raw.
Proof. unfold step, strip. now rewrite strip_with_idem. Qed.

Lemma step_blank st raw : is_empty (strip raw) = true -> step st raw = st.
Proof. intros H. unfold step. now rewrite H. Qed.

Lemma run_cleaned lines : forall st,
  fold_left step (cleaned lines) st = fold_left step lines st.
Proof.
  unfold cleaned.
  induction lines as [|raw lines IH]; intros st; simpl; [reflexivity|].
  destruct (is_empty (strip raw)) eqn:E; simpl.
  - now rewrite IH, (step_blank st raw E).
  - now rewrite IH, step_strip.
Qed.

(** X4.  Two texts whose lines are the same once they are stripped and the
    blank ones are left out give the same items: indentation, trailing
    blanks and empty lines have no influence on the result. *)
Theorem X4_blanks_have_no_influence (text1 text2 : text_arg) :
  cleaned (split_on LF (text_of text1)) = cleaned (split_on LF (text_of text2)) ->
  extract_lv_items text1 = extract_lv_items text2.
Proof.
  intros H. unfold extract_lv_items, run_lines.
  now rewrite <- (run_cleaned (split_on LF (text_of text1))), H, run_cleaned.
Qed.

End CleanedFacts.

(** X4 at a text with indented lines and an empty line. *)
Lemma X4_witness :
  Regex.cleaned (split_on LF (Regex.text_of
     (Regex.Lines ["  01.01.0010 Beton  "; ""; "   "; "3,50 Stk "]))) =
  Regex.cleaned (split_on LF (Regex.text_of
     (Regex.Text ("01.01.0010 Beton" ++ newline ++ "3,50 Stk")))) /\
  Regex.extract_lv_items
    (Regex.Lines ["  01.01.0010 Beton  "; ""; "   "; "3,50 Stk "]) =
  Regex.extract_lv_items
    (Regex.Text ("01.01.0010 Beton" ++ newline ++ "3,50 Stk")).
Proof.
  split; [reflexivity|].
  exact (X4_blanks_have_no_influence
           (Regex.Lines ["  01.01.0010 Beton  "; ""; "   "; "3,50 Stk "])
           (Regex.Text ("01.01.0010 Beton" ++ newline ++ "3,50 Stk"))
           eq_refl).
Defined.

(* ------------------------------------------------------------------ *)
(** ** The AI extractor: position codes, pages on their own *)

Section MoreAIFacts.
Import Regex AI.
Variable client : ai_client.

Lemma normalize_all_acc (items_list : list pyval) : forall acc,
  normalize_all items_list acc =
    ((acc ++ fst (normalize_all items_list []))%list,
     snd (normalize_all items_list [])).
Proof.
  induction items_list as [|v rest IH]; intros acc; cbn [normalize_all fst snd].
  - now rewrite List.app_nil_r.
  - destruct v; cbn [fst snd]; try (now rewrite List.app_nil_r).
    destruct (truthy (oz (normalize d))).
    + rewrite (IH (acc ++ [normalize d])%list), (IH ([] ++ [normalize d])%list).
      cbn [fst snd]. now rewrite <- List.app_assoc.
    + apply IH.
Qed.

Lemma normalize_all_oz (items_list : list pyval) : forall acc,
  Forall (fun it => truthy (oz it) = true) acc ->
  Forall (fun it => truthy (oz it) = true) (fst (normalize_all items_list acc)).
Proof.
  induction items_list as [|v rest IH]; intros acc Hacc;
    cbn [normalize_all fst]; [exact Hacc|].
  destruct v; try exact Hacc.
  apply IH. destruct (truthy (oz (normalize d))) eqn:E; [|exact Hacc].
  apply Forall_app. split; [exact Hacc|]. constructor; [exact E|constructor].
Qed.

Lemma page_items_oz reply :
  Forall (fun it => truthy (oz it) = true) (page_items reply).
Proof.
  destruct reply as [| |[json_content|]]; simpl; try constructor.
  apply normalize_all_oz. constructor.
Qed.

(** What a page adds to the items, and how much to the log. *)
Lemma page_step_items (st : run_state) (ip : nat * string) :
  all_items (page_step client st ip) =
    (all_items st ++
       if skipped (snd ip) then [] else page_items (client (fst ip) (snd ip)))%list /\
  (List.length (processing_log (page_step client st ip)) <=
   List.length (processing_log st) + if skipped (snd ip) then 0 else 1)%nat.
Proof.
  destruct ip as [i page_text]. unfold page_step. simpl.
  destruct (skipped page_text); [rewrite List.app_nil_r; split; [reflexivity|lia]|].
  destruct (client i page_text) as [status_code| |[json_content|]]; simpl;
    try (rewrite List.app_nil_r, List.length_app; simpl; split; [reflexivity|lia]).
  rewrite normalize_all_acc.
  destruct (snd (normalize_all (items_list_of json_content) [])); simpl;
    [rewrite List.length_app; simpl|]; split; try reflexivity; lia.
Qed.

Lemma fold_page_step_items (l : list (nat * string)) : forall st,
  let st' := fold_left (page_step client) l st in
  all_items st' =
    (all_items st ++
       flat_map (fun ip => page_items (client (fst ip) (snd ip)))
         (filter (fun ip => negb (skipped (snd ip))) l))%list /\
  (List.length (processing_log st') <=
   List.length (processing_log st) +
   List.length (filter (fun ip => negb (skipped (snd ip))) l))%nat.
Proof.
  induction l as [|ip l IH]; intros st; simpl.
  - rewrite List.app_nil_r. split; [reflexivity|lia].
  - destruct (IH (page_step client st ip)) as [Hi Hl].
    destruct (page_step_items st ip) as [Hi1 Hl1].
    rewrite Hi, Hi1. destruct (skipped (snd ip)); simpl.
    + rewrite List.app_nil_r. split; [reflexivity|lia].
    + rewrite <- List.app_assoc. split; [reflexivity|lia].
Qed.

(** X5.  Every item the AI extractor returns has a position code that is
    not empty (a value that counts as true), whatever the service
    replies. *)
Theorem X5_ai_items_have_a_position_code (ai_enabled : bool)
    (full_text : text_arg) :
  Forall (fun it => truthy (oz it) = true)
         (fst (analyze_with_azure_ai ai_enabled client full_text)).
Proof.
  unfold analyze_with_azure_ai. destruct ai_enabled; simpl; [|constructor].
  unfold analyze_pages.
  destruct (fold_page_step_items (enumerate (pages_of full_text)) (mk_run [] [] []))
    as [Hi _].
  rewrite Hi. simpl. apply Forall_flat_map, Forall_forall.
  intros ip _. apply page_items_oz.
Qed.

(** X6.  The pages are handled one by one and on their own: the items
    returned are, in page order, those of the reply to each page a request
    was sent for, a page whose request fails or whose reply is not JSON
    adding none and taking none away from the other pages; the log gets at
    most one entry for each request.  The pages a request is sent for are
    those that are not blank and have at least 50 characters. *)
Theorem X6_pages_are_independent (full_text : text_arg) :
  let pages := pages_of full_text in
  let sent := requests (analyze_pages client pages) in
  fst (analyze_with_azure_ai true client full_text) =
    flat_map (fun ip => page_items (client (fst ip) (snd ip))) sent /\
  (List.length (snd (analyze_with_azure_ai true client full_text)) <=
   List.length sent)%nat /\
  sent = requested pages.
Proof.
  intros pages sent. unfold analyze_with_azure_ai. simpl.
  destruct (fold_page_step_items (enumerate pages) (mk_run [] [] []))
    as [Hi Hl].
  destruct (fold_page_step client (enumerate pages) (mk_run [] [] []))
    as [Hr _].
  fold (analyze_pages client pages) in Hr. fold sent in Hr. simpl in Hr.
  rewrite <- Hr in Hi, Hl. rewrite filter_skipped in Hr.
  split; [exact Hi|]. split; [exact Hl|exact Hr].
Qed.

End MoreAIFacts.

(* ------------------------------------------------------------------ *)
(** ** The matcher and the review table *)

Section MoreMatcherFacts.
Import Matcher Display.
Variable scorer : string -> string -> Z.

Lemma extract_from_skips_none (query : string) (choices : list (option string)) :
  forall best,
    extract_from scorer query
      (filter (fun c => match c with Some _ => true | None => false end) choices)
      best =
    extract_from scorer query choices best.
Proof.
  induction choices as [|[c|] rest IH]; intros best; simpl; auto.
  destruct best as [[bt bs]|]; apply IH.
Qed.

Lemma descriptions_of_described (db : price_db) :
  map row_description (filter has_description db) =
  filter (fun c => match c with Some _ => true | None => false end)
         (map row_description db).
Proof.
  induction db as [|r db IH]; simpl; [reflexivity|].
  unfold has_description at 1. destruct (row_description r) eqn:E; simpl.
  - now rewrite E, IH.
  - exact IH.
Qed.

Lemma first_row_of_described (t : string) (db : price_db) :
  first_row t (filter has_description db) = first_row t db.
Proof.
  unfold first_row. induction db as [|r db IH]; simpl; [reflexivity|].
  unfold has_description at 1. destruct (row_description r) eqn:E; simpl.
  - rewrite E. destruct (String.eqb s t); [reflexivity|exact IH].
  - exact IH.
Qed.

(** X7.  The rows of the catalog without a description have no part in the
    matching: without them the result is the same. *)
Theorem X7_rows_without_description_are_ignored (desc : string)
    (db : price_db) :
  find_best_match scorer desc (filter has_description db) =
  find_best_match scorer desc db.
Proof.
  destruct db as [|r0 db0]; [reflexivity|].
  set (db := r0 :: db0).
  rewrite (find_best_match_rows scorer desc db) by discriminate.
  unfold extractOne. rewrite <- extract_from_skips_none, <- descriptions_of_described.
  destruct (filter has_description db) as [|r1 db1] eqn:E.
  - reflexivity.
  - rewrite <- E. rewrite find_best_match_rows by (rewrite E; discriminate).
    unfold extractOne.
    destruct (extract_from scorer desc _ None) as [[t s]|]; [|reflexivity].
    destruct (s <? 50); [reflexivity|].
    now rewrite first_row_of_described.
Qed.

(** X8.  The score of the result is the best score over the descriptions of
    the catalog, also when it is below 50 and the result is the no-match
    dictionary; it is 0 when the catalog offers no description at all. *)
Theorem X8_score_is_the_best_score (desc : string) (db : price_db) :
  let m := find_best_match scorer desc db in
  (extractOne scorer desc (map row_description db) = None /\ score m = 0) \/
  (exists t,
      In (Some t) (map row_description db) /\
      score m = scorer desc t /\
      forall c, In (Some c) (map row_description db) ->
                scorer desc c <= score m).
Proof.
  intros m. subst m. destruct db as [|r0 db0]; [left; split; reflexivity|].
  set (db := r0 :: db0).
  rewrite (find_best_match_rows scorer desc db) by discriminate.
  destruct (extractOne scorer desc (map row_description db)) as [[t s]|] eqn:E;
    [right|left; split; reflexivity].
  destruct (extractOne_best scorer _ _ _ _ E) as (Hin & Hs & _ & Hmax).
  exists t.
  assert (Hscore : score (if s <? 50 then no_match s
                          else match first_row t db with
                               | Some row =>
                                   mk_match (safe_price (row_price_min row)) t
                                     (row_unit row) s (safe_id (row_id row))
                               | None => no_match 0
                               end) = s).
  { destruct (s <? 50); [reflexivity|].
    destruct (first_row_found t db Hin) as [row ->]. reflexivity. }
  rewrite Hscore. auto.
Qed.

Lemma sequence_some {X : Type} (l : list (option X)) (xs : list X) :
  sequence l = Some xs -> l = map Some xs.
Proof.
  revert xs; induction l as [|[x|] l IH]; simpl; intros xs H.
  - inversion H; reflexivity.
  - destruct (sequence l) as [ys|]; [|discriminate].
    inversion H; subst. simpl. now rewrite (IH ys eq_refl).
  - discriminate.
Qed.

(** X10.  In every row of the table the total is the quantity times the
    price, and a row that is not red names an article of the catalog with
    a positive price. *)
Theorem X10_rows_of_the_table (items : list (Regex.lv_item pyval))
    (db : price_db) :
  match prepare_dataframe_for_display scorer items db with
  | Some rows =>
      Forall (fun row =>
                Gesamt row = mul (Menge row) (Preis row) /\
                (Status row = NONE \/
                 (gt0 (Preis row) = true /\
                  In (Some (Zugeordneter_Artikel row)) (map row_description db))))
             rows
  | None => True
  end.
Proof.
  destruct (prepare_dataframe_for_display scorer items db) as [rows|] eqn:E;
    [|exact I].
  unfold prepare_dataframe_for_display in E. apply sequence_some in E.
  apply Forall_forall. intros row Hin.
  assert (Hrow : In (Some row) (map (display_row_of scorer db) items))
    by (rewrite E; now apply in_map).
  apply in_map_iff in Hrow. destruct Hrow as (item & Hitem & _).
  unfold display_row_of in Hitem.
  destruct (match_value scorer _ db) as [m|] eqn:Em; [|discriminate].
  inversion Hitem; subst row; clear Hitem. simpl.
  split; [reflexivity|].
  assert (Hm : m = no_match 0 \/ exists s, m = find_best_match scorer s db).
  { unfold match_value in Em. destruct db; [left; congruence|].
    destruct (py_or _ _) as [| | | |s| |]; try discriminate.
    right. exists s. now inversion Em. }
  destruct Hm as [->|[s ->]]; [now left|].
  destruct (find_best_match_cases scorer s db) as [[Em' _]|(t & row & Hx & _ & _ & Em')].
  - left. now rewrite Em'.
  - unfold status_icon.
    destruct (gt0 (price (find_best_match scorer s db))); [right|now left].
    split; [reflexivity|]. rewrite Em'. simpl.
    now destruct (extractOne_best scorer _ _ _ _ Hx).
Qed.

End MoreMatcherFacts.

(* ------------------------------------------------------------------ *)
(** ** The Excel import: what every imported row satisfies *)

Section MoreImportFacts.
Import ExcelImport.
Variable repr : pyval -> string.

Lemma keep_some_In {X : Type} (l : list (option X)) (x : X) :
  In x (keep_some l) -> In (Some x) l.
Proof.
  induction l as [|[y|] l IH]; simpl; [intros []| |]; intros H.
  - destruct H as [->|H]; [now left|right; auto].
  - right; auto.
Qed.

Lemma keep_some_length {X : Type} (l : list (option X)) :
  (List.length (keep_some l) <= List.length l)%nat.
Proof. induction l as [|[y|] l IH]; simpl; lia. Qed.

Lemma ai_row_shape col_desc col_price col_unit row r :
  ai_row repr col_desc col_price col_unit row = Some r ->
  price_min r = price_max r /\ category r = "AI Excel Import".
Proof.
  unfold ai_row.
  destruct (row_at row col_price) as [price_val|]; [|discriminate].
  destruct (ai_price price_val) as [p|]; [|discriminate].
  destruct (row_at row col_desc) as [d|]; [|discriminate].
  destruct (truthy col_unit).
  - destruct (row_at row col_unit) as [u|]; [|discriminate].
    intros H; inversion H; subst; simpl; auto.
  - intros H; inversion H; subst; simpl; auto.
Qed.

Lemma fallback_row_shape row r :
  fallback_row repr row = Some r ->
  price_min r = price_max r /\ category r = "Import".
Proof.
  unfold fallback_row. destruct (truthy _ && notna _); [|discriminate].
  intros H; inversion H; subst; simpl; auto.
Qed.

Lemma ai_rows_shape mapping df_import :
  Forall (fun r => price_min r = price_max r /\ category r = "AI Excel Import")
         (ai_rows repr mapping df_import) /\
  (List.length (ai_rows repr mapping df_import) <= List.length df_import)%nat.
Proof.
  unfold ai_rows. destruct mapping as [[|kv m]|]; try (split; [constructor|simpl; lia]).
  destruct (truthy _ && truthy _); [|split; [constructor|simpl; lia]].
  split.
  - apply Forall_forall. intros r Hr. apply keep_some_In, in_map_iff in Hr.
    destruct Hr as (row & Hrow & _). eapply ai_row_shape; eauto.
  - etransitivity; [apply keep_some_length|]. now rewrite List.length_map.
Qed.

Lemma fallback_rows_shape df_import :
  Forall (fun r => price_min r = price_max r /\ category r = "Import")
         (fallback_rows repr df_import) /\
  (List.length (fallback_rows repr df_import) <= List.length df_import)%nat.
Proof.
  unfold fallback_rows. split.
  - apply Forall_forall. intros r Hr. apply keep_some_In, in_map_iff in Hr.
    destruct Hr as (row & Hrow & _). eapply fallback_row_shape; eauto.
  - etransitivity; [apply keep_some_length|]. now rewrite List.length_map.
Qed.

(** X11.  Whatever the sheet and the mapping, every imported row has one
    price, [price_min = price_max]; the rows of one import all come from the
    same path, all tagged "AI Excel Import" or all tagged "Import"; and the
    import has at most one row for each row of the sheet. *)
Theorem X11_imported_rows (use_ai_import ai_enabled : bool)
    (mapping : option (list (string * pyval))) (df_import : list sheet_row) :
  let rows := excel_import repr use_ai_import ai_enabled mapping df_import in
  Forall (fun r => price_min r = price_max r) rows /\
  (Forall (fun r => category r = "AI Excel Import") rows \/
   Forall (fun r => category r = "Import") rows) /\
  (List.length rows <= List.length df_import)%nat.
Proof.
  intros rows. subst rows. unfold excel_import.
  destruct (ai_rows_shape mapping df_import) as [Hai Hlen].
  destruct (fallback_rows_shape df_import) as [Hfb Hlen'].
  assert (Hfall : Forall (fun r => price_min r = price_max r)
                    (fallback_rows repr df_import) /\
                  (Forall (fun r => category r = "AI Excel Import")
                     (fallback_rows repr df_import) \/
                   Forall (fun r => category r = "Import")
                     (fallback_rows repr df_import)) /\
                  (List.length (fallback_rows repr df_import) <=
                   List.length df_import)%nat).
  { split; [|split; [right|exact Hlen']];
      eapply Forall_impl; [|exact Hfb| |exact Hfb]; intros r [H1 H2]; auto. }
  destruct (use_ai_import && ai_enabled); [|exact Hfall].
  destruct (ai_rows repr mapping df_import) as [|r rs]; [exact Hfall|].
  split; [|split; [left|exact Hlen]];
    eapply Forall_impl; [|exact Hai| |exact Hai]; intros r' [H1 H2]; auto.
Qed.

(** X12.  When the price column the mapping names is not a column of the
    sheet, the AI-mapped path maps no row and the import is that of the
    header-alias path. *)
Theorem X12_unknown_price_column (mapping : list (string * pyval))
    (df_import : list sheet_row) :
  Forall (fun row => row_at row (dict_get mapping "price" VNone) = None)
         df_import ->
  excel_import repr true true (Some mapping) df_import =
  fallback_rows repr df_import.
Proof.
  intros Hcol. unfold excel_import. cbn [andb].
  assert (E : ai_rows repr (Some mapping) df_import = []).
  { unfold ai_rows. destruct mapping as [|kv m]; [reflexivity|].
    destruct (truthy _ && truthy _); [|reflexivity].
    induction df_import as [|row df IH]; simpl; [reflexivity|].
    inversion Hcol as [|? ? Hrow Hrest]; subst.
    unfold ai_row at 1. rewrite Hrow. now apply IH. }
  now rewrite E.
Qed.

(** X13.  An empty price cell is treated differently by the two paths.
    The AI-mapped path keeps the row, with the price [nan], whenever the
    columns the mapping names are columns of the sheet (with or without a
    unit column).  The header-alias path leaves the row out, under
    whichever of the headers 'preis', 'price', 'betrag', 'ep' the empty
    cell stands, when the headers looked up before it give nothing. *)
Theorem X13_empty_price_cell :
  (forall col_desc col_price col_unit row d,
      row_at row col_price = Some (VFloat NaN) ->
      row_at row col_desc = Some d ->
      (truthy col_unit = true -> exists u, row_at row col_unit = Some u) ->
      exists unit_text,
        ai_row repr col_desc col_price col_unit row =
          Some (mk_mapped (py_str repr d) unit_text NaN NaN
                          "AI Excel Import")) /\
  (forall row before label after,
      price_aliases = (before ++ label :: after)%list ->
      Forall (fun other => truthy (row_get row other) = false) before ->
      row_get row label = VFloat NaN ->
      fallback_row repr row = None).
Proof.
  split.
  - intros col_desc col_price col_unit row d. apply ai_row_empty_price.
  - intros row before label after. apply fallback_row_empty_price.
Qed.

Lemma lower_char_not_upper (a : ascii) : is_upper (lower_char a) = false.
Proof. destruct a as [[] [] [] [] [] [] [] []]; reflexivity. Qed.

Lemma lower_not_upper (s : string) :
  forallb (fun a => negb (is_upper a)) (lower s) = true.
Proof.
  induction s as [|a s IH]; simpl; [reflexivity|].
  now rewrite lower_char_not_upper, IH.
Qed.

Lemma lower_fixed (s : string) :
  forallb (fun a => negb (is_upper a)) s = true -> lower s = s.
Proof.
  induction s as [|a s IH]; simpl; [reflexivity|].
  intros H. apply andb_prop in H. destruct H as [Ha Hs].
  rewrite (IH Hs). unfold lower_char.
  destruct (is_upper a); [discriminate Ha|reflexivity].
Qed.

Lemma normalize_columns_idem (row : sheet_row) :
  normalize_columns (normalize_columns row) = normalize_columns row.
Proof.
  unfold normalize_columns. rewrite map_map. apply map_ext.
  intros [h v]. simpl. f_equal.
  rewrite (lower_fixed (strip (lower h))).
  - apply strip_with_idem.
  - apply forallb_strip_with, lower_not_upper.
Qed.

(** X14.  The headers are compared in lower case and without the white
    space around them, so that a sheet whose headers are already in that
    form gives the same rows: normalising the headers twice changes
    nothing. *)
Theorem X14_headers_normalised_once (df_import : list sheet_row) :
  fallback_rows repr (map normalize_columns df_import) =
  fallback_rows repr df_import.
Proof.
  unfold fallback_rows. rewrite map_map. f_equal. apply map_ext.
  intros row. now rewrite normalize_columns_idem.
Qed.

End MoreImportFacts.

(** X12 at the sheet of the worked example, for a mapping that names a
    column "Preis netto" the sheet does not have. *)
Lemma X12_witness :
  Forall (fun row =>
            ExcelImport.row_at row
              (dict_get [("description", VStr "Beschreibung");
                         ("price", VStr "Preis netto")] "price" VNone) = None)
         ExcelImport.sheet_alias /\
  ExcelImport.excel_import ExcelImport.no_repr true true
    (Some [("description", VStr "Beschreibung"); ("price", VStr "Preis netto")])
    ExcelImport.sheet_alias =
  ExcelImport.fallback_rows ExcelImport.no_repr ExcelImport.sheet_alias.
Proof.
  assert (H : Forall (fun row =>
            ExcelImport.row_at row
              (dict_get [("description", VStr "Beschreibung");
                         ("price", VStr "Preis netto")] "price" VNone) = None)
         ExcelImport.sheet_alias)
    by (repeat constructor).
  split; [exact H|].
  exact (X12_unknown_price_column ExcelImport.no_repr _ _ H).
Defined.

(** X13 at rows with an empty price cell: on the AI-mapped path with the
    mapping of the worked example, which names a unit column, and on the
    header-alias path under the header 'betrag', the third of the chain. *)
Lemma X13_witness :
  (exists unit_text,
      ExcelImport.ai_row ExcelImport.no_repr
        (VStr "Kurztext") (VStr "EP Euro") (VStr "ME")
        [ ("Kurztext", VStr "Kies"); ("EP Euro", VFloat NaN);
          ("ME", VStr "t") ] =
        Some (ExcelImport.mk_mapped "Kies" unit_text NaN NaN
                "AI Excel Import")) /\
  ExcelImport.fallback_row ExcelImport.no_repr
    [ ("beschreibung", VStr "Kies"); ("betrag", VFloat NaN);
      ("einheit", VStr "t") ] = None.
Proof.
  split.
  - exact (proj1 (X13_empty_price_cell ExcelImport.no_repr)
             (VStr "Kurztext") (VStr "EP Euro") (VStr "ME")
             [ ("Kurztext", VStr "Kies"); ("EP Euro", VFloat NaN);
               ("ME", VStr "t") ]
             (VStr "Kies") eq_refl eq_refl
             (fun _ => ex_intro _ (VStr "t") eq_refl)).
  - exact (proj2 (X13_empty_price_cell ExcelImport.no_repr)
             [ ("beschreibung", VStr "Kies"); ("betrag", VFloat NaN);
               ("einheit", VStr "t") ]
             [ "preis"; "price" ] "betrag" [ "ep" ] eq_refl
             (Forall_cons "preis" eq_refl
                (Forall_cons "price" eq_refl (Forall_nil _)))
             eq_refl).
Defined.

(* ------------------------------------------------------------------ *)
(** ** Reading a numeral with a point or a comma *)

Section NumeralFacts.
Import Regex PdfImport.

Lemma replace_char_app (o : ascii) (new s1 s2 : string) :
  replace (String o "") new (s1 ++ s2) =
  replace (String o "") new s1 ++ replace (String o "") new s2.
Proof.
  unfold replace. induction s1 as [|a s1 IH]; simpl; [reflexivity|].
  unfold starts_with; simpl. destruct (Ascii.eqb o a).
  - now rewrite IH, string_app_assoc.
  - now rewrite IH.
Qed.

Lemma replace_char_absent (o : ascii) (new s : string) :
  forallb (fun a => negb (Ascii.eqb o a)) s = true ->
  replace (String o "") new s = s.
Proof.
  unfold replace. induction s as [|a s IH]; simpl; [reflexivity|].
  intros H. apply andb_prop in H. destruct H as [Ha Hs].
  unfold starts_with; simpl. destruct (Ascii.eqb o a); [discriminate|].
  now rewrite IH.
Qed.

Lemma digits_without (o : ascii) (s : string) :
  is_digit o = false ->
  forallb is_digit s = true ->
  forallb (fun a => negb (Ascii.eqb o a)) s = true.
Proof.
  intros Ho. apply forallb_impl. intros a Ha.
  destruct (Ascii.eqb_spec o a); [subst; congruence|reflexivity].
Qed.

Lemma digits_digit_or (x : ascii) (s : string) :
  forallb is_digit s = true -> forallb (digit_or x) s = true.
Proof.
  apply forallb_impl. intros a Ha. unfold digit_or. now rewrite Ha.
Qed.

Lemma span_digits_app (ip r : string) :
  forallb is_digit ip = true ->
  match r with String a _ => is_digit a = false | EmptyString => True end ->
  span_digits (ip ++ r) = (ip, r).
Proof.
  intros Hip Hr. induction ip as [|a ip IH]; simpl.
  - destruct r as [|b r]; simpl; [reflexivity|now rewrite Hr].
  - simpl in Hip. apply andb_prop in Hip. destruct Hip as [Ha Hip].
    now rewrite Ha, (IH Hip).
Qed.

Lemma span_digits_all (d : string) :
  forallb is_digit d = true -> span_digits d = (d, "").
Proof.
  intros H. rewrite <- (string_app_nil_r d) at 1.
  now apply span_digits_app.
Qed.

Lemma drop_underscores_numeral (s : string) : forall prev,
  Ascii.eqb prev "_" = false ->
  forallb (digit_or ".") s = true ->
  drop_underscores prev s = Some s.
Proof.
  induction s as [|a s IH]; simpl; intros prev Hp H.
  - now rewrite Hp.
  - apply andb_prop in H. destruct H as [Ha Hs].
    assert (Hu : Ascii.eqb a "_" = false).
    { destruct (Ascii.eqb_spec a "_"); [subst; discriminate Ha|reflexivity]. }
    rewrite Hu, Hp. simpl. now rewrite (IH a Hu Hs).
Qed.

Lemma strip_with_fixed (sp : ascii -> bool) (s : string) :
  forallb (fun a => negb (sp a)) s = true -> strip_with sp s = s.
Proof.
  intros H. unfold strip_with.
  assert (Hfix : forall t, forallb (fun a => negb (sp a)) t = true ->
                           lstrip_with sp t = t).
  { intros t Ht. apply lstrip_with_fixed. destruct t as [|a t]; [exact I|].
    simpl in Ht. apply andb_prop in Ht. destruct Ht as [Ha _].
    now destruct (sp a). }
  rewrite (Hfix s H), Hfix, rev_involutive; [reflexivity|].
  unfold rev. now rewrite forallb_rev_onto, H.
Qed.

Lemma numeral_no_space (s : string) :
  forallb (digit_or ".") s = true ->
  forallb (fun a => negb (is_c_space a)) s = true.
Proof.
  apply forallb_impl. intros a Ha.
  destruct (is_c_space a) eqn:E; [exfalso|reflexivity].
  unfold digit_or in Ha. apply orb_prop in Ha. destruct Ha as [D|P].
  - unfold is_digit in D. apply andb_prop in D. destruct D as [D1 D2].
    apply Nat.leb_le in D1, D2. unfold is_c_space in E.
    apply orb_prop in E. destruct E as [E|E].
    + apply andb_prop in E. destruct E as [E1 E2]. apply Nat.leb_le in E2. lia.
    + apply Nat.eqb_eq in E. lia.
  - apply Ascii.eqb_eq in P. subst. discriminate E.
Qed.

(** A text of digits and points is read as a decimal numeral: no sign, no
    underscore, no white space and no name of a special value is in it. *)
Lemma of_string_numeral (s : string) :
  forallb (digit_or ".") s = true ->
  of_string s = option_map Fin (parse_decimal s).
Proof.
  intros Hs. unfold of_string.
  rewrite (drop_underscores_numeral s "000" eq_refl Hs).
  rewrite (strip_with_fixed _ _ (numeral_no_space s Hs)).
  assert (Hu : parse_unsigned s = option_map Fin (parse_decimal s)).
  { unfold parse_unsigned. rewrite (lower_digit_or "." s eq_refl Hs).
    destruct (String.eqb_spec s "inf") as [->|_]; [discriminate Hs|].
    destruct (String.eqb_spec s "infinity") as [->|_]; [discriminate Hs|].
    destruct (String.eqb_spec s "nan") as [->|_]; [discriminate Hs|].
    reflexivity. }
  destruct s as [|a r]; [exact Hu|].
  assert (Ha : digit_or "." a = true) by (simpl in Hs; now apply andb_prop in Hs).
  destruct (Ascii.eqb_spec a "-") as [->|N1]; [discriminate Ha|].
  destruct (Ascii.eqb_spec a "+") as [->|N2]; [discriminate Ha|].
  rewrite <- Hu.
  destruct a as [[] [] [] [] [] [] [] []]; try reflexivity;
    solve [now elim N1 | now elim N2].
Qed.

Lemma Qred_inject_Z (m : Z) : Qred (inject_Z m) = inject_Z m.
Proof.
  unfold Qred, inject_Z.
  pose proof (Z.ggcd_gcd m 1) as Hg.
  pose proof (Z.ggcd_correct_divisors m 1) as Hd.
  destruct (Z.ggcd m 1) as [g [aa bb]]. simpl in Hg.
  rewrite Z.gcd_1_r in Hg. subst g. destruct Hd as [Ha Hb].
  rewrite Z.mul_1_l in Ha, Hb. now subst.
Qed.

Lemma parse_decimal_digits (d : string) :
  forallb is_digit d = true -> d <> "" ->
  parse_decimal d = Some (inject_Z (digits_val 0 d)).
Proof.
  intros Hd Hne. unfold parse_decimal. rewrite (span_digits_all d Hd).
  destruct d as [|a d]; [now elim Hne|].
  cbn [is_empty andb parse_exponent String.length].
  rewrite string_app_nil_r. unfold scale. cbn [Z.of_nat Z.sub Z.leb Z.compare Z.opp Z.add].
  change (10 ^ 0) with 1. now rewrite Z.mul_1_r, Qred_inject_Z.
Qed.

Lemma parse_decimal_point (ip fp : string) :
  forallb is_digit ip = true -> forallb is_digit fp = true -> fp <> "" ->
  parse_decimal (ip ++ String "." fp) =
  Some (Qred (digits_val 0 (ip ++ fp) #
              Z.to_pos (10 ^ Z.of_nat (String.length fp)))).
Proof.
  intros Hip Hfp Hne. unfold parse_decimal.
  rewrite (span_digits_app ip (String "." fp) Hip eq_refl).
  cbv iota. rewrite (span_digits_all fp Hfp).
  destruct fp as [|a fp]; [now elim Hne|].
  rewrite andb_false_r. cbn [parse_exponent]. unfold scale.
  set (n := Z.of_nat (String.length (String a fp))).
  assert (Hn : 0 < n) by (unfold n; simpl; lia).
  destruct (Z.leb_spec 0 (0 - n)); [lia|].
  now replace (- (0 - n)) with n by lia.
Qed.

(** Digits are read as the whole number they spell. *)
Lemma digits_reading (d : string) :
  forallb is_digit d = true -> is_empty d = false ->
  of_string d = Some (of_Z (digits_val 0 d)).
Proof.
  intros Hd Hne. rewrite of_string_numeral by now apply digits_digit_or.
  rewrite parse_decimal_digits; [reflexivity|exact Hd|].
  intros ->. discriminate Hne.
Qed.

(** Digits, a comma and digits are read, the comma replaced by a point, as
    a decimal fraction. *)
Lemma comma_reading (ip fp : string) :
  forallb is_digit ip = true ->
  forallb is_digit fp = true ->
  is_empty fp = false ->
  of_string (replace "," "." (ip ++ "," ++ fp)) =
  Some (Fin (Qred (digits_val 0 (ip ++ fp) #
                   Z.to_pos (10 ^ Z.of_nat (String.length fp))))).
Proof.
  intros Hip Hfp Hne.
  assert (Hne' : fp <> "") by (intros ->; discriminate Hne).
  rewrite replace_char_app, (replace_char_app "," "." "," fp).
  rewrite (replace_char_absent "," "." ip), (replace_char_absent "," "." fp)
    by now apply digits_without.
  change (replace "," "." ",") with ".". cbn [append].
  rewrite of_string_numeral.
  - now rewrite parse_decimal_point.
  - rewrite forallb_string_app, (digits_digit_or "." ip Hip).
    cbn [andb forallb]. rewrite (digits_digit_or "." fp Hfp). reflexivity.
Qed.

(** The reading of digits, a point or a comma, and digits. *)
Lemma numeral_reading (ip fp : string) :
  forallb is_digit ip = true ->
  forallb is_digit fp = true ->
  is_empty fp = false ->
  parse_quantity (ip ++ "." ++ fp) = Some (of_Z (digits_val 0 (ip ++ fp))) /\
  parse_quantity (ip ++ "," ++ fp) =
  Some (Fin (Qred (digits_val 0 (ip ++ fp) #
                   Z.to_pos (10 ^ Z.of_nat (String.length fp))))).
Proof.
  intros Hip Hfp Hne.
  assert (Hd : forallb is_digit (ip ++ fp) = true)
    by now rewrite forallb_string_app, Hip, Hfp.
  unfold parse_quantity. split.
  - rewrite replace_char_app, (replace_char_app "." "" "." fp).
    rewrite (replace_char_absent "." "" ip), (replace_char_absent "." "" fp)
      by now apply digits_without.
    change (replace "." "" ".") with "". cbn [append].
    rewrite (replace_char_absent ",") by now apply digits_without.
    apply digits_reading; [exact Hd|].
    destruct ip; [exact Hne|reflexivity].
  - rewrite (replace_char_absent "."); [now apply comma_reading|].
    rewrite forallb_string_app, (digits_without "." ip eq_refl Hip).
    change ("," ++ fp) with (String "," fp). cbn [andb forallb].
    rewrite (digits_without "." fp eq_refl Hfp). reflexivity.
Qed.

(** X15.  In a quantity a point is dropped and a comma is the decimal
    sign: of digits, a point and digits the extractor reads the whole
    number that the digits spell without the point, of digits, a comma and
    digits the decimal fraction. *)
Theorem X15_point_dropped_comma_decimal (ip fp : string) :
  forallb is_digit ip = true ->
  forallb is_digit fp = true ->
  is_empty fp = false ->
  parse_quantity (ip ++ "." ++ fp) = Some (of_Z (digits_val 0 (ip ++ fp))) /\
  parse_quantity (ip ++ "," ++ fp) =
  Some (Fin (Qred (digits_val 0 (ip ++ fp) #
                   Z.to_pos (10 ^ Z.of_nat (String.length fp))))).
Proof. exact (numeral_reading ip fp). Qed.

End NumeralFacts.

(** X15 at the texts [12.50] and [12,50]: the first is read as 1250, the
    second as 25/2. *)
Lemma X15_witness :
  Regex.parse_quantity "12.50" = Some (of_Z 1250) /\
  Regex.parse_quantity "12,50" = Some (Fin (25 # 2)).
Proof.
  exact (X15_point_dropped_comma_decimal "12" "50" eq_refl eq_refl eq_refl).
Defined.

(* ------------------------------------------------------------------ *)
(** ** The pattern of a price line *)

Section PriceLineFacts.
Import Regex PdfImport PyReX.

Lemma lazy_iter_sound (A : Type) (r : regex) (k : cont A) :
  groups_free r = true ->
  forall fuel pos s c x,
    lazy_iter A (run A r) k fuel pos s c = Some x ->
    exists w s', s = w ++ s' /\ k (pos + String.length w)%nat s' c = Some x.
Proof.
  intros G.
  assert (Hstop : forall pos s c x, k pos s c = Some x ->
            exists w s', s = w ++ s' /\
                         k (pos + String.length w)%nat s' c = Some x).
  { intros pos s c x H. exists "", s. simpl. now rewrite Nat.add_0_r. }
  induction fuel as [|fuel IH]; simpl; intros pos s c x H;
    destruct (k pos s c) as [y|] eqn:E;
    try (inversion H; subst y; now apply Hstop); try discriminate.
  apply run_sound in H. destruct H as (w1 & s1 & c1 & Hs & Hsem & Hk).
  apply sem_groups_free in Hsem; [subst c1|exact G].
  destruct (pos <? pos + String.length w1)%nat; [|discriminate].
  apply IH in Hk. destruct Hk as (w2 & s2 & Hs2 & Hk2).
  exists (w1 ++ w2), s2. split.
  - rewrite string_app_assoc. congruence.
  - now rewrite length_string_app, Nat.add_assoc.
Qed.

Lemma take_after (p : nat) (w s : string) :
  take (p + String.length w - p) (w ++ s) = w.
Proof.
  replace (p + String.length w - p)%nat with (String.length w) by lia.
  apply take_string_app.
Qed.

(** A repetition that starts below its lower bound takes a text that is
    not empty. *)
Lemma iter_sound_min (A : Type) (r : regex) (min : nat) body (k : cont A) :
  sound_at A r body ->
  forall fuel cnt pos s c x,
    iter A body min k fuel cnt pos s c = Some x ->
    exists w s' c',
      s = w ++ s' /\ sem (Rep min r) pos w c c' /\
      ((min <= cnt)%nat \/ is_empty w = false) /\
      k (pos + String.length w)%nat s' c' = Some x.
Proof.
  intros Hbody.
  assert (Hstop : forall cnt pos s c x,
             (if (min <=? cnt)%nat then k pos s c else None) = Some x ->
             exists w s' c',
               s = w ++ s' /\ sem (Rep min r) pos w c c' /\
               ((min <= cnt)%nat \/ is_empty w = false) /\
               k (pos + String.length w)%nat s' c' = Some x).
  { intros cnt pos s c x H. destruct (Nat.leb_spec min cnt); [|discriminate].
    exists "", s, c. simpl. rewrite Nat.add_0_r. repeat split; auto.
    constructor. }
  induction fuel as [|fuel IH]; intros cnt pos s c x H; cbn [iter] in H.
  - eapply Hstop; eauto.
  - match type of H with
    | match ?b with _ => _ end = _ => destruct b as [y|] eqn:E
    end; [|eapply Hstop; eauto].
    inversion H; subst y. clear H.
    apply Hbody in E. destruct E as (w1 & s1 & c1 & Hs & Hsem & Hk).
    destruct (Nat.ltb_spec pos (pos + String.length w1)); [|discriminate].
    apply IH in Hk. destruct Hk as (w2 & s2 & c2 & Hs2 & Hsem2 & _ & Hk2).
    exists (w1 ++ w2), s2, c2. repeat split.
    + rewrite string_app_assoc. congruence.
    + econstructor; eauto.
    + right. destruct w1; [simpl in *; lia|reflexivity].
    + rewrite length_string_app, Nat.add_assoc. exact Hk2.
Qed.

Lemma run_plus_sound (A : Type) (r : regex) (k : cont A) pos s c x :
  run A (plus r) pos s c k = Some x ->
  exists w s' c',
    s = w ++ s' /\ sem (plus r) pos w c c' /\ is_empty w = false /\
    k (pos + String.length w)%nat s' c' = Some x.
Proof.
  intros H. cbn [plus run] in H.
  apply (iter_sound_min A r 1 (run A r) k (run_sound A r)) in H.
  destruct H as (w & s' & c' & Hs & Hsem & Hmin & Hk).
  exists w, s', c'. repeat split; auto.
  destruct Hmin as [Hmin|Hmin]; [lia|exact Hmin].
Qed.

Lemma run_plus_cls (A : Type) (p : ascii -> bool) (k : cont A) pos s c x :
  run A (plus (Cls p)) pos s c k = Some x ->
  exists w s',
    s = w ++ s' /\ forallb p w = true /\ is_empty w = false /\
    k (pos + String.length w)%nat s' c = Some x.
Proof.
  intros H. apply run_plus_sound in H.
  destruct H as (w & s' & c' & Hs & Hsem & Hne & Hk).
  pose proof (sem_groups_free _ _ _ _ _ Hsem eq_refl) as Hc. subst c'.
  exists w, s'. repeat split; auto. eapply sem_rep_cls; eauto.
Qed.

Lemma xsearch_from_bol r s pos :
  xsearch_from (XCat (Base Bol) r) (S pos) s = None.
Proof.
  revert pos; induction s as [|a s IH]; intros pos; simpl; auto.
Qed.

Lemma xre_search_bol r s :
  xre_search (XCat (Base Bol) r) s =
  xrun match_obj (XCat (Base Bol) r) 0 s [] accept.
Proof.
  unfold xre_search.
  destruct s as [|a s]; unfold xsearch_from; fold xsearch_from.
  - destruct (xrun match_obj (XCat (Base Bol) r) 0 "" [] accept); reflexivity.
  - rewrite xsearch_from_bol.
    destruct (xrun match_obj (XCat (Base Bol) r) 0 (String a s) [] accept);
      reflexivity.
Qed.

Lemma sem_cat_inv r1 r2 pos w c c' :
  sem (Cat r1 r2) pos w c c' ->
  exists w1 w2 c1,
    w = w1 ++ w2 /\ sem r1 pos w1 c c1 /\
    sem r2 (pos + String.length w1) w2 c1 c'.
Proof. intros H. inversion H; subst. eauto 6. Qed.

Lemma sem_cls_inv p pos w c c' :
  sem (Cls p) pos w c c' -> exists a, w = String a "" /\ p a = true.
Proof. intros H. inversion H; subst. eauto. Qed.

(** What follows the digits of the numeral of a price line: a point or a
    comma, and two digits. *)
Lemma sem_price_fraction pos w c c' :
  sem (seq [ Cls (fun a => Ascii.eqb a "." || Ascii.eqb a ",");
             digit; digit ]) pos w c c' ->
  exists sep fp,
    w = String sep fp /\ (sep = "."%char \/ sep = ","%char) /\
    forallb is_digit fp = true /\ String.length fp = 2%nat.
Proof.
  cbn [seq]. intros H.
  apply sem_cat_inv in H. destruct H as (ws & w2 & c2 & -> & Hsep & H).
  apply sem_cat_inv in H. destruct H as (wa & wb & c3 & -> & Ha & Hb).
  apply sem_cls_inv in Hsep. destruct Hsep as (sep & -> & Hsep).
  apply sem_cls_inv in Ha. destruct Ha as (a & -> & Ha).
  apply sem_cls_inv in Hb. destruct Hb as (b & -> & Hb).
  exists sep, (String a (String b "")). simpl. rewrite Ha, Hb.
  repeat split; auto.
  apply orb_prop in Hsep. destruct Hsep as [E|E]; apply Ascii.eqb_eq in E; auto.
Qed.

(** What a match of the pattern says about the line: group 1, white space
    and the numeral of group 2 follow each other from the start of the
    line. *)
Lemma price_line_groups line m :
  xre_search price_line_pattern line = Some m ->
  exists ws ip sep fp rest,
    line = group_str m 1 ++ ws ++ (ip ++ String sep fp) ++ rest /\
    group_str m 2 = ip ++ String sep fp /\
    forallb is_space ws = true /\ is_empty ws = false /\
    forallb is_digit ip = true /\ is_empty ip = false /\
    (sep = "."%char \/ sep = ","%char) /\
    forallb is_digit fp = true /\ String.length fp = 2%nat.
Proof.
  unfold price_line_pattern. cbn [xseq]. rewrite xre_search_bol.
  cbn [xrun seq]. intros H.
  apply run_sound in H. destruct H as (w0 & s0 & c0 & Hs0 & Hsem0 & H).
  inversion Hsem0; subst w0 c0. simpl in Hs0. subst s0. clear Hsem0.
  apply lazy_iter_sound in H; [|reflexivity].
  destruct H as (g1 & s1 & Hs1 & H).
  apply run_plus_cls in H. destruct H as (ws & s2 & Hs2 & Hws & Hws' & H).
  change (run ?A (Cat ?r1 ?r2) ?pos ?s ?c ?k)
    with (run A r1 pos s c (fun pos' s' c' => run A r2 pos' s' c' k)) in H.
  apply run_plus_cls in H. destruct H as (ip & s3 & Hs3 & Hip & Hip' & H).
  apply run_sound in H. destruct H as (w & s4 & c4 & Hs4 & Hsem4 & H).
  pose proof (sem_groups_free _ _ _ _ _ Hsem4 eq_refl) as Hc4. subst c4.
  apply (sem_price_fraction _ w) in Hsem4.
  destruct Hsem4 as (sep & fp & Hw & Hsep & Hfp & Hlen).
  apply run_sound in H. destruct H as (w5 & s5 & c5 & Hs5 & Hsem5 & H).
  pose proof (sem_groups_free _ _ _ _ _ Hsem5 eq_refl) as Hc5. subst c5.
  assert (Hs2' : s2 = (ip ++ w) ++ s4)
    by (rewrite string_app_assoc; congruence).
  rewrite <- (Nat.add_assoc _ (String.length ip) (String.length w)) in H.
  rewrite <- (length_string_app ip w) in H.
  rewrite Hs1, Hs2', !take_after in H.
  assert (Hm : group_str m 1 = g1 /\ group_str m 2 = ip ++ w).
  { match type of H with
    | match ?b with _ => _ end = _ => destruct b as [y|] eqn:E
    end.
    - inversion H; subst y. clear H.
      apply run_sound in E. destruct E as (w6 & s6 & c6 & Hs6 & Hsem6 & H).
      pose proof (sem_groups_free _ _ _ _ _ Hsem6 eq_refl) as Hc6. subst c6.
      destruct (at_end s6); [|discriminate].
      inversion H; subst m. split; reflexivity.
    - destruct (at_end s5); [|discriminate].
      inversion H; subst m. split; reflexivity. }
  destruct Hm as [Hm1 Hm2]. rewrite Hm1, Hm2.
  exists ws, ip, sep, fp, s4. rewrite <- Hw.
  repeat split; auto. congruence.
Qed.

(** The value of the numeral of a price line. *)
Lemma price_text_value ip sep fp :
  forallb is_digit ip = true -> (sep = "."%char \/ sep = ","%char) ->
  forallb is_digit fp = true -> String.length fp = 2%nat ->
  of_string (price_text (ip ++ String sep fp)) =
  Some (if Ascii.eqb sep ","
        then Fin (Qred (digits_val 0 (ip ++ fp) # 100))
        else of_Z (digits_val 0 (ip ++ fp))).
Proof.
  intros Hip Hsep Hfp Hlen.
  assert (Hne : is_empty fp = false) by (destruct fp; [discriminate|reflexivity]).
  destruct (numeral_reading ip fp Hip Hfp Hne) as [Hpoint Hcomma].
  rewrite Hlen in Hcomma.
  destruct Hsep as [-> | ->]; [exact Hpoint|exact Hcomma].
Qed.

(** X16.  The conversion of a matched price never fails: the numeral that
    group 2 of the pattern captures is digits, a point or a comma and two
    digits, and [float] reads it, with the point dropped, as a whole number
    when the sign is a point and as hundredths when it is a comma. *)
Theorem X16_matched_price_is_a_number (line : string) (m : match_obj) :
  xre_search price_line_pattern line = Some m ->
  exists ip sep fp,
    group_str m 2 = ip ++ String sep fp /\
    forallb is_digit ip = true /\ is_empty ip = false /\
    forallb is_digit fp = true /\ String.length fp = 2%nat /\
    of_string (price_text (group_str m 2)) =
    Some (if Ascii.eqb sep ","
          then Fin (Qred (digits_val 0 (ip ++ fp) # 100))
          else of_Z (digits_val 0 (ip ++ fp))).
Proof.
  intros H. apply price_line_groups in H.
  destruct H as (ws & ip & sep & fp & rest & _ & Hg & _ & _ & Hip & Hip' &
                 Hsep & Hfp & Hlen).
  exists ip, sep, fp. rewrite Hg. repeat split; auto.
  now apply price_text_value.
Qed.

(** X17.  A row of the pattern import comes from its line: the line, once
    stripped, starts with a text, white space and a numeral; the
    description of the row is the text, stripped, and its price the
    numeral, read as a whole number when it is written with a point. *)
Theorem X17_row_of_a_price_line (raw : string) (r : pdf_row) :
  regex_line_row raw = Some r ->
  exists g1 ws ip sep fp rest,
    strip raw = g1 ++ ws ++ (ip ++ String sep fp) ++ rest /\
    forallb is_space ws = true /\ is_empty ws = false /\
    forallb is_digit ip = true /\ is_empty ip = false /\
    forallb is_digit fp = true /\ String.length fp = 2%nat /\
    description r = VStr (strip g1) /\
    price_min r = (if Ascii.eqb sep ","
                   then Fin (Qred (digits_val 0 (ip ++ fp) # 100))
                   else of_Z (digits_val 0 (ip ++ fp))).
Proof.
  unfold regex_line_row.
  destruct (is_empty (strip raw) || _); [discriminate|].
  destruct (xre_search price_line_pattern (strip raw)) as [m|] eqn:Em;
    [|discriminate].
  apply price_line_groups in Em.
  destruct Em as (ws & ip & sep & fp & rest & Hl & Hg & Hws & Hws' & Hip & Hip' &
                  Hsep & Hfp & Hlen).
  rewrite Hg, (price_text_value ip sep fp Hip Hsep Hfp Hlen).
  match goal with
  | |- (if ?b then _ else _) = _ -> _ => destruct b; [|discriminate]
  end.
  intros H; inversion H; subst; simpl.
  exists (group_str m 1), ws, ip, sep, fp, rest. repeat split; auto.
Qed.

End PriceLineFacts.

(** X16 at a line with a price written with a point. *)
Lemma X16_witness :
  PyReX.xre_search PdfImport.price_line_pattern "Beton C25/30 145.00 m3" =
  Some (MatchObj 22 [(3%nat, "m3"); (2%nat, "145.00"); (1%nat, "Beton C25/30")]) /\
  exists ip sep fp,
    "145.00" = ip ++ String sep fp /\
    forallb is_digit ip = true /\ is_empty ip = false /\
    forallb is_digit fp = true /\ String.length fp = 2%nat /\
    of_string (PdfImport.price_text "145.00") =
    Some (if Ascii.eqb sep ","
          then Fin (Qred (digits_val 0 (ip ++ fp) # 100))
          else of_Z (digits_val 0 (ip ++ fp))).
Proof.
  split; [reflexivity|].
  exact (X16_matched_price_is_a_number "Beton C25/30 145.00 m3"
           (MatchObj 22 [(3%nat, "m3"); (2%nat, "145.00"); (1%nat, "Beton C25/30")])
           eq_refl).
Defined.

(** X17 at the same line: the price of the row is 14500. *)
Lemma X17_witness :
  PdfImport.regex_line_row "  Beton C25/30 145.00 m3" =
  Some (PdfImport.mk_pdf_row (VStr "Beton C25/30") (VStr "m3")
          (of_Z 14500) (of_Z 14500) "PDF Standard Import") /\
  exists g1 ws ip sep fp rest,
    strip "  Beton C25/30 145.00 m3" = g1 ++ ws ++ (ip ++ String sep fp) ++ rest /\
    forallb is_space ws = true /\ is_empty ws = false /\
    forallb is_digit ip = true /\ is_empty ip = false /\
    forallb is_digit fp = true /\ String.length fp = 2%nat /\
    VStr "Beton C25/30" = VStr (strip g1) /\
    of_Z 14500 = (if Ascii.eqb sep ","
                  then Fin (Qred (digits_val 0 (ip ++ fp) # 100))
                  else of_Z (digits_val 0 (ip ++ fp))).
Proof.
  split; [reflexivity|].
  exact (X17_row_of_a_price_line "  Beton C25/30 145.00 m3"
           (PdfImport.mk_pdf_row (VStr "Beton C25/30") (VStr "m3")
              (of_Z 14500) (of_Z 14500) "PDF Standard Import")
           eq_refl).
Defined.

(* ------------------------------------------------------------------ *)
(** ** The PDF import *)

Section PdfFacts.
Import PdfImport.
Variable client : AI.ai_client.

Lemma ai_item_row_shape item r :
  ai_item_row item = Some r ->
  price_min r = price_max r /\ category r = "AI PDF Import".
Proof.
  unfold ai_item_row. destruct item; try discriminate.
  destruct (py_float _); [|discriminate].
  intros H; inversion H; subst; simpl; auto.
Qed.

Lemma ai_page_rows_shape ai_enabled ip :
  Forall (fun r => price_min r = price_max r /\ category r = "AI PDF Import")
         (ai_page_rows ai_enabled client ip).
Proof.
  unfold ai_page_rows. destruct (50 <? _)%nat; [|constructor].
  apply Forall_forall. intros r Hr.
  apply keep_some_In, in_map_iff in Hr. destruct Hr as (item & Hitem & _).
  eapply ai_item_row_shape; eauto.
Qed.

Lemma regex_line_row_shape raw r :
  regex_line_row raw = Some r ->
  price_min r = price_max r /\
  category r = "PDF Standard Import" /\
  ltb (Fin (1 # 10)) (price_min r) = true /\
  ltb (price_min r) (of_Z 100000) = true /\
  exists d, description r = VStr d /\ (3 < len d)%nat.
Proof.
  unfold regex_line_row.
  destruct (is_empty (strip raw) || _); [discriminate|].
  destruct (PyReX.xre_search price_line_pattern (strip raw)) as [m|];
    [|discriminate].
  destruct (of_string _) as [price_val|]; [|discriminate].
  destruct (3 <? _)%nat eqn:E1; [|discriminate].
  destruct (ltb (Fin (1 # 10)) price_val) eqn:E2; [|discriminate].
  destruct (ltb price_val (of_Z 100000)) eqn:E3; [|discriminate].
  intros H; inversion H; subst; simpl. repeat split; auto.
  eexists. split; [reflexivity|]. now apply Nat.ltb_lt.
Qed.

(** X18.  The rows of a PDF import come from one strategy: either all from
    the AI, or all from the line pattern, and then each has a description
    of more than three characters and a price above 0.1 and below 100000.
    In both cases a row has one price, [price_min = price_max]. *)
Theorem X18_pdf_rows_of_one_strategy (use_ai_import ai_enabled : bool)
    (pages_text : list string) :
  let rows := pdf_import use_ai_import ai_enabled client pages_text in
  Forall (fun r => price_min r = price_max r) rows /\
  (Forall (fun r => category r = "AI PDF Import") rows \/
   Forall (fun r =>
             category r = "PDF Standard Import" /\
             ltb (Fin (1 # 10)) (price_min r) = true /\
             ltb (price_min r) (of_Z 100000) = true /\
             exists d, description r = VStr d /\ (3 < len d)%nat)
          rows).
Proof.
  intros rows. subst rows. unfold pdf_import.
  set (regex_rows := ExcelImport.keep_some (map regex_line_row _)).
  assert (Hregex : Forall (fun r =>
             price_min r = price_max r /\
             category r = "PDF Standard Import" /\
             ltb (Fin (1 # 10)) (price_min r) = true /\
             ltb (price_min r) (of_Z 100000) = true /\
             exists d, description r = VStr d /\ (3 < len d)%nat)
            regex_rows).
  { apply Forall_forall. intros r Hr.
    apply keep_some_In, in_map_iff in Hr. destruct Hr as (raw & Hraw & _).
    eapply regex_line_row_shape; eauto. }
  assert (Hfall : Forall (fun r => price_min r = price_max r) regex_rows /\
                  (Forall (fun r => category r = "AI PDF Import") regex_rows \/
                   Forall (fun r =>
                     category r = "PDF Standard Import" /\
                     ltb (Fin (1 # 10)) (price_min r) = true /\
                     ltb (price_min r) (of_Z 100000) = true /\
                     exists d, description r = VStr d /\ (3 < len d)%nat)
                     regex_rows)).
  { split; [|right]; (eapply Forall_impl; [|exact Hregex]);
      intros r (H1 & H2 & H3 & H4 & H5); auto. }
  destruct (use_ai_import && ai_enabled) eqn:Eai; [|exact Hfall].
  destruct (flat_map (ai_page_rows ai_enabled client) (AI.enumerate pages_text))
    as [|r rs] eqn:Erows; [exact Hfall|].
  apply andb_prop in Eai. destruct Eai as [-> ->]. simpl.
  assert (Hai : Forall (fun r0 => price_min r0 = price_max r0 /\
                                  category r0 = "AI PDF Import") (r :: rs)).
  { rewrite <- Erows. apply Forall_flat_map, Forall_forall.
    intros ip _. apply ai_page_rows_shape. }
  split; [|left]; (eapply Forall_impl; [|exact Hai]); intros r0 [H1 H2]; auto.
Qed.

End PdfFacts.

(* ------------------------------------------------------------------ *)
(** ** The price lines of the ingestion script *)

Section IngestFacts.
Import PyReX Ingest.

Lemma run_cat_eq (A : Type) r1 r2 pos s c (k : cont A) :
  run A (Cat r1 r2) pos s c k =
  run A r1 pos s c (fun pos' s' c' => run A r2 pos' s' c' k).
Proof. reflexivity. Qed.

Lemma run_alt_inv (A : Type) r1 r2 pos s c (k : cont A) x :
  run A (Alt r1 r2) pos s c k = Some x ->
  run A r1 pos s c k = Some x \/ run A r2 pos s c k = Some x.
Proof.
  intros H. cbn [run] in H.
  destruct (run A r1 pos s c k) as [y|]; [left|right]; auto.
Qed.

Lemma run_opt_inv (A : Type) r pos s c (k : cont A) x :
  run A (Opt r) pos s c k = Some x ->
  run A r pos s c k = Some x \/ k pos s c = Some x.
Proof.
  intros H. cbn [run] in H.
  destruct (run A r pos s c k) as [y|]; [left|right]; auto.
Qed.

Lemma run_lit_inv (A : Type) l pos s c (k : cont A) x :
  run A (Lit l) pos s c k = Some x ->
  exists s', s = l ++ s' /\ k (pos + String.length l)%nat s' c = Some x.
Proof.
  intros H. cbn [run] in H.
  destruct (strip_prefix l s) as [s'|] eqn:E; [|discriminate].
  exists s'. split; [now apply strip_prefix_split|exact H].
Qed.

(** A pattern without groups, followed by the rest of the pattern. *)
Lemma run_free_split (A : Type) r1 r2 pos s c (k : cont A) x :
  groups_free r1 = true ->
  run A (Cat r1 r2) pos s c k = Some x ->
  exists w s',
    s = w ++ s' /\ run A r2 (pos + String.length w)%nat s' c k = Some x.
Proof.
  intros G H. apply run_cat_split in H.
  destruct H as (w & s' & c' & Hs & Hsem & H).
  apply sem_groups_free in Hsem; [subst c'|exact G]. eauto.
Qed.

Lemma reads_as_nonempty a v : reads_as a v -> is_empty a = false.
Proof.
  intros H. destruct H as [d _ Hd|ip fp _ Hip _ _]; [exact Hd|].
  destruct ip; [discriminate Hip|reflexivity].
Qed.

Lemma reads_as_nonneg a v : reads_as a v -> ge0 v = true.
Proof.
  intros H. destruct H as [d _ _|ip fp _ _ _ _]; unfold ge0, of_Z;
    apply Z.leb_le.
  - cbn [Qnum inject_Z]. apply digits_val_nonneg. lia.
  - apply Qred_nonneg. cbn [Qnum]. apply digits_val_nonneg. lia.
Qed.

(** [float] reads an amount as the number it stands for. *)
Lemma parse_amount_reads a v : reads_as a v -> parse_amount a = Some v.
Proof.
  intros H. unfold parse_amount.
  destruct H as [d Hd Hne|ip fp Hip _ Hfp Hne].
  - rewrite replace_char_absent by now apply digits_without.
    now apply digits_reading.
  - now apply comma_reading.
Qed.

(** What the pattern of an amount matches is an amount. *)
Lemma run_amount (A : Type) (k : cont A) pos s c x :
  run A amount pos s c k = Some x ->
  exists a s' v,
    s = a ++ s' /\ reads_as a v /\
    k (pos + String.length a)%nat s' c = Some x.
Proof.
  unfold amount. rewrite run_cat_eq. intros H.
  apply run_plus_cls in H. destruct H as (ip & s1 & Hs1 & Hip & Hip' & H).
  apply run_opt_inv in H. destruct H as [H|H].
  - rewrite run_cat_eq in H. apply run_lit_inv in H.
    destruct H as (s2 & Hs2 & H).
    apply run_plus_cls in H. destruct H as (fp & s3 & Hs3 & Hfp & Hfp' & H).
    eexists (ip ++ "," ++ fp), s3, _. split; [|split].
    + rewrite Hs1, Hs2, Hs3. now rewrite ?string_app_assoc.
    + now apply reads_fraction.
    + rewrite !length_string_app, !Nat.add_assoc. exact H.
  - eexists ip, s1, _. split; [exact Hs1|]. split; [|exact H].
    now apply reads_whole.
Qed.

Lemma run_grp_amount (A : Type) n (k : cont A) pos s c x :
  run A (Grp n amount) pos s c k = Some x ->
  exists a s' v,
    s = a ++ s' /\ reads_as a v /\
    k (pos + String.length a)%nat s' ((n, a) :: c) = Some x.
Proof.
  intros H.
  change (run A amount pos s c
            (fun pos' s' c' => k pos' s' ((n, take (pos' - pos) s) :: c')) =
          Some x) in H.
  apply run_amount in H. destruct H as (a & s' & v & Hs & Hv & H).
  exists a, s', v. rewrite Hs, take_after in H. auto.
Qed.

(** The end of the pattern: the euro sign, the slash and the unit. *)
Lemma run_unit_tail pos s c m :
  run match_obj
      (seq [ star space; Lit "€"; star space; Lit "/"; star space;
             Grp 4 (plus Regex.unit_char) ]) pos s c accept = Some m ->
  exists w u rest,
    s = w ++ u ++ rest /\
    forallb Regex.unit_byte u = true /\ is_empty u = false /\
    m_groups m = (4%nat, u) :: c.
Proof.
  cbn [seq]. intros H.
  apply run_free_split in H; [|reflexivity]. destruct H as (w1 & s1 & Hs1 & H).
  apply run_free_split in H; [|reflexivity]. destruct H as (w2 & s2 & Hs2 & H).
  apply run_free_split in H; [|reflexivity]. destruct H as (w3 & s3 & Hs3 & H).
  apply run_free_split in H; [|reflexivity]. destruct H as (w4 & s4 & Hs4 & H).
  apply run_free_split in H; [|reflexivity]. destruct H as (w5 & s5 & Hs5 & H).
  match type of H with
  | run _ _ ?p _ _ _ = _ =>
      change (run match_obj (plus Regex.unit_char) p s5 c
                (fun pos' s' c' =>
                   accept pos' s' ((4%nat, take (pos' - p) s5) :: c')) =
              Some m) in H
  end.
  apply run_plus_sound in H. destruct H as (u & s6 & c6 & Hs6 & Hsem & Hne & H).
  pose proof (sem_groups_free _ _ _ _ _ Hsem eq_refl) as Hc. subst c6.
  apply sem_only with (P := Regex.unit_byte) in Hsem; [|exact only_unit_char].
  rewrite Hs6, take_after in H. inversion H; subst m. clear H.
  exists (w1 ++ w2 ++ w3 ++ w4 ++ w5), u, s6. repeat split; auto.
  rewrite Hs1, Hs2, Hs3, Hs4, Hs5, Hs6. now rewrite ?string_app_assoc.
Qed.

(** What a match of the pattern says about the text. *)
Lemma pattern_groups text m :
  xre_search pattern text = Some m ->
  exists sep a1 v1 mid rest,
    text = group_str m 1 ++ sep ++ a1 ++ mid ++ group_str m 4 ++ rest /\
    (sep = ":" \/ (forallb is_space sep = true /\ is_empty sep = false)) /\
    group_str m 2 = a1 /\ reads_as a1 v1 /\
    forallb Regex.unit_byte (group_str m 4) = true /\
    is_empty (group_str m 4) = false /\
    (group m 3 = None \/
     exists m1 a2 v2 m2,
       group m 3 = Some a2 /\ mid = m1 ++ a2 ++ m2 /\ reads_as a2 v2).
Proof.
  unfold pattern. cbn [xseq]. rewrite xre_search_bol.
  cbn [xrun seq]. intros H.
  apply run_sound in H. destruct H as (w0 & s0 & c0 & Hs0 & Hsem0 & H).
  inversion Hsem0; subst w0 c0. simpl in Hs0. subst s0. clear Hsem0.
  apply lazy_iter_sound in H; [|reflexivity].
  destruct H as (g1 & s1 & Hs1 & H).
  rewrite Hs1, take_after in H.
  rewrite run_cat_eq in H.
  assert (Hsep : exists sep s2,
             s1 = sep ++ s2 /\
             (sep = ":" \/ (forallb is_space sep = true /\ is_empty sep = false)) /\
             run match_obj
               (Cat (Grp 2 amount)
                  (Cat (Opt (Cat (star space)
                               (Cat (Lit "-") (Cat (star space) (Grp 3 amount)))))
                     (seq [ star space; Lit "€"; star space; Lit "/"; star space;
                            Grp 4 (plus Regex.unit_char) ])))
               (0 + String.length g1 + String.length sep)%nat s2
               [(1%nat, g1)] accept = Some m).
  { apply run_alt_inv in H. destruct H as [H|H].
    - apply run_lit_inv in H. destruct H as (s2 & Hs2 & H).
      exists ":", s2. repeat split; auto.
    - apply run_plus_cls in H. destruct H as (sep & s2 & Hs2 & Hsp & Hne & H).
      exists sep, s2. repeat split; auto. }
  clear H. destruct Hsep as (sep & s2 & Hs2 & Hsep & H).
  rewrite run_cat_eq in H. apply run_grp_amount in H.
  destruct H as (a1 & s3 & v1 & Hs3 & Hv1 & H).
  rewrite run_cat_eq in H. apply run_opt_inv in H.
  destruct H as [H|H].
  - apply run_free_split in H; [|reflexivity]. destruct H as (wa & s4 & Hs4 & H).
    apply run_free_split in H; [|reflexivity]. destruct H as (wb & s5 & Hs5 & H).
    apply run_free_split in H; [|reflexivity]. destruct H as (wc & s6 & Hs6 & H).
    apply run_grp_amount in H. destruct H as (a2 & s7 & v2 & Hs7 & Hv2 & H).
    apply run_unit_tail in H. destruct H as (w & u & rest & Hs8 & Hu & Hne & Hm).
    destruct m as [e groups]. simpl in Hm. subst groups.
    exists sep, a1, v1, ((wa ++ wb ++ wc) ++ a2 ++ w), rest.
    change (group_str (MatchObj e _) 1) with g1.
    change (group_str (MatchObj e _) 2) with a1.
    change (group_str (MatchObj e _) 4) with u.
    change (group (MatchObj e _) 3) with (Some a2).
    repeat split; auto.
    + rewrite Hs1, Hs2, Hs3, Hs4, Hs5, Hs6, Hs7, Hs8.
      now rewrite ?string_app_assoc.
    + right. exists (wa ++ wb ++ wc), a2, v2, w. repeat split; auto.
  - apply run_unit_tail in H. destruct H as (w & u & rest & Hs8 & Hu & Hne & Hm).
    destruct m as [e groups]. simpl in Hm. subst groups.
    exists sep, a1, v1, w, rest.
    change (group_str (MatchObj e _) 1) with g1.
    change (group_str (MatchObj e _) 2) with a1.
    change (group_str (MatchObj e _) 4) with u.
    change (group (MatchObj e _) 3) with (@None string).
    repeat split; auto.
    rewrite Hs1, Hs2, Hs3, Hs8. now rewrite ?string_app_assoc.
Qed.

Lemma unit_byte_no_space u :
  forallb Regex.unit_byte u = true ->
  forallb (fun a => negb (is_space a)) u = true.
Proof.
  apply forallb_impl. intros a H.
  destruct (is_space a) eqn:D; [exfalso|reflexivity].
  unfold is_space in D.
  unfold Regex.unit_byte, is_alpha, is_upper, is_lower in H.
  apply orb_prop in D.
  repeat (apply orb_prop in H; destruct H as [H|H]);
    try (apply andb_prop in H; destruct H as [H1 H2];
         apply Nat.leb_le in H1, H2);
    try apply Nat.eqb_eq in H;
    destruct D as [D|D]; apply andb_prop in D; destruct D as [D1 D2];
    apply Nat.leb_le in D1, D2; lia.
Qed.

(** What [parse_price_line] gives for a text the pattern matches. *)
Lemma parse_price_line_match text m :
  xre_search pattern text = Some m ->
  exists sep a1 mid rest p1 p2,
    parse_price_line text =
      Returns (Some (mk_entry (strip (group_str m 1)) p1 p2
                              (group_str m 4) text)) /\
    text = group_str m 1 ++ sep ++ a1 ++ mid ++ group_str m 4 ++ rest /\
    (sep = ":" \/ (forallb is_space sep = true /\ is_empty sep = false)) /\
    reads_as a1 p1 /\
    forallb Regex.unit_byte (group_str m 4) = true /\
    is_empty (group_str m 4) = false /\
    (p2 = p1 \/
     exists m1 a2 m2, mid = m1 ++ a2 ++ m2 /\ reads_as a2 p2).
Proof.
  intros Hm. pose proof (pattern_groups text m Hm) as H.
  destruct H as (sep & a1 & v1 & mid & rest & Ht & Hsep & Hg2 & Hv1 & Hu & Hne & H3).
  unfold parse_price_line. rewrite Hm, Hg2, (parse_amount_reads a1 v1 Hv1).
  unfold strip at 2.
  rewrite (strip_with_fixed is_space _ (unit_byte_no_space _ Hu)).
  destruct H3 as [H3|(m1 & a2 & v2 & m2 & H3 & Hmid & Hv2)]; rewrite H3.
  - exists sep, a1, mid, rest, v1, v1. repeat split; auto.
  - rewrite (reads_as_nonempty a2 v2 Hv2), (parse_amount_reads a2 v2 Hv2).
    exists sep, a1, mid, rest, v1, v2. repeat split; auto.
    right. eauto.
Qed.

(** [parse_price_line] returns. *)
Lemma parse_price_line_returns (text : string) :
  exists r,
    parse_price_line text = Returns r /\
    match r with
    | Some e =>
        raw_text e = text /\
        ge0 (price_min e) = true /\ ge0 (price_max e) = true /\
        forallb Regex.unit_byte (unit e) = true /\ is_empty (unit e) = false
    | None => xre_search pattern text = None
    end.
Proof.
  destruct (xre_search pattern text) as [m|] eqn:Hm.
  - destruct (parse_price_line_match text m Hm)
      as (sep & a1 & mid & rest & p1 & p2 & Hp & _ & _ & Hv1 & Hu & Hne & H2).
    eexists. split; [exact Hp|]. simpl. repeat split; auto.
    + eapply reads_as_nonneg; eauto.
    + destruct H2 as [->|(m1 & a2 & m2 & _ & Hv2)];
        eapply reads_as_nonneg; eauto.
  - exists None. unfold parse_price_line. rewrite Hm. auto.
Qed.

(** X19.  [parse_price_line] never raises: the texts its pattern captures
    as prices are always read by [float].  In the dictionary it returns the
    raw text is the text given, both prices are numbers that are not
    negative, and the unit is a run of letters and superscripts that is not
    empty. *)
Theorem X19_price_line_never_raises (text : string) :
  exists r,
    parse_price_line text = Returns r /\
    match r with
    | Some e =>
        raw_text e = text /\
        ge0 (price_min e) = true /\ ge0 (price_max e) = true /\
        forallb Regex.unit_byte (unit e) = true /\ is_empty (unit e) = false
    | None => xre_search pattern text = None
    end.
Proof. exact (parse_price_line_returns text). Qed.

(** X20.  The dictionary of a price line comes from the text: the text
    starts with a text, a colon or white space, and an amount, and holds
    the unit further on; the description is the first text, stripped, the
    lower price the amount, a comma read as the decimal sign, and the upper
    price either the same number or a second amount that stands between
    the first and the unit. *)
Theorem X20_entry_of_a_price_line (text : string) (e : price_entry) :
  parse_price_line text = Returns (Some e) ->
  exists g1 sep a1 mid rest,
    text = g1 ++ sep ++ a1 ++ mid ++ unit e ++ rest /\
    (sep = ":" \/ (forallb is_space sep = true /\ is_empty sep = false)) /\
    description e = strip g1 /\
    reads_as a1 (price_min e) /\
    (price_max e = price_min e \/
     exists m1 a2 m2, mid = m1 ++ a2 ++ m2 /\ reads_as a2 (price_max e)).
Proof.
  intros H. destruct (xre_search pattern text) as [m|] eqn:Hm.
  - destruct (parse_price_line_match text m Hm)
      as (sep & a1 & mid & rest & p1 & p2 & Hp & Ht & Hsep & Hv1 & _ & _ & H2).
    rewrite Hp in H. inversion H; subst e; simpl.
    exists (group_str m 1), sep, a1, mid, rest. repeat split; auto.
  - unfold parse_price_line in H. rewrite Hm in H. discriminate H.
Qed.

Lemma insert_rows_returns basename paragraphs :
  exists rows,
    insert_rows basename paragraphs = Returns rows /\
    (List.length rows <= List.length paragraphs)%nat /\
    Forall (fun r =>
              source_file r = basename /\ category r = "General" /\
              exists para,
                In para paragraphs /\
                parse_price_line (strip para) = Returns (Some (entry r)))
           rows.
Proof.
  induction paragraphs as [|para rest IH]; cbn [insert_rows].
  - exists []. repeat split; auto.
  - destruct IH as (rows & Hr & Hlen & Hall).
    assert (Hall' : Forall (fun r =>
              source_file r = basename /\ category r = "General" /\
              exists para0,
                In para0 (para :: rest) /\
                parse_price_line (strip para0) = Returns (Some (entry r)))
           rows).
    { eapply Forall_impl; [|exact Hall].
      intros r (H1 & H2 & p & Hp & Hq). repeat split; auto.
      exists p. split; [now right|exact Hq]. }
    destruct (is_empty (strip para)).
    + exists rows. simpl. repeat split; auto.
    + destruct (parse_price_line_returns (strip para)) as (r & Hp & _). rewrite Hp.
      destruct r as [parsed|].
      * rewrite Hr. exists (mk_row basename "General" parsed :: rows).
        simpl. repeat split; [lia|]. constructor; [|exact Hall'].
        simpl. repeat split; auto. exists para. split; [now left|exact Hp].
      * exists rows. simpl. repeat split; auto.
Qed.

(** X21.  [extract_from_docx] is never cut short by a paragraph: the loop
    runs to the end and the rows are committed.  There is at most one row
    for each paragraph; every row carries the base name of the file and the
    category "General", and its entry is what [parse_price_line] returns
    for a paragraph of the document, stripped. *)
Theorem X21_docx_rows (basename : string) (paragraphs : list string) :
  insert_rows basename paragraphs =
    Returns (extract_from_docx basename paragraphs) /\
  (List.length (extract_from_docx basename paragraphs) <=
   List.length paragraphs)%nat /\
  Forall (fun r =>
            source_file r = basename /\ category r = "General" /\
            exists para,
              In para paragraphs /\
              parse_price_line (strip para) = Returns (Some (entry r)))
         (extract_from_docx basename paragraphs).
Proof.
  destruct (insert_rows_returns basename paragraphs) as (rows & Hr & Hlen & Hall).
  unfold extract_from_docx. rewrite Hr. auto.
Qed.

End IngestFacts.

(** X20 at a line with a range of prices; the colon, which white space
    follows, stays in the description. *)
Lemma X20_witness :
  Ingest.parse_price_line "Estrich: 12,50 - 15 €/m" =
  Ingest.Returns
    (Some (Ingest.mk_entry "Estrich:" (Fin (25 # 2)) (of_Z 15) "m"
             "Estrich: 12,50 - 15 €/m")) /\
  exists g1 sep a1 mid rest,
    "Estrich: 12,50 - 15 €/m" = g1 ++ sep ++ a1 ++ mid ++ "m" ++ rest /\
    (sep = ":" \/ (forallb is_space sep = true /\ is_empty sep = false)) /\
    "Estrich:" = strip g1 /\
    Ingest.reads_as a1 (Fin (25 # 2)) /\
    (of_Z 15 = Fin (25 # 2) \/
     exists m1 a2 m2, mid = m1 ++ a2 ++ m2 /\ Ingest.reads_as a2 (of_Z 15)).
Proof.
  split; [reflexivity|].
  exact (X20_entry_of_a_price_line "Estrich: 12,50 - 15 €/m"
           (Ingest.mk_entry "Estrich:" (Fin (25 # 2)) (of_Z 15) "m"
              "Estrich: 12,50 - 15 €/m")
           eq_refl).
Defined.
